(** * E57SimpleWriter: bounds derivation and the write facade

    A shallow embedding of [src/E57SimpleWriter.cpp]: the helper
    [_fillMinMaxData] of the anonymous namespace, which backfills the
    minimum/maximum bounds of a [Data3D] header from the point buffers,
    and the [e57::Writer] methods that forward to the private
    implementation object [impl_].

    Floating-point values are IEEE 754 values in the representation of
    [SpecFloat]: comparisons are [SFltb] and [SFeqb], so that signed
    zeros, infinities and NaN behave as they do for the C++ operators
    [<] and [==]. *)

From Stdlib Require Import ZArith List Bool Lia.
From Stdlib Require Import Floats.SpecFloat.
Import ListNotations.

Local Open Scope Z_scope.

(** ** Floating-point types *)

(** The two types [_fillMinMaxData] is instantiated with (lines 161-164):
    [Data3DPointsFloat] has [COORDTYPE = float], [Data3DPointsDouble] has
    [COORDTYPE = double]. *)
Inductive COORDTYPE : Set := float | double.

Definition prec (T : COORDTYPE) : Z :=
  match T with float => 24 | double => 53 end.

Definition emax (T : COORDTYPE) : Z :=
  match T with float => 128 | double => 1024 end.

(** [std::numeric_limits<T>::max()] and [std::numeric_limits<T>::lowest()]. *)
Definition numeric_limits_max (T : COORDTYPE) : spec_float :=
  SFmax_float (prec T) (emax T).

Definition numeric_limits_lowest (T : COORDTYPE) : spec_float :=
  SFopp (numeric_limits_max T).

(** A value of type [T]: finite values are in the canonical form of the
    format. *)
Definition is_value (T : COORDTYPE) (x : spec_float) : bool :=
  valid_binary (prec T) (emax T) x.

(** [std::isfinite]. *)
Definition is_finite (x : spec_float) : bool :=
  match x with
  | S754_zero _ | S754_finite _ _ _ => true
  | S754_infinity _ | S754_nan => false
  end.

Definition is_nan (x : spec_float) : bool :=
  match x with S754_nan => true | _ => false end.

(** The conversion of a [float] to [double], exact for every [float]: the
    value is normalised again in the wider format. *)
Definition float_to_double (x : spec_float) : spec_float :=
  match x with
  | S754_finite s m e => binary_normalize (prec double) (emax double) (cond_Zopp s (Zpos m)) e s
  | _ => x
  end.

(** The implicit conversion of a [COORDTYPE] to the [double] of a header
    field. *)
Definition to_double (T : COORDTYPE) (x : spec_float) : spec_float :=
  match T with float => float_to_double x | double => x end.

(** [std::min( a, b )] is [(b < a) ? b : a]; [std::max( a, b )] is
    [(a < b) ? b : a]. *)
Definition std_min (a b : spec_float) : spec_float :=
  if SFltb b a then b else a.

Definition std_max (a b : spec_float) : spec_float :=
  if SFltb a b then b else a.

(** ** The data model (namespace [e57])

    The structures of the header and of the buffers are declared in the
    library's public headers, which are not among the sources.  Their
    members are the ones the code below names,
    with the types its expressions force: a buffer element passed to
    [std::min] together with a [COORDTYPE] accumulator is a [COORDTYPE],
    one passed together with a [double] accumulator is a [double]. *)
Module e57.

(** Modelled from the spec: the enumeration [e57::NumericalNodeType] is
    declared outside this file.  A numeric quantity is stored "as
    floating point or as a scaled integer" (section 3), the floating
    point being single or double precision; the code tests the type
    against [ScaledInteger] only. *)
Inductive NumericalNodeType : Set := ScaledInteger | Float | Double.

Definition NumericalNodeType_eqb (a b : NumericalNodeType) : bool :=
  match a, b with
  | ScaledInteger, ScaledInteger | Float, Float | Double, Double => true
  | _, _ => false
  end.

(** Modelled from the spec: the structure [e57::IntensityLimits] is
    declared outside this file; it holds the "intensity limits" of a
    header (section 3), the two members the code assigns a [double] to. *)
Record IntensityLimits : Set := {
  intensityMinimum : spec_float;
  intensityMaximum : spec_float
}.

(** Modelled from the spec: the type of [Data3D::pointFields] is declared
    outside this file; it is the "PointFieldDescriptor" of section 3:
    "which optional quantities are present (Cartesian x/y/z, spherical
    range/azimuth/elevation, intensity, time, color), and for each
    numeric quantity whether it is stored as floating point or as a
    scaled integer with an associated value range".  The flags, node
    types and bounds the code names are here under the names it uses;
    the flags of the y, z, azimuth and elevation fields, which
    [_fillMinMaxData] never consults, are named after them.  Every bound
    is a [double]. *)
Record PointStandardizedFieldsAvailable : Set := {
  cartesianXField : bool;
  cartesianYField : bool;
  cartesianZField : bool;
  sphericalRangeField : bool;
  sphericalAzimuthField : bool;
  sphericalElevationField : bool;
  intensityField : bool;
  timeStampField : bool;
  pointRangeNodeType : NumericalNodeType;
  pointRangeMinimum : spec_float;
  pointRangeMaximum : spec_float;
  angleNodeType : NumericalNodeType;
  angleMinimum : spec_float;
  angleMaximum : spec_float;
  timeNodeType : NumericalNodeType;
  timeMinimum : spec_float;
  timeMaximum : spec_float
}.

(** Modelled from the spec: the structure [e57::Data3D] is declared
    outside this file; it is the "RecordHeader" of section 3, "a mutable
    struct containing the PointFieldDescriptor, an expected point/byte
    count, and auxiliary range fields".  [pointCount] is compared with an
    [int64_t]. *)
Record Data3D : Set := {
  pointCount : Z;
  pointFields : PointStandardizedFieldsAvailable;
  intensityLimits : IntensityLimits
}.

(** Modelled from the spec: the structure
    [e57::Data3DPointsData_t<COORDTYPE>] is declared outside this file;
    it is the "PointBufferSet<T>" of section 3, "caller-owned, parallel
    arrays of per-point scalars indexed 0..count-1, one array per enabled
    field".  Each member is a pointer: [None] is the null pointer,
    [Some l] points to an array holding [l]. *)
Record Data3DPointsData_t : Set := {
  cartesianX : option (list spec_float);
  cartesianY : option (list spec_float);
  cartesianZ : option (list spec_float);
  sphericalRange : option (list spec_float);
  sphericalAzimuth : option (list spec_float);
  sphericalElevation : option (list spec_float);
  intensity : option (list spec_float);
  timeStamp : option (list spec_float)
}.

End e57.

(** The buffers of a [Data3DPointsData_t]. *)
Inductive BufferId : Set :=
| CartesianX | CartesianY | CartesianZ
| SphericalRange | SphericalAzimuth | SphericalElevation
| Intensity | TimeStamp.

Definition buffer_of (id : BufferId) (b : e57.Data3DPointsData_t) : option (list spec_float) :=
  match id with
  | CartesianX => e57.cartesianX b
  | CartesianY => e57.cartesianY b
  | CartesianZ => e57.cartesianZ b
  | SphericalRange => e57.sphericalRange b
  | SphericalAzimuth => e57.sphericalAzimuth b
  | SphericalElevation => e57.sphericalElevation b
  | Intensity => e57.intensity b
  | TimeStamp => e57.timeStamp b
  end.

(** [p[i]]: defined when [p] is not null and [i] is inside the array. *)
Definition peek (p : option (list spec_float)) (i : Z) : option spec_float :=
  match p with
  | Some l => if i <? 0 then None else nth_error l (Z.to_nat i)
  | None => None
  end.

(** ** The state [_fillMinMaxData] runs in

    The header it was given by reference, the buffers it was given by
    const reference, and the log of the buffer elements it has read.  A
    computation is undefined ([None]) once it reads through a null
    pointer or outside an array. *)
Record State : Set := {
  ioData3DHeader : e57.Data3D;
  inBuffers : e57.Data3DPointsData_t;
  reads : list (BufferId * Z)
}.

Definition M (A : Type) : Type := State -> option (A * State).

Definition ret {A} (a : A) : M A := fun s => Some (a, s).

Definition bind {A B} (m : M A) (k : A -> M B) : M B :=
  fun s => match m s with
           | Some (a, s') => k a s'
           | None => None
           end.

Declare Scope fill_scope.
Delimit Scope fill_scope with fill.
Notation "x <- m ;; k" := (bind m (fun x => k))
  (at level 100, m at next level, right associativity) : fill_scope.
Notation "m ;; k" := (bind m (fun _ => k))
  (at level 100, right associativity) : fill_scope.
Local Open Scope fill_scope.

Definition when (c : bool) (m : M unit) : M unit := if c then m else ret tt.

(** [inBuffers.<id>[i]] *)
Definition inBuffers_at (id : BufferId) (i : Z) : M spec_float :=
  fun s => match peek (buffer_of id (inBuffers s)) i with
           | Some v => Some (v, {| ioData3DHeader := ioData3DHeader s;
                                   inBuffers := inBuffers s;
                                   reads := reads s ++ [(id, i)] |})
           | None => None
           end.

Definition get_header : M e57.Data3D := fun s => Some (ioData3DHeader s, s).

Definition modify_header (f : e57.Data3D -> e57.Data3D) : M unit :=
  fun s => Some (tt, {| ioData3DHeader := f (ioData3DHeader s);
                        inBuffers := inBuffers s;
                        reads := reads s |}).

(** [for ( int64_t i = first; ...; ++i )] with [n] iterations left. *)
Fixpoint for_loop {A} (n : nat) (i : Z) (body : Z -> A -> M A) (a : A) : M A :=
  match n with
  | O => ret a
  | S n' => a' <- body i a ;; for_loop n' (i + 1) body a'
  end.

(** ** The local variables of [_fillMinMaxData]

    The running bounds: the point range and angle bounds are [COORDTYPE]
    ([auto] initialised from [cMax] and [cMin]), the intensity and time
    bounds are [double]. *)
Record Locals : Set := {
  pointRangeMinimum : spec_float;
  pointRangeMaximum : spec_float;
  angleMinimum : spec_float;
  angleMaximum : spec_float;
  intensityMinimum : spec_float;
  intensityMaximum : spec_float;
  timeMinimum : spec_float;
  timeMaximum : spec_float
}.

Definition with_pointRangeMinimum (v : spec_float) (l : Locals) : Locals :=
  {| pointRangeMinimum := v; pointRangeMaximum := pointRangeMaximum l;
     angleMinimum := angleMinimum l; angleMaximum := angleMaximum l;
     intensityMinimum := intensityMinimum l; intensityMaximum := intensityMaximum l;
     timeMinimum := timeMinimum l; timeMaximum := timeMaximum l |}.

Definition with_pointRangeMaximum (v : spec_float) (l : Locals) : Locals :=
  {| pointRangeMinimum := pointRangeMinimum l; pointRangeMaximum := v;
     angleMinimum := angleMinimum l; angleMaximum := angleMaximum l;
     intensityMinimum := intensityMinimum l; intensityMaximum := intensityMaximum l;
     timeMinimum := timeMinimum l; timeMaximum := timeMaximum l |}.

Definition with_angleMinimum (v : spec_float) (l : Locals) : Locals :=
  {| pointRangeMinimum := pointRangeMinimum l; pointRangeMaximum := pointRangeMaximum l;
     angleMinimum := v; angleMaximum := angleMaximum l;
     intensityMinimum := intensityMinimum l; intensityMaximum := intensityMaximum l;
     timeMinimum := timeMinimum l; timeMaximum := timeMaximum l |}.

Definition with_angleMaximum (v : spec_float) (l : Locals) : Locals :=
  {| pointRangeMinimum := pointRangeMinimum l; pointRangeMaximum := pointRangeMaximum l;
     angleMinimum := angleMinimum l; angleMaximum := v;
     intensityMinimum := intensityMinimum l; intensityMaximum := intensityMaximum l;
     timeMinimum := timeMinimum l; timeMaximum := timeMaximum l |}.

Definition with_intensityMinimum (v : spec_float) (l : Locals) : Locals :=
  {| pointRangeMinimum := pointRangeMinimum l; pointRangeMaximum := pointRangeMaximum l;
     angleMinimum := angleMinimum l; angleMaximum := angleMaximum l;
     intensityMinimum := v; intensityMaximum := intensityMaximum l;
     timeMinimum := timeMinimum l; timeMaximum := timeMaximum l |}.

Definition with_intensityMaximum (v : spec_float) (l : Locals) : Locals :=
  {| pointRangeMinimum := pointRangeMinimum l; pointRangeMaximum := pointRangeMaximum l;
     angleMinimum := angleMinimum l; angleMaximum := angleMaximum l;
     intensityMinimum := intensityMinimum l; intensityMaximum := v;
     timeMinimum := timeMinimum l; timeMaximum := timeMaximum l |}.

Definition with_timeMinimum (v : spec_float) (l : Locals) : Locals :=
  {| pointRangeMinimum := pointRangeMinimum l; pointRangeMaximum := pointRangeMaximum l;
     angleMinimum := angleMinimum l; angleMaximum := angleMaximum l;
     intensityMinimum := intensityMinimum l; intensityMaximum := intensityMaximum l;
     timeMinimum := v; timeMaximum := timeMaximum l |}.

Definition with_timeMaximum (v : spec_float) (l : Locals) : Locals :=
  {| pointRangeMinimum := pointRangeMinimum l; pointRangeMaximum := pointRangeMaximum l;
     angleMinimum := angleMinimum l; angleMaximum := angleMaximum l;
     intensityMinimum := intensityMinimum l; intensityMaximum := intensityMaximum l;
     timeMinimum := timeMinimum l; timeMaximum := v |}.

(** ** Assignments to the header *)

Definition set_pointFields (f : e57.PointStandardizedFieldsAvailable -> e57.PointStandardizedFieldsAvailable)
    (h : e57.Data3D) : e57.Data3D :=
  {| e57.pointCount := e57.pointCount h;
     e57.pointFields := f (e57.pointFields h);
     e57.intensityLimits := e57.intensityLimits h |}.

Definition set_intensityLimits (f : e57.IntensityLimits -> e57.IntensityLimits)
    (h : e57.Data3D) : e57.Data3D :=
  {| e57.pointCount := e57.pointCount h;
     e57.pointFields := e57.pointFields h;
     e57.intensityLimits := f (e57.intensityLimits h) |}.

(** The six bounds of the point fields, replaced by [f]; every other field
    is copied. *)
Definition set_bounds
    (prMin prMax aMin aMax tMin tMax : spec_float -> spec_float)
    (p : e57.PointStandardizedFieldsAvailable) : e57.PointStandardizedFieldsAvailable :=
  {| e57.cartesianXField := e57.cartesianXField p;
     e57.cartesianYField := e57.cartesianYField p;
     e57.cartesianZField := e57.cartesianZField p;
     e57.sphericalRangeField := e57.sphericalRangeField p;
     e57.sphericalAzimuthField := e57.sphericalAzimuthField p;
     e57.sphericalElevationField := e57.sphericalElevationField p;
     e57.intensityField := e57.intensityField p;
     e57.timeStampField := e57.timeStampField p;
     e57.pointRangeNodeType := e57.pointRangeNodeType p;
     e57.pointRangeMinimum := prMin (e57.pointRangeMinimum p);
     e57.pointRangeMaximum := prMax (e57.pointRangeMaximum p);
     e57.angleNodeType := e57.angleNodeType p;
     e57.angleMinimum := aMin (e57.angleMinimum p);
     e57.angleMaximum := aMax (e57.angleMaximum p);
     e57.timeNodeType := e57.timeNodeType p;
     e57.timeMinimum := tMin (e57.timeMinimum p);
     e57.timeMaximum := tMax (e57.timeMaximum p) |}.

Definition keep (x : spec_float) : spec_float := x.

(** [pointFields.pointRangeMinimum = v;] and its five siblings. *)
Definition assign_pointRangeMinimum (v : spec_float) : M unit :=
  modify_header (set_pointFields (set_bounds (fun _ => v) keep keep keep keep keep)).
Definition assign_pointRangeMaximum (v : spec_float) : M unit :=
  modify_header (set_pointFields (set_bounds keep (fun _ => v) keep keep keep keep)).
Definition assign_angleMinimum (v : spec_float) : M unit :=
  modify_header (set_pointFields (set_bounds keep keep (fun _ => v) keep keep keep)).
Definition assign_angleMaximum (v : spec_float) : M unit :=
  modify_header (set_pointFields (set_bounds keep keep keep (fun _ => v) keep keep)).
Definition assign_timeMinimum (v : spec_float) : M unit :=
  modify_header (set_pointFields (set_bounds keep keep keep keep (fun _ => v) keep)).
Definition assign_timeMaximum (v : spec_float) : M unit :=
  modify_header (set_pointFields (set_bounds keep keep keep keep keep (fun _ => v))).

(** [ioData3DHeader.intensityLimits.intensityMinimum = v;] and its sibling. *)
Definition assign_intensityMinimum (v : spec_float) : M unit :=
  modify_header (set_intensityLimits (fun il =>
    {| e57.intensityMinimum := v; e57.intensityMaximum := e57.intensityMaximum il |})).
Definition assign_intensityMaximum (v : spec_float) : M unit :=
  modify_header (set_intensityLimits (fun il =>
    {| e57.intensityMinimum := e57.intensityMinimum il; e57.intensityMaximum := v |})).

(** ** [_fillMinMaxData] *)

(** The five conditional blocks of the loop body, for the element [i];
    [c] is the condition of the [if]. *)

(** Lines 95-104: [if ( writePointRange && pointFields.cartesianXField )]. *)
Definition scan_cartesian (c : bool) (i : Z) (l : Locals) : M Locals :=
  if c then
    v <- inBuffers_at CartesianX i ;;
    let l := with_pointRangeMinimum (std_min v (pointRangeMinimum l)) l in
    v <- inBuffers_at CartesianY i ;;
    let l := with_pointRangeMinimum (std_min v (pointRangeMinimum l)) l in
    v <- inBuffers_at CartesianZ i ;;
    let l := with_pointRangeMinimum (std_min v (pointRangeMinimum l)) l in
    v <- inBuffers_at CartesianX i ;;
    let l := with_pointRangeMaximum (std_max v (pointRangeMaximum l)) l in
    v <- inBuffers_at CartesianY i ;;
    let l := with_pointRangeMaximum (std_max v (pointRangeMaximum l)) l in
    v <- inBuffers_at CartesianZ i ;;
    let l := with_pointRangeMaximum (std_max v (pointRangeMaximum l)) l in
    ret l
  else ret l.

(** Lines 106-113: [if ( writePointRange && pointFields.sphericalRangeField )]. *)
Definition scan_sphericalRange (c : bool) (i : Z) (l : Locals) : M Locals :=
  if c then
    v <- inBuffers_at SphericalRange i ;;
    let l := with_pointRangeMinimum (std_min v (pointRangeMinimum l)) l in
    v <- inBuffers_at SphericalRange i ;;
    let l := with_pointRangeMaximum (std_max v (pointRangeMaximum l)) l in
    ret l
  else ret l.

(** Lines 115-122: [if ( writeAngle )]. *)
Definition scan_angle (c : bool) (i : Z) (l : Locals) : M Locals :=
  if c then
    v <- inBuffers_at SphericalAzimuth i ;;
    let l := with_angleMinimum (std_min v (angleMinimum l)) l in
    v <- inBuffers_at SphericalElevation i ;;
    let l := with_angleMinimum (std_min v (angleMinimum l)) l in
    v <- inBuffers_at SphericalAzimuth i ;;
    let l := with_angleMaximum (std_max v (angleMaximum l)) l in
    v <- inBuffers_at SphericalElevation i ;;
    let l := with_angleMaximum (std_max v (angleMaximum l)) l in
    ret l
  else ret l.

(** Lines 124-128: [if ( writeIntensity )]. *)
Definition scan_intensity (c : bool) (i : Z) (l : Locals) : M Locals :=
  if c then
    v <- inBuffers_at Intensity i ;;
    let l := with_intensityMinimum (std_min v (intensityMinimum l)) l in
    v <- inBuffers_at Intensity i ;;
    let l := with_intensityMaximum (std_max v (intensityMaximum l)) l in
    ret l
  else ret l.

(** Lines 130-134: [if ( writeTimeStamp )]. *)
Definition scan_timeStamp (c : bool) (i : Z) (l : Locals) : M Locals :=
  if c then
    v <- inBuffers_at TimeStamp i ;;
    let l := with_timeMinimum (std_min v (timeMinimum l)) l in
    v <- inBuffers_at TimeStamp i ;;
    let l := with_timeMaximum (std_max v (timeMaximum l)) l in
    ret l
  else ret l.

(** The body of the loop over the points (lines 94-135), for the element
    [i], with the four conditions computed before the loop. *)
Definition loop_body (pointFields : e57.PointStandardizedFieldsAvailable)
    (writePointRange writeAngle writeIntensity writeTimeStamp : bool)
    (i : Z) (l : Locals) : M Locals :=
  l <- scan_cartesian (writePointRange && e57.cartesianXField pointFields) i l ;;
  l <- scan_sphericalRange (writePointRange && e57.sphericalRangeField pointFields) i l ;;
  l <- scan_angle writeAngle i l ;;
  l <- scan_intensity writeIntensity i l ;;
  scan_timeStamp writeTimeStamp i l.

(** [e57::IntensityLimits{}] and the structure's [operator==]: both are
    declared with the structure, outside this file, and are taken as
    given. *)
Record IntensityLimitsDecl : Set := {
  IntensityLimits_default : e57.IntensityLimits;
  IntensityLimits_eq : e57.IntensityLimits -> e57.IntensityLimits -> bool
}.

(** The four conditions (lines 58-60, 68-70, 78-79 and 87-90).  [cMin] and
    [cMax] are [COORDTYPE] constants, converted to [double] for the
    comparison with a header field. *)
Definition writePointRange (T : COORDTYPE) (pointFields : e57.PointStandardizedFieldsAvailable) : bool :=
  let cMin := numeric_limits_lowest T in
  let cMax := numeric_limits_max T in
  e57.NumericalNodeType_eqb (e57.pointRangeNodeType pointFields) e57.ScaledInteger
  && SFeqb (e57.pointRangeMinimum pointFields) (to_double T cMin)
  && SFeqb (e57.pointRangeMaximum pointFields) (to_double T cMax).

Definition writeAngle (T : COORDTYPE) (pointFields : e57.PointStandardizedFieldsAvailable) : bool :=
  let cMin := numeric_limits_lowest T in
  let cMax := numeric_limits_max T in
  e57.NumericalNodeType_eqb (e57.angleNodeType pointFields) e57.ScaledInteger
  && SFeqb (e57.angleMinimum pointFields) (to_double T cMin)
  && SFeqb (e57.angleMaximum pointFields) (to_double T cMax).

Definition writeIntensity (D : IntensityLimitsDecl) (ioData3DHeader : e57.Data3D) : bool :=
  e57.intensityField (e57.pointFields ioData3DHeader)
  && IntensityLimits_eq D (e57.intensityLimits ioData3DHeader) (IntensityLimits_default D).

Definition writeTimeStamp (T : COORDTYPE) (pointFields : e57.PointStandardizedFieldsAvailable) : bool :=
  let cMin := numeric_limits_lowest T in
  let cMax := numeric_limits_max T in
  e57.timeStampField pointFields
  && e57.NumericalNodeType_eqb (e57.timeNodeType pointFields) e57.ScaledInteger
  && SFeqb (e57.timeMinimum pointFields) (to_double T cMin)
  && SFeqb (e57.timeMaximum pointFields) (to_double T cMax).

(** The values the local bounds start with (lines 55-56, 65-66, 75-76 and
    84-85). *)
Definition initial_locals (T : COORDTYPE) : Locals :=
  let cMin := numeric_limits_lowest T in
  let cMax := numeric_limits_max T in
  {| pointRangeMinimum := cMax; pointRangeMaximum := cMin;
     angleMinimum := cMax; angleMaximum := cMin;
     intensityMinimum := numeric_limits_max double;
     intensityMaximum := numeric_limits_lowest double;
     timeMinimum := numeric_limits_max double;
     timeMaximum := numeric_limits_lowest double |}.

(** [template <typename COORDTYPE> void _fillMinMaxData( e57::Data3D
    &ioData3DHeader, const e57::Data3DPointsData_t<COORDTYPE> &inBuffers )].
    The header is not assigned before the loop ends, so the reference
    [pointFields] and the loop bound [ioData3DHeader.pointCount] are read
    once. *)
Definition _fillMinMaxData (D : IntensityLimitsDecl) (T : COORDTYPE) : M unit :=
  h <- get_header ;;
  let pointFields := e57.pointFields h in
  let writePointRange := writePointRange T pointFields in
  let writeAngle := writeAngle T pointFields in
  let writeIntensity := writeIntensity D h in
  let writeTimeStamp := writeTimeStamp T pointFields in
  l <- for_loop (Z.to_nat (e57.pointCount h)) 0
         (loop_body pointFields writePointRange writeAngle writeIntensity writeTimeStamp)
         (initial_locals T) ;;
  when writePointRange
    (assign_pointRangeMinimum (to_double T (pointRangeMinimum l)) ;;
     assign_pointRangeMaximum (to_double T (pointRangeMaximum l))) ;;
  when writeAngle
    (assign_angleMinimum (to_double T (angleMinimum l)) ;;
     assign_angleMaximum (to_double T (angleMaximum l))) ;;
  when writeIntensity
    (assign_intensityMinimum (intensityMinimum l) ;;
     assign_intensityMaximum (intensityMaximum l)) ;;
  when writeTimeStamp
    (assign_timeMinimum (timeMinimum l) ;;
     assign_timeMaximum (timeMaximum l)).


(** ** What [_fillMinMaxData] computes, stated on lists of samples

    The definitions below do not come from the code: they are the terms
    the theorems compare the code with. *)

(** The running minimum and maximum over a list of samples, started from
    [init]. *)
Definition fold_min (init : spec_float) (l : list spec_float) : spec_float :=
  fold_left (fun acc v => std_min v acc) l init.

Definition fold_max (init : spec_float) (l : list spec_float) : spec_float :=
  fold_left (fun acc v => std_max v acc) l init.

Definition numbers (l : list spec_float) : Prop :=
  Forall (fun v => is_nan v = false) l.

(** The buffers read for the point range bounds, in the order of one
    iteration: x, y and z when the record has Cartesian coordinates, the
    range when it has a spherical range. *)
Definition pointRange_buffers (pointFields : e57.PointStandardizedFieldsAvailable) : list BufferId :=
  (if e57.cartesianXField pointFields then [CartesianX; CartesianY; CartesianZ] else [])
  ++ (if e57.sphericalRangeField pointFields then [SphericalRange] else []).

Definition angle_buffers : list BufferId := [SphericalAzimuth; SphericalElevation].

Definition active (c : bool) (ids : list BufferId) : list BufferId :=
  if c then ids else [].

(** The elements [i] of the buffers [ids]; [None] when one of them does
    not exist. *)
Fixpoint row (b : e57.Data3DPointsData_t) (i : Z) (ids : list BufferId) : option (list spec_float) :=
  match ids with
  | [] => Some []
  | id :: ids' =>
      match peek (buffer_of id b) i, row b i ids' with
      | Some v, Some vs => Some (v :: vs)
      | _, _ => None
      end
  end.

(** The elements [i], [i + 1], ... of the buffers [ids], [n] rows of them. *)
Fixpoint samples (b : e57.Data3DPointsData_t) (ids : list BufferId) (i : Z) (n : nat)
  : option (list spec_float) :=
  match n with
  | O => Some []
  | S n' =>
      match row b i ids, samples b ids (i + 1) n' with
      | Some r, Some rs => Some (r ++ rs)
      | _, _ => None
      end
  end.

(** The local bounds after the samples of the four families went through
    them. *)
Definition absorb (pr an it ts : list spec_float) (l : Locals) : Locals :=
  {| pointRangeMinimum := fold_min (pointRangeMinimum l) pr;
     pointRangeMaximum := fold_max (pointRangeMaximum l) pr;
     angleMinimum := fold_min (angleMinimum l) an;
     angleMaximum := fold_max (angleMaximum l) an;
     intensityMinimum := fold_min (intensityMinimum l) it;
     intensityMaximum := fold_max (intensityMaximum l) it;
     timeMinimum := fold_min (timeMinimum l) ts;
     timeMaximum := fold_max (timeMaximum l) ts |}.

(** The state [s] after the reads [tr]. *)
Definition logged (s : State) (tr : list (BufferId * Z)) : State :=
  {| ioData3DHeader := ioData3DHeader s; inBuffers := inBuffers s; reads := reads s ++ tr |}.

(** Every read of [tr] is a read of one of the buffers [ids], at an index
    from [lo] to [hi - 1]. *)
Definition reads_within (ids : list BufferId) (lo hi : Z) (tr : list (BufferId * Z)) : Prop :=
  Forall (fun r => In (fst r) ids /\ lo <= snd r < hi) tr.

Definition opt4 {A B C D} (a : option A) (b : option B) (c : option C) (d : option D)
  : option (A * B * C * D) :=
  match a, b, c, d with
  | Some x, Some y, Some z, Some w => Some (x, y, z, w)
  | _, _, _, _ => None
  end.

(** The rows of the four families at the element [i], and their samples
    over [n] elements from [i] on. *)
Definition rows (b : e57.Data3DPointsData_t) (pf : e57.PointStandardizedFieldsAvailable)
    (wPR wA wI wT : bool) (i : Z) :=
  opt4 (row b i (active wPR (pointRange_buffers pf)))
       (row b i (active wA angle_buffers))
       (row b i (active wI [Intensity]))
       (row b i (active wT [TimeStamp])).

Definition scanned (b : e57.Data3DPointsData_t) (pf : e57.PointStandardizedFieldsAvailable)
    (wPR wA wI wT : bool) (i : Z) (n : nat) :=
  opt4 (samples b (active wPR (pointRange_buffers pf)) i n)
       (samples b (active wA angle_buffers) i n)
       (samples b (active wI [Intensity]) i n)
       (samples b (active wT [TimeStamp]) i n).

(** The buffers the loop reads, the four conditions being given, and the
    buffers one call reads. *)
Definition scanned_ids (pf : e57.PointStandardizedFieldsAvailable) (wPR wA wI wT : bool)
  : list BufferId :=
  active wPR (pointRange_buffers pf) ++ active wA angle_buffers
  ++ active wI [Intensity] ++ active wT [TimeStamp].

Definition scanned_buffers (D : IntensityLimitsDecl) (T : COORDTYPE) (h : e57.Data3D) : list BufferId :=
  scanned_ids (e57.pointFields h)
    (writePointRange T (e57.pointFields h)) (writeAngle T (e57.pointFields h))
    (writeIntensity D h) (writeTimeStamp T (e57.pointFields h)).

Definition block_result (s : State) (tr : list (BufferId * Z))
    (r : option (list spec_float)) (f : list spec_float -> Locals) : option (Locals * State) :=
  match r with
  | Some vs => Some (f vs, logged s tr)
  | None => None
  end.

Definition loop_result (s : State) (tr : list (BufferId * Z))
    (r : option (list spec_float * list spec_float * list spec_float * list spec_float))
    (l : Locals) : option (Locals * State) :=
  match r with
  | Some (pr, an, it, ts) => Some (absorb pr an it ts l, logged s tr)
  | None => None
  end.

(** The header after the four assignments of lines 137-159, the local
    bounds being [l]. *)
Definition filled (D : IntensityLimitsDecl) (T : COORDTYPE) (h : e57.Data3D) (l : Locals) : e57.Data3D :=
  let pf := e57.pointFields h in
  let pick (c : bool) (v old : spec_float) := if c then v else old in
  {| e57.pointCount := e57.pointCount h;
     e57.pointFields :=
       set_bounds
         (pick (writePointRange T pf) (to_double T (pointRangeMinimum l)))
         (pick (writePointRange T pf) (to_double T (pointRangeMaximum l)))
         (pick (writeAngle T pf) (to_double T (angleMinimum l)))
         (pick (writeAngle T pf) (to_double T (angleMaximum l)))
         (pick (writeTimeStamp T pf) (timeMinimum l))
         (pick (writeTimeStamp T pf) (timeMaximum l))
         pf;
     e57.intensityLimits :=
       if writeIntensity D h
       then {| e57.intensityMinimum := intensityMinimum l;
               e57.intensityMaximum := intensityMaximum l |}
       else e57.intensityLimits h |}.

(** The header [_fillMinMaxData] leaves for the header [h] and the buffers
    [b]; [None] when the call is undefined. *)
Definition header_after (D : IntensityLimitsDecl) (T : COORDTYPE)
    (h : e57.Data3D) (b : e57.Data3DPointsData_t) : option e57.Data3D :=
  match _fillMinMaxData D T {| ioData3DHeader := h; inBuffers := b; reads := [] |} with
  | Some (_, s') => Some (ioData3DHeader s')
  | None => None
  end.

(** The type of the elements of a buffer. *)
Definition element_type (T : COORDTYPE) (id : BufferId) : COORDTYPE :=
  match id with
  | Intensity | TimeStamp => double
  | _ => T
  end.

(** An element converted to the type of the header bound it is compared
    with. *)
Definition as_bound (T : COORDTYPE) (id : BufferId) (v : spec_float) : spec_float :=
  to_double (element_type T id) v.

(** Every element the call reads exists and is a finite value of its
    type. *)
Definition finite_input (D : IntensityLimitsDecl) (T : COORDTYPE) (s : State) : Prop :=
  forall id i,
    In id (scanned_buffers D T (ioData3DHeader s)) ->
    0 <= i < e57.pointCount (ioData3DHeader s) ->
    exists v, peek (buffer_of id (inBuffers s)) i = Some v
              /\ is_value (element_type T id) v = true
              /\ is_finite v = true.

(** [x] is a sample of the buffers [ids]: an element with an index from
    [0] to [n - 1], converted to [double]. *)
Definition is_sample (T : COORDTYPE) (b : e57.Data3DPointsData_t) (ids : list BufferId) (n : Z)
    (x : spec_float) : Prop :=
  exists id i v, In id ids /\ 0 <= i < n /\ peek (buffer_of id b) i = Some v /\ x = as_bound T id v.

(** [lo] and [hi] are the least and the greatest sample of the buffers
    [ids]. *)
Definition exact_bounds (T : COORDTYPE) (b : e57.Data3DPointsData_t) (ids : list BufferId) (n : Z)
    (lo hi : spec_float) : Prop :=
  is_sample T b ids n lo /\ is_sample T b ids n hi /\
  forall x, is_sample T b ids n x -> SFleb lo x = true /\ SFleb x hi = true.

(** The fields of a header that are not bounds. *)
Definition same_outside_bounds (h h' : e57.Data3D) : Prop :=
  let p := e57.pointFields h in
  let p' := e57.pointFields h' in
  e57.pointCount h' = e57.pointCount h
  /\ e57.cartesianXField p' = e57.cartesianXField p
  /\ e57.cartesianYField p' = e57.cartesianYField p
  /\ e57.cartesianZField p' = e57.cartesianZField p
  /\ e57.sphericalRangeField p' = e57.sphericalRangeField p
  /\ e57.sphericalAzimuthField p' = e57.sphericalAzimuthField p
  /\ e57.sphericalElevationField p' = e57.sphericalElevationField p
  /\ e57.intensityField p' = e57.intensityField p
  /\ e57.timeStampField p' = e57.timeStampField p
  /\ e57.pointRangeNodeType p' = e57.pointRangeNodeType p
  /\ e57.angleNodeType p' = e57.angleNodeType p
  /\ e57.timeNodeType p' = e57.timeNodeType p.

(** ** The facade [e57::Writer]

    Every method forwards to the implementation object [impl_]; the
    implementation and the writer it hands out are outside this file.  A
    method is a program over the calls it makes on them, run against any
    handler of those calls. *)

(** [static_cast<size_t>( x )] for an [int64_t], [size_t] having 64 bits,
    and [static_cast<int64_t>( x )] for a [size_t]. *)
Definition static_cast_size_t (x : Z) : Z := x mod 2 ^ 64.

Definition static_cast_int64_t (x : Z) : Z := (x + 2 ^ 63) mod 2 ^ 64 - 2 ^ 63.

Definition int64_t (x : Z) : Prop := - 2 ^ 63 <= x < 2 ^ 63.

Definition size_t (x : Z) : Prop := 0 <= x < 2 ^ 64.

Section Facade.

(** The image header, the two enumerations of an image and the handle of
    the compressed vector writer are declared outside this file; a pointer
    is its address. *)
Variables Image2D Image2DType Image2DProjection CompressedVectorWriter : Type.

(** The calls of the facade, each with the type of what it returns.  A
    header passed by reference comes back as the callee left it. *)
Inductive Call : Type -> Type :=
| impl_NewImage2D (image2DHeader : Image2D) : Call (Z * Image2D)
| impl_WriteImage2DData (imageIndex : Z) (imageType : Image2DType)
    (imageProjection : Image2DProjection) (buffer : Z) (start : Z) (count : Z) : Call Z
| impl_NewData3D (data3DHeader : e57.Data3D) : Call (Z * e57.Data3D)
| impl_SetUpData3DPointsData (dataIndex : Z) (pointCount : Z) (T : COORDTYPE)
    (buffers : e57.Data3DPointsData_t) : Call CompressedVectorWriter
| dataWriter_write (dataWriter : CompressedVectorWriter) (recordCount : Z) : Call unit
| dataWriter_close (dataWriter : CompressedVectorWriter) : Call unit.

Inductive AnyCall : Type :=
| any {X} (c : Call X).

(** A method: it returns, or makes a call and goes on with what the call
    returned, or is undefined. *)
Inductive Prog (R : Type) : Type :=
| Ret (r : R)
| Do {X} (c : Call X) (k : X -> Prog R)
| Undefined.

Arguments Ret {R} r.
Arguments Do {R X} c k.
Arguments Undefined {R}.

(** How a method ends: with a result, with the exception a call threw, or
    undefined. *)
Inductive Outcome (R : Type) : Type :=
| Returned (r : R)
| Thrown
| UndefinedBehaviour.

Arguments Returned {R} r.
Arguments Thrown {R}.
Arguments UndefinedBehaviour {R}.

(** A handler answers a call in the state of the implementation: with a
    value, or with [None] when the call throws. *)
Definition Handler (S : Type) : Type := forall X, Call X -> S -> option X * S.

(** The outcome of a method, the state it leaves and the calls it made,
    in order. *)
Fixpoint run {R S} (handle : Handler S) (p : Prog R) (s : S) : Outcome R * S * list AnyCall :=
  match p with
  | Ret r => (Returned r, s, [])
  | Undefined => (UndefinedBehaviour, s, [])
  | Do c k =>
      match handle _ c s with
      | (Some x, s') =>
          let '(o, s'', tr) := run handle (k x) s' in (o, s'', any c :: tr)
      | (None, s') => (Thrown, s', [any c])
      end
  end.

(** [int64_t Writer::WriteImage2DData( Image2D &image2DHeader, Image2DType
    imageType, Image2DProjection imageProjection, int64_t startPos, void
    *pBuffer, int64_t byteCount )], lines 190-203.  The result is paired
    with the header as the call leaves it. *)
Definition WriteImage2DData_header (image2DHeader : Image2D) (imageType : Image2DType)
    (imageProjection : Image2DProjection) (startPos : Z) (pBuffer : Z) (byteCount : Z)
  : Prog (Z * Image2D) :=
  let buffer := pBuffer in
  let sizeInBytes := static_cast_size_t byteCount in
  Do (impl_NewImage2D image2DHeader) (fun r =>
  let '(imageIndex, image2DHeader) := r in
  Do (impl_WriteImage2DData imageIndex imageType imageProjection buffer startPos sizeInBytes)
     (fun written =>
  Ret (static_cast_int64_t written, image2DHeader))).

(** [int64_t Writer::NewImage2D( Image2D &image2DHeader )], lines 205-208. *)
Definition NewImage2D (image2DHeader : Image2D) : Prog (Z * Image2D) :=
  Do (impl_NewImage2D image2DHeader) (fun r => Ret r).

(** [int64_t Writer::WriteImage2DData( int64_t imageIndex, Image2DType
    imageType, Image2DProjection imageProjection, void *pBuffer, int64_t
    start, int64_t count )], lines 210-221. *)
Definition WriteImage2DData_index (imageIndex : Z) (imageType : Image2DType)
    (imageProjection : Image2DProjection) (pBuffer : Z) (start : Z) (count : Z) : Prog Z :=
  let buffer := pBuffer in
  let size := static_cast_size_t count in
  Do (impl_WriteImage2DData imageIndex imageType imageProjection buffer start size)
     (fun written =>
  Ret (static_cast_int64_t written)).

(** [int64_t Writer::WriteData3DData( Data3D &data3DHeader, const
    Data3DPointsFloat &buffers )], lines 223-236, and its overload for
    [Data3DPointsDouble], lines 238-251: the same text, [T] being the type
    of the buffers.  The point count of the header is signed (line 93
    compares it with an [int64_t]); [SetUpData3DPointsData] takes a
    [size_t] (line 258), and so does [write] of the writer, so that both
    are given the count converted.  The result is paired with the header
    as the call leaves it. *)
Definition WriteData3DData (D : IntensityLimitsDecl) (T : COORDTYPE)
    (data3DHeader : e57.Data3D) (buffers : e57.Data3DPointsData_t) : Prog (Z * e57.Data3D) :=
  match _fillMinMaxData D T {| ioData3DHeader := data3DHeader; inBuffers := buffers; reads := [] |} with
  | None => Undefined
  | Some (_, s) =>
      let data3DHeader := ioData3DHeader s in
      let buffers := inBuffers s in
      Do (impl_NewData3D data3DHeader) (fun r =>
      let '(scanIndex, data3DHeader) := r in
      Do (impl_SetUpData3DPointsData scanIndex
            (static_cast_size_t (e57.pointCount data3DHeader)) T buffers)
         (fun dataWriter =>
      Do (dataWriter_write dataWriter (static_cast_size_t (e57.pointCount data3DHeader)))
         (fun _ =>
      Do (dataWriter_close dataWriter) (fun _ =>
      Ret (scanIndex, data3DHeader)))))
  end.

(** [int64_t Writer::NewData3D( Data3D &data3DHeader )], lines 253-256. *)
Definition NewData3D (data3DHeader : e57.Data3D) : Prog (Z * e57.Data3D) :=
  Do (impl_NewData3D data3DHeader) (fun r => Ret r).

(** [CompressedVectorWriter Writer::SetUpData3DPointsData( int64_t
    dataIndex, size_t pointCount, const Data3DPoints... &buffers )], lines
    258-268. *)
Definition SetUpData3DPointsData (dataIndex : Z) (pointCount : Z) (T : COORDTYPE)
    (buffers : e57.Data3DPointsData_t) : Prog CompressedVectorWriter :=
  Do (impl_SetUpData3DPointsData dataIndex pointCount T buffers) (fun w => Ret w).

(** The calls of a list that write image data, with the byte count each
    was given. *)
Definition image_write_sizes (tr : list AnyCall) : list Z :=
  flat_map (fun a =>
    match a with
    | @any _ (impl_WriteImage2DData _ _ _ _ _ count) => [count]
    | _ => []
    end) tr.

End Facade.

Arguments impl_NewImage2D {Image2D Image2DType Image2DProjection CompressedVectorWriter}.
Arguments impl_WriteImage2DData {Image2D Image2DType Image2DProjection CompressedVectorWriter}.
Arguments impl_NewData3D {Image2D Image2DType Image2DProjection CompressedVectorWriter}.
Arguments impl_SetUpData3DPointsData {Image2D Image2DType Image2DProjection CompressedVectorWriter}.
Arguments dataWriter_write {Image2D Image2DType Image2DProjection CompressedVectorWriter}.
Arguments dataWriter_close {Image2D Image2DType Image2DProjection CompressedVectorWriter}.
Arguments any {Image2D Image2DType Image2DProjection CompressedVectorWriter X}.
Arguments Ret {Image2D Image2DType Image2DProjection CompressedVectorWriter R}.
Arguments Do {Image2D Image2DType Image2DProjection CompressedVectorWriter R X}.
Arguments Undefined {Image2D Image2DType Image2DProjection CompressedVectorWriter R}.
Arguments Returned {R}.
Arguments Thrown {R}.
Arguments UndefinedBehaviour {R}.
Arguments run {Image2D Image2DType Image2DProjection CompressedVectorWriter R S}.
Arguments WriteImage2DData_header {Image2D Image2DType Image2DProjection CompressedVectorWriter}.
Arguments WriteImage2DData_index {Image2D Image2DType Image2DProjection CompressedVectorWriter}.
Arguments WriteData3DData {Image2D Image2DType Image2DProjection CompressedVectorWriter}.
Arguments image_write_sizes {Image2D Image2DType Image2DProjection CompressedVectorWriter}.

(** ** The four families of bounds *)

Inductive Family : Set := PointRange | Angle | IntensityBounds | Time.

(** The condition under which a family is computed and written. *)
Definition write_condition (D : IntensityLimitsDecl) (T : COORDTYPE) (h : e57.Data3D) (f : Family) : bool :=
  match f with
  | PointRange => writePointRange T (e57.pointFields h)
  | Angle => writeAngle T (e57.pointFields h)
  | IntensityBounds => writeIntensity D h
  | Time => writeTimeStamp T (e57.pointFields h)
  end.

(** The buffers whose elements go into the bounds of a family. *)
Definition family_buffers (pf : e57.PointStandardizedFieldsAvailable) (f : Family) : list BufferId :=
  match f with
  | PointRange => pointRange_buffers pf
  | Angle => angle_buffers
  | IntensityBounds => [Intensity]
  | Time => [TimeStamp]
  end.

(** The type of the local bounds of a family. *)
Definition family_type (T : COORDTYPE) (f : Family) : COORDTYPE :=
  match f with
  | PointRange | Angle => T
  | IntensityBounds | Time => double
  end.

(** The bounds of a family in a header. *)
Definition family_minimum (h : e57.Data3D) (f : Family) : spec_float :=
  match f with
  | PointRange => e57.pointRangeMinimum (e57.pointFields h)
  | Angle => e57.angleMinimum (e57.pointFields h)
  | IntensityBounds => e57.intensityMinimum (e57.intensityLimits h)
  | Time => e57.timeMinimum (e57.pointFields h)
  end.

Definition family_maximum (h : e57.Data3D) (f : Family) : spec_float :=
  match f with
  | PointRange => e57.pointRangeMaximum (e57.pointFields h)
  | Angle => e57.angleMaximum (e57.pointFields h)
  | IntensityBounds => e57.intensityMaximum (e57.intensityLimits h)
  | Time => e57.timeMaximum (e57.pointFields h)
  end.

(** The bounds the samples [l] of a family give: the running minimum
    started from the greatest value of the type and the running maximum
    started from the lowest, converted to [double]. *)
Definition computed_minimum (T : COORDTYPE) (f : Family) (l : list spec_float) : spec_float :=
  to_double (family_type T f) (fold_min (numeric_limits_max (family_type T f)) l).

Definition computed_maximum (T : COORDTYPE) (f : Family) (l : list spec_float) : spec_float :=
  to_double (family_type T f) (fold_max (numeric_limits_lowest (family_type T f)) l).

(** The bounds of a family are still the ones of a header nobody set:
    the lowest and the greatest value of [T], or the default limits. *)
Definition at_sentinel (D : IntensityLimitsDecl) (T : COORDTYPE) (h : e57.Data3D) (f : Family) : bool :=
  match f with
  | IntensityBounds => IntensityLimits_eq D (e57.intensityLimits h) (IntensityLimits_default D)
  | _ => SFeqb (family_minimum h f) (to_double T (numeric_limits_lowest T))
         && SFeqb (family_maximum h f) (to_double T (numeric_limits_max T))
  end.

(** ** Sample data

    Concrete declarations, headers, buffers and a handler, for the
    examples below. *)

(** Limits that default to zero and are compared field by field. *)
Definition zero_limits : IntensityLimitsDecl :=
  {| IntensityLimits_default :=
       {| e57.intensityMinimum := S754_zero false; e57.intensityMaximum := S754_zero false |};
     IntensityLimits_eq := fun a b =>
       SFeqb (e57.intensityMinimum a) (e57.intensityMinimum b)
       && SFeqb (e57.intensityMaximum a) (e57.intensityMaximum b) |}.

(** The [float] and the [double] of an integer. *)
Definition float_of_Z (z : Z) : spec_float := binary_normalize (prec float) (emax float) z 0 false.

Definition double_of_Z (z : Z) : spec_float := binary_normalize (prec double) (emax double) z 0 false.

(** Point fields with the given flags and node types, every bound at the
    limits of [T]. *)
Definition fields_at_limits (T : COORDTYPE) (x r az it ts : bool)
    (pointRange angle time : e57.NumericalNodeType) : e57.PointStandardizedFieldsAvailable :=
  {| e57.cartesianXField := x; e57.cartesianYField := x; e57.cartesianZField := x;
     e57.sphericalRangeField := r;
     e57.sphericalAzimuthField := az; e57.sphericalElevationField := az;
     e57.intensityField := it; e57.timeStampField := ts;
     e57.pointRangeNodeType := pointRange;
     e57.pointRangeMinimum := to_double T (numeric_limits_lowest T);
     e57.pointRangeMaximum := to_double T (numeric_limits_max T);
     e57.angleNodeType := angle;
     e57.angleMinimum := to_double T (numeric_limits_lowest T);
     e57.angleMaximum := to_double T (numeric_limits_max T);
     e57.timeNodeType := time;
     e57.timeMinimum := to_double T (numeric_limits_lowest T);
     e57.timeMaximum := to_double T (numeric_limits_max T) |}.

Definition no_buffers : e57.Data3DPointsData_t :=
  {| e57.cartesianX := None; e57.cartesianY := None; e57.cartesianZ := None;
     e57.sphericalRange := None; e57.sphericalAzimuth := None; e57.sphericalElevation := None;
     e57.intensity := None; e57.timeStamp := None |}.

(** Two points with Cartesian coordinates, a range, an intensity and a
    time stamp, in [float] buffers; the point range and the time are
    scaled integers, the angles are not. *)
Definition two_points_header : e57.Data3D :=
  {| e57.pointCount := 2;
     e57.pointFields :=
       fields_at_limits float true true false true true e57.ScaledInteger e57.Float e57.ScaledInteger;
     e57.intensityLimits := IntensityLimits_default zero_limits |}.

Definition two_points_buffers : e57.Data3DPointsData_t :=
  {| e57.cartesianX := Some [float_of_Z 1; float_of_Z (-2)];
     e57.cartesianY := Some [float_of_Z 3; float_of_Z 4];
     e57.cartesianZ := Some [float_of_Z 5; float_of_Z 6];
     e57.sphericalRange := Some [float_of_Z 7; float_of_Z 8];
     e57.sphericalAzimuth := None; e57.sphericalElevation := None;
     e57.intensity := Some [double_of_Z 10; double_of_Z 20];
     e57.timeStamp := Some [double_of_Z 100; double_of_Z 200] |}.

Definition two_points : State :=
  {| ioData3DHeader := two_points_header; inBuffers := two_points_buffers; reads := [] |}.

(** The state [_fillMinMaxData] leaves for [two_points]. *)
Definition two_points_after : State :=
  {| ioData3DHeader :=
       filled zero_limits float two_points_header
         (absorb [float_of_Z 1; float_of_Z 3; float_of_Z 5; float_of_Z 7;
                  float_of_Z (-2); float_of_Z 4; float_of_Z 6; float_of_Z 8]
                 [] [double_of_Z 10; double_of_Z 20] [double_of_Z 100; double_of_Z 200]
                 (initial_locals float));
     inBuffers := two_points_buffers;
     reads := [(CartesianX, 0); (CartesianY, 0); (CartesianZ, 0);
               (CartesianX, 0); (CartesianY, 0); (CartesianZ, 0);
               (SphericalRange, 0); (SphericalRange, 0);
               (Intensity, 0); (Intensity, 0); (TimeStamp, 0); (TimeStamp, 0);
               (CartesianX, 1); (CartesianY, 1); (CartesianZ, 1);
               (CartesianX, 1); (CartesianY, 1); (CartesianZ, 1);
               (SphericalRange, 1); (SphericalRange, 1);
               (Intensity, 1); (Intensity, 1); (TimeStamp, 1); (TimeStamp, 1)] |}.

(** One point of a record with no coordinate field, the point range a
    scaled integer with its bounds at the limits. *)
Definition no_geometry : State :=
  {| ioData3DHeader :=
       {| e57.pointCount := 1;
          e57.pointFields :=
            fields_at_limits double false false false false false e57.ScaledInteger e57.Float e57.Float;
          e57.intensityLimits := IntensityLimits_default zero_limits |};
     inBuffers := no_buffers; reads := [] |}.

(** A record with Cartesian coordinates and no point, the point range a
    scaled integer with its bounds at the limits. *)
Definition no_points : State :=
  {| ioData3DHeader :=
       {| e57.pointCount := 0;
          e57.pointFields :=
            fields_at_limits double true false false false false e57.ScaledInteger e57.Float e57.Float;
          e57.intensityLimits := IntensityLimits_default zero_limits |};
     inBuffers := no_buffers; reads := [] |}.

(** One point of a Cartesian record whose z coordinate is not a number,
    the point range a scaled integer with its bounds at the limits. *)
Definition nan_point : State :=
  {| ioData3DHeader :=
       {| e57.pointCount := 1;
          e57.pointFields :=
            fields_at_limits double true false false false false e57.ScaledInteger e57.Float e57.Float;
          e57.intensityLimits := IntensityLimits_default zero_limits |};
     inBuffers :=
       {| e57.cartesianX := Some [double_of_Z 1];
          e57.cartesianY := Some [double_of_Z 2];
          e57.cartesianZ := Some [S754_nan];
          e57.sphericalRange := None;
          e57.sphericalAzimuth := None; e57.sphericalElevation := None;
          e57.intensity := None; e57.timeStamp := None |};
     reads := [] |}.

(** One point of a Cartesian record without azimuth and elevation fields,
    the angles scaled integers with their bounds at the limits; the
    buffers of the fields the record does not have are null, or hold
    values left there. *)
Definition cartesian_only_header : e57.Data3D :=
  {| e57.pointCount := 1;
     e57.pointFields :=
       fields_at_limits double true false false false false e57.Float e57.ScaledInteger e57.Float;
     e57.intensityLimits := IntensityLimits_default zero_limits |}.

Definition cartesian_only_buffers (angles : option (list spec_float)) : e57.Data3DPointsData_t :=
  {| e57.cartesianX := Some [double_of_Z 1];
     e57.cartesianY := Some [double_of_Z 2];
     e57.cartesianZ := Some [double_of_Z 3];
     e57.sphericalRange := None;
     e57.sphericalAzimuth := angles; e57.sphericalElevation := angles;
     e57.intensity := None; e57.timeStamp := None |}.

Definition cartesian_only (angles : option (list spec_float)) : State :=
  {| ioData3DHeader := cartesian_only_header;
     inBuffers := cartesian_only_buffers angles; reads := [] |}.

(** An implementation that numbers the records from its state on, hands
    out the record index as the writer, and reports every byte written. *)
Definition counting_impl : Handler unit unit unit Z Z :=
  fun X c st =>
    match c in Call _ _ _ _ X return option X * Z with
    | impl_NewImage2D h => (Some (st, h), st + 1)
    | impl_WriteImage2DData _ _ _ _ _ count => (Some count, st)
    | impl_NewData3D h => (Some (st, h), st + 1)
    | impl_SetUpData3DPointsData dataIndex _ _ _ => (Some dataIndex, st)
    | dataWriter_write _ _ => (Some tt, st)
    | dataWriter_close _ => (Some tt, st)
    end.

(** ** The steps of a write in sequence

    The facade also offers the steps of a write one by one.  [and_then]
    runs a method and goes on with its result; the two programs after it
    are the sequences a caller of the single steps writes. *)

Arguments NewImage2D {Image2D Image2DType Image2DProjection CompressedVectorWriter}.
Arguments NewData3D {Image2D Image2DType Image2DProjection CompressedVectorWriter}.
Arguments SetUpData3DPointsData {Image2D Image2DType Image2DProjection CompressedVectorWriter}.

Section Sequences.

Variables Image2D Image2DType Image2DProjection CompressedVectorWriter : Type.

(** The method [p], and then [k] on what it returned. *)
Fixpoint and_then {R R'}
    (p : Prog Image2D Image2DType Image2DProjection CompressedVectorWriter R)
    (k : R -> Prog Image2D Image2DType Image2DProjection CompressedVectorWriter R')
  : Prog Image2D Image2DType Image2DProjection CompressedVectorWriter R' :=
  match p with
  | Ret r => k r
  | Do c k' => Do c (fun x => and_then (k' x) k)
  | Undefined => Undefined
  end.

(** [NewImage2D] (lines 205-208), then the form of [WriteImage2DData]
    that takes an index (lines 210-221), for the index [NewImage2D]
    returned. *)
Definition NewImage2D_then_WriteImage2DData (image2DHeader : Image2D) (imageType : Image2DType)
    (imageProjection : Image2DProjection) (startPos : Z) (pBuffer : Z) (byteCount : Z)
  : Prog Image2D Image2DType Image2DProjection CompressedVectorWriter (Z * Image2D) :=
  and_then (NewImage2D image2DHeader) (fun r =>
  let '(imageIndex, image2DHeader) := r in
  and_then (WriteImage2DData_index imageIndex imageType imageProjection pBuffer startPos byteCount)
    (fun written =>
  Ret (written, image2DHeader))).

(** [NewData3D] (lines 253-256), then [SetUpData3DPointsData] (lines
    258-268) for the index it returned and the point count of the header
    as a [size_t], then one [write] of that count and one [close] on the
    writer. *)
Definition NewData3D_then_write (T : COORDTYPE) (data3DHeader : e57.Data3D)
    (buffers : e57.Data3DPointsData_t)
  : Prog Image2D Image2DType Image2DProjection CompressedVectorWriter (Z * e57.Data3D) :=
  and_then (NewData3D data3DHeader) (fun r =>
  let '(scanIndex, data3DHeader) := r in
  and_then (SetUpData3DPointsData scanIndex
              (static_cast_size_t (e57.pointCount data3DHeader)) T buffers)
    (fun dataWriter =>
  Do (dataWriter_write dataWriter (static_cast_size_t (e57.pointCount data3DHeader)))
     (fun _ =>
  Do (dataWriter_close dataWriter) (fun _ =>
  Ret (scanIndex, data3DHeader))))).

End Sequences.

Arguments and_then {Image2D Image2DType Image2DProjection CompressedVectorWriter R R'}.
Arguments NewImage2D_then_WriteImage2DData {Image2D Image2DType Image2DProjection CompressedVectorWriter}.
Arguments NewData3D_then_write {Image2D Image2DType Image2DProjection CompressedVectorWriter}.

(** ** More of what the theorems compare the code with *)

(** Every element the call reads exists and is a value of its type that
    is a number: infinities are allowed. *)
Definition number_input (D : IntensityLimitsDecl) (T : COORDTYPE) (s : State) : Prop :=
  forall id i,
    In id (scanned_buffers D T (ioData3DHeader s)) ->
    0 <= i < e57.pointCount (ioData3DHeader s) ->
    exists v, peek (buffer_of id (inBuffers s)) i = Some v
              /\ is_value (element_type T id) v = true
              /\ is_nan v = false.

(** The header [h] with another point count. *)
Definition with_pointCount (n : Z) (h : e57.Data3D) : e57.Data3D :=
  {| e57.pointCount := n;
     e57.pointFields := e57.pointFields h;
     e57.intensityLimits := e57.intensityLimits h |}.

(** The header [h] with other flags for the y, z, azimuth and elevation
    fields. *)
Definition with_flags (y z azimuth elevation : bool) (h : e57.Data3D) : e57.Data3D :=
  set_pointFields (fun p =>
    {| e57.cartesianXField := e57.cartesianXField p;
       e57.cartesianYField := y;
       e57.cartesianZField := z;
       e57.sphericalRangeField := e57.sphericalRangeField p;
       e57.sphericalAzimuthField := azimuth;
       e57.sphericalElevationField := elevation;
       e57.intensityField := e57.intensityField p;
       e57.timeStampField := e57.timeStampField p;
       e57.pointRangeNodeType := e57.pointRangeNodeType p;
       e57.pointRangeMinimum := e57.pointRangeMinimum p;
       e57.pointRangeMaximum := e57.pointRangeMaximum p;
       e57.angleNodeType := e57.angleNodeType p;
       e57.angleMinimum := e57.angleMinimum p;
       e57.angleMaximum := e57.angleMaximum p;
       e57.timeNodeType := e57.timeNodeType p;
       e57.timeMinimum := e57.timeMinimum p;
       e57.timeMaximum := e57.timeMaximum p |}) h.

(** The reads of one block of the loop body: the elements [i] of the
    buffers [ids], in this order, when the condition [c] of the block
    holds. *)
Definition block_reads (c : bool) (ids : list BufferId) (i : Z) : list (BufferId * Z) :=
  map (fun id => (id, i)) (active c ids).

(** The reads of the iteration [i], block after block in the order of
    lines 95-134, and the reads of [n] iterations from [i] on. *)
Definition iteration_reads (pf : e57.PointStandardizedFieldsAvailable) (wPR wA wI wT : bool) (i : Z)
  : list (BufferId * Z) :=
  block_reads (wPR && e57.cartesianXField pf)
    [CartesianX; CartesianY; CartesianZ; CartesianX; CartesianY; CartesianZ] i
  ++ block_reads (wPR && e57.sphericalRangeField pf) [SphericalRange; SphericalRange] i
  ++ block_reads wA
       [SphericalAzimuth; SphericalElevation; SphericalAzimuth; SphericalElevation] i
  ++ block_reads wI [Intensity; Intensity] i
  ++ block_reads wT [TimeStamp; TimeStamp] i.

Fixpoint loop_reads (pf : e57.PointStandardizedFieldsAvailable) (wPR wA wI wT : bool)
    (n : nat) (i : Z) : list (BufferId * Z) :=
  match n with
  | O => []
  | S n' => iteration_reads pf wPR wA wI wT i ++ loop_reads pf wPR wA wI wT n' (i + 1)
  end.

Definition BufferId_eqb (a b : BufferId) : bool :=
  match a, b with
  | CartesianX, CartesianX | CartesianY, CartesianY | CartesianZ, CartesianZ
  | SphericalRange, SphericalRange | SphericalAzimuth, SphericalAzimuth
  | SphericalElevation, SphericalElevation | Intensity, Intensity
  | TimeStamp, TimeStamp => true
  | _, _ => false
  end.

(** How many times a log reads the element [i] of the buffer [id]. *)
Definition times_read (id : BufferId) (i : Z) (tr : list (BufferId * Z)) : nat :=
  length (filter (fun r => BufferId_eqb (fst r) id && (snd r =? i)) tr).

(** ** More sample data *)

(** The state a call leaves; the state it was given when the call is
    undefined. *)
Definition state_after (D : IntensityLimitsDecl) (T : COORDTYPE) (s : State) : State :=
  match _fillMinMaxData D T s with
  | Some (_, s') => s'
  | None => s
  end.

(** A Cartesian record in [double] buffers, the point range a scaled
    integer with its bounds at the limits, with the given point count and
    coordinates. *)
Definition cartesian_points (n : Z) (x y z : list spec_float) : State :=
  {| ioData3DHeader :=
       {| e57.pointCount := n;
          e57.pointFields :=
            fields_at_limits double true false false false false e57.ScaledInteger e57.Float e57.Float;
          e57.intensityLimits := IntensityLimits_default zero_limits |};
     inBuffers :=
       {| e57.cartesianX := Some x; e57.cartesianY := Some y; e57.cartesianZ := Some z;
          e57.sphericalRange := None;
          e57.sphericalAzimuth := None; e57.sphericalElevation := None;
          e57.intensity := None; e57.timeStamp := None |};
     reads := [] |}.

(** Two points, the x coordinate of the second not a number. *)
Definition nan_between : State :=
  cartesian_points 2 [double_of_Z (-9); S754_nan] [double_of_Z 2; double_of_Z 5]
                     [double_of_Z 3; double_of_Z 6].

(** One point at infinity. *)
Definition point_at_infinity : State :=
  cartesian_points 1 [S754_infinity false] [S754_infinity false] [S754_infinity false].

(** Three points in buffers of three elements. *)
Definition three_points (n : Z) : State :=
  cartesian_points n [double_of_Z 1; double_of_Z 4; double_of_Z (-7)]
                     [double_of_Z 2; double_of_Z 5; double_of_Z 8]
                     [double_of_Z 3; double_of_Z 6; double_of_Z 9].

(** * Properties *)

(** ** The limits of the two types *)

Example float_max_value :
  numeric_limits_max float = S754_finite false 16777215 104.
Proof. reflexivity. Qed.

Example double_max_value :
  numeric_limits_max double = S754_finite false 9007199254740991 971.
Proof. reflexivity. Qed.

Example float_max_as_double :
  to_double float (numeric_limits_max float) = S754_finite false 9007198717870080 75.
Proof. reflexivity. Qed.

(** ** The order of floating-point values *)

Ltac cmp_cases :=
  repeat match goal with
         | _ => progress change (Pos.compare_cont Eq) with Pos.compare in *
         | H : context [Z.compare ?a ?b] |- _ => destruct (Z.compare_spec a b)
         | |- context [Z.compare ?a ?b] => destruct (Z.compare_spec a b)
         | H : context [Pos.compare ?a ?b] |- _ => destruct (Pos.compare_spec a b)
         | |- context [Pos.compare ?a ?b] => destruct (Pos.compare_spec a b)
         end.

Lemma SFleb_refl x : is_nan x = false -> SFleb x x = true.
Proof.
  destruct x as [s|s| |s m e]; try destruct s; simpl; try reflexivity; try discriminate;
    intros _; unfold SFleb; simpl; rewrite Z.compare_refl;
    change (Pos.compare_cont Eq m m) with (Pos.compare m m); rewrite Pos.compare_refl; reflexivity.
Qed.

Lemma SFltb_SFleb a b : SFltb a b = true -> SFleb a b = true.
Proof.
  unfold SFltb, SFleb. destruct (SFcompare a b) as [[]|]; congruence.
Qed.

Lemma SFltb_false_SFleb a b :
  is_nan a = false -> is_nan b = false -> SFltb a b = false -> SFleb b a = true.
Proof.
  unfold SFltb, SFleb.
  destruct a as [s|s| |s m e], b as [s'|s'| |s' m' e']; try destruct s; try destruct s';
    simpl; try reflexivity; try discriminate; intros _ _; cmp_cases; simpl; try reflexivity; try discriminate; try lia.
Qed.

Lemma SFleb_trans a b c : SFleb a b = true -> SFleb b c = true -> SFleb a c = true.
Proof.
  unfold SFleb.
  destruct a as [s|s| |s m e], b as [s'|s'| |s' m' e'], c as [s''|s''| |s'' m'' e''];
    try destruct s; try destruct s'; try destruct s'';
    simpl; try reflexivity; try discriminate; cmp_cases; simpl; try reflexivity; try discriminate; try lia.
Qed.

(** ** The limits bound every finite value *)

Lemma digits2_pos_size m : digits2_pos m = Pos.size m.
Proof. induction m; simpl; congruence. Qed.

Lemma digits2_pos_gt m : Zpos m < 2 ^ Zpos (digits2_pos m).
Proof.
  rewrite digits2_pos_size.
  pose proof (Pos.size_gt m) as H.
  apply Pos2Z.pos_lt_pos in H. rewrite Pos2Z.inj_pow in H. exact H.
Qed.

Lemma digits2_pos_le m : 2 ^ Zpos (digits2_pos m) <= 2 * Zpos m.
Proof.
  rewrite digits2_pos_size.
  pose proof (Pos.size_le m) as H.
  apply Pos2Z.pos_le_pos in H. rewrite Pos2Z.inj_pow in H. exact H.
Qed.

Lemma canonical_digits T m e :
  canonical_mantissa (prec T) (emax T) m e = true ->
  Zpos (digits2_pos m) <= prec T /\ 3 - emax T - prec T <= e /\
  (Zpos (digits2_pos m) = prec T \/ e = 3 - emax T - prec T).
Proof.
  unfold canonical_mantissa, fexp, emin. intros H. apply Z.eqb_eq in H. lia.
Qed.

Lemma limits_bound T s m e :
  is_value T (S754_finite s m e) = true ->
  e <= emax T - prec T /\ Zpos m < 2 ^ prec T.
Proof.
  unfold is_value, valid_binary, bounded. intros H.
  apply andb_prop in H. destruct H as [Hc He].
  apply Z.leb_le in He. apply canonical_digits in Hc. destruct Hc as [Hd _].
  pose proof (digits2_pos_gt m) as Hm.
  assert (Hp : 2 ^ Zpos (digits2_pos m) <= 2 ^ prec T)
    by (apply Z.pow_le_mono_r; lia).
  lia.
Qed.

Lemma SFleb_finite_pos m e m' e' :
  e <= e' -> (e = e' -> Zpos m <= Zpos m') ->
  SFleb (S754_finite false m e) (S754_finite false m' e') = true.
Proof.
  intros He Hm. unfold SFleb, SFcompare. cmp_cases; try reflexivity; lia.
Qed.

Lemma SFleb_finite_neg m e m' e' :
  e' <= e -> (e = e' -> Zpos m' <= Zpos m) ->
  SFleb (S754_finite true m e) (S754_finite true m' e') = true.
Proof.
  intros He Hm. unfold SFleb, SFcompare. cmp_cases; try reflexivity; lia.
Qed.

Lemma value_le_max T x :
  is_value T x = true -> is_finite x = true -> SFleb x (numeric_limits_max T) = true.
Proof.
  intros H Hf.
  destruct x as [s|s| |s m e]; try discriminate Hf;
    [ destruct T, s; reflexivity | ].
  apply limits_bound in H. destruct H as [He Hm].
  destruct s; [ destruct T; reflexivity | ].
  destruct T; [ rewrite float_max_value | rewrite double_max_value ];
    apply SFleb_finite_pos; intros; try exact He;
    [ assert (2 ^ prec float = 16777216) by reflexivity
    | assert (2 ^ prec double = 9007199254740992) by reflexivity ]; lia.
Qed.

Lemma lowest_le_value T x :
  is_value T x = true -> is_finite x = true -> SFleb (numeric_limits_lowest T) x = true.
Proof.
  intros H Hf.
  destruct x as [s|s| |s m e]; try discriminate Hf;
    [ destruct T, s; reflexivity | ].
  apply limits_bound in H. destruct H as [He Hm].
  destruct s; [ | destruct T; reflexivity ].
  unfold numeric_limits_lowest.
  destruct T; [ rewrite float_max_value | rewrite double_max_value ];
    apply SFleb_finite_neg; intros; try exact He;
    [ assert (2 ^ prec float = 16777216) by reflexivity
    | assert (2 ^ prec double = 9007199254740992) by reflexivity ]; lia.
Qed.

(** ** The conversion of [float] to [double] keeps the order *)

Lemma SFcompare_finite s1 m1 e1 s2 m2 e2 :
  SFcompare (S754_finite s1 m1 e1) (S754_finite s2 m2 e2) =
  Some (match s1, s2 with
        | true, false => Lt
        | false, true => Gt
        | false, false =>
            match e1 ?= e2 with
            | Lt => Lt | Gt => Gt | Eq => Zpos m1 ?= Zpos m2
            end
        | true, true =>
            match e1 ?= e2 with
            | Lt => Gt | Gt => Lt | Eq => CompOpp (Zpos m1 ?= Zpos m2)
            end
        end).
Proof. reflexivity. Qed.

Lemma iter_xO_digits m k :
  digits2_pos (Pos.iter xO m k) = (digits2_pos m + k)%positive.
Proof.
  induction k using Pos.peano_ind.
  - simpl. lia.
  - rewrite Pos.iter_succ. simpl. rewrite IHk. lia.
Qed.

Lemma iter_xO_value m k : Zpos (Pos.iter xO m k) = Zpos m * 2 ^ Zpos k.
Proof.
  induction k using Pos.peano_ind.
  - simpl. lia.
  - rewrite Pos.iter_succ, Pos2Z.inj_succ, Z.pow_succ_r by lia.
    rewrite Pos2Z.inj_xO, IHk. lia.
Qed.

Lemma binary_round_aux_canonical s m e :
  canonical_mantissa (prec double) (emax double) m e = true ->
  e <= emax double - prec double ->
  binary_round_aux (prec double) (emax double) s (Zpos m) e loc_Exact = S754_finite s m e.
Proof.
  intros Hc He. unfold canonical_mantissa in Hc. apply Z.eqb_eq in Hc.
  unfold binary_round_aux, shr_fexp, Zdigits2, shr_record_of_loc.
  rewrite Hc, Z.sub_diag. unfold shr, shr_m, loc_of_shr_record, round_nearest_even, Zdigits2.
  rewrite Hc, Z.sub_diag.
  apply Z.leb_le in He. rewrite He. reflexivity.
Qed.

(** The conversion of a finite [float]: the mantissa is shifted to 53
    digits. *)
Lemma float_to_double_finite s m e :
  is_value float (S754_finite s m e) = true ->
  exists k, Zpos k = 53 - Zpos (digits2_pos m) /\
            float_to_double (S754_finite s m e) = S754_finite s (Pos.iter xO m k) (e - Zpos k).
Proof.
  unfold is_value, valid_binary, bounded. intros H.
  apply andb_prop in H. destruct H as [Hc He]. apply Z.leb_le in He.
  apply canonical_digits in Hc. destruct Hc as [Hd [Hmin _]].
  change (prec float) with 24 in *. change (emax float) with 128 in *.
  set (d := Zpos (digits2_pos m)) in *.
  assert (Hk : exists k, Zpos k = 53 - d).
  { exists (Z.to_pos (53 - d)). rewrite Z2Pos.id; lia. }
  destruct Hk as [k Hk]. exists k. split; [ exact Hk | ].
  assert (Hr : binary_round (prec double) (emax double) s m e = S754_finite s (Pos.iter xO m k) (e - Zpos k)).
  { unfold binary_round.
    assert (Hf : fexp (prec double) (emax double) (Zpos (digits2_pos m) + e) = e - Zpos k).
    { unfold fexp, emin. change (prec double) with 53. change (emax double) with 1024. fold d. lia. }
    rewrite Hf. unfold shl_align.
    replace (e - Zpos k - e) with (Zneg k) by lia.
    apply binary_round_aux_canonical.
    - unfold canonical_mantissa. rewrite iter_xO_digits. apply Z.eqb_eq.
      unfold fexp, emin. change (prec double) with 53. change (emax double) with 1024.
      rewrite Pos2Z.inj_add. fold d. lia.
    - change (prec double) with 53. change (emax double) with 1024. lia. }
  unfold float_to_double, binary_normalize. destruct s; simpl cond_Zopp; exact Hr.
Qed.

(** Among canonical mantissas at the least exponent, fewer digits mean a
    smaller mantissa. *)
Lemma digits_lt_mantissa_lt m1 m2 :
  Zpos (digits2_pos m1) < Zpos (digits2_pos m2) -> Zpos m1 < Zpos m2.
Proof.
  intros H.
  pose proof (digits2_pos_gt m1) as H1. pose proof (digits2_pos_le m2) as H2.
  assert (Hp : 2 ^ (Zpos (digits2_pos m1) + 1) <= 2 ^ Zpos (digits2_pos m2))
    by (apply Z.pow_le_mono_r; lia).
  rewrite Z.pow_add_r in Hp by lia. change (2 ^ 1) with 2 in Hp. lia.
Qed.

Lemma scaled_compare (a b p : Z) : 0 < p -> (a * p ?= b * p) = (a ?= b).
Proof.
  intros Hp.
  destruct (Z.compare_spec a b) as [E|L|G].
  - subst. apply Z.compare_refl.
  - apply Z.compare_lt_iff. apply Z.mul_lt_mono_pos_r; assumption.
  - apply Z.compare_gt_iff. apply Z.mul_lt_mono_pos_r; assumption.
Qed.

(** The conversion keeps the order of [float] values. *)
Lemma float_to_double_compare x y :
  is_value float x = true -> is_value float y = true ->
  SFcompare (float_to_double x) (float_to_double y) = SFcompare x y.
Proof.
  intros Hx Hy.
  destruct x as [sx|sx| |sx mx ex], y as [sy|sy| |sy my ey];
    try (destruct (float_to_double_finite _ _ _ Hx) as [kx [Hkx Ex]]; rewrite Ex);
    try (destruct (float_to_double_finite _ _ _ Hy) as [ky [Hky Ey]]; rewrite Ey);
    try reflexivity.
  rewrite !SFcompare_finite, !iter_xO_value.
    unfold is_value, valid_binary, bounded in Hx, Hy.
    apply andb_prop in Hx. destruct Hx as [Hcx _].
    apply andb_prop in Hy. destruct Hy as [Hcy _].
    apply canonical_digits in Hcx. apply canonical_digits in Hcy.
    change (prec float) with 24 in *. change (emax float) with 128 in *.
    pose proof (digits_lt_mantissa_lt mx my) as Hxy.
    pose proof (digits_lt_mantissa_lt my mx) as Hyx.
    assert (Hpx : 0 < 2 ^ Zpos kx) by (apply Z.pow_pos_nonneg; lia).
    assert (Hsame : Zpos kx = Zpos ky ->
                    (Zpos mx * 2 ^ Zpos kx ?= Zpos my * 2 ^ Zpos ky) = (Zpos mx ?= Zpos my)).
    { intros E. rewrite <- E. apply scaled_compare. exact Hpx. }
    set (dx := Zpos (digits2_pos mx)) in *. set (dy := Zpos (digits2_pos my)) in *.
    f_equal.
    destruct (Z.compare_spec (ex - Zpos kx) (ey - Zpos ky)) as [C|C|C];
      destruct (Z.compare_spec ex ey) as [C'|C'|C'];
      try (rewrite Hsame by lia); try reflexivity;
      destruct (Z.compare_spec (Zpos mx) (Zpos my)) as [C''|C''|C''];
      destruct sx, sy; simpl; try reflexivity; exfalso; lia.
Qed.

Lemma to_double_compare T x y :
  is_value T x = true -> is_value T y = true ->
  SFcompare (to_double T x) (to_double T y) = SFcompare x y.
Proof.
  destruct T; simpl; intros Hx Hy; [ apply float_to_double_compare; assumption | reflexivity ].
Qed.

Lemma to_double_SFleb T x y :
  is_value T x = true -> is_value T y = true ->
  SFleb (to_double T x) (to_double T y) = SFleb x y.
Proof.
  intros Hx Hy. unfold SFleb. rewrite to_double_compare by assumption. reflexivity.
Qed.

(** ** Running bounds over a list of samples *)

Lemma SFleb_not_SFltb a b : SFleb a b = true -> SFltb b a = false.
Proof.
  unfold SFleb, SFltb.
  destruct a as [s|s| |s m e], b as [s'|s'| |s' m' e']; try destruct s; try destruct s';
    simpl; try reflexivity; try discriminate; cmp_cases; simpl; try reflexivity; try discriminate; lia.
Qed.

Lemma std_min_cases a b : std_min a b = a \/ std_min a b = b.
Proof. unfold std_min. destruct (SFltb b a); auto. Qed.

Lemma std_max_cases a b : std_max a b = a \/ std_max a b = b.
Proof. unfold std_max. destruct (SFltb a b); auto. Qed.

Lemma std_min_le a b :
  is_nan a = false -> is_nan b = false ->
  SFleb (std_min a b) a = true /\ SFleb (std_min a b) b = true.
Proof.
  intros Ha Hb. unfold std_min. destruct (SFltb b a) eqn:E.
  - split; [ apply SFltb_SFleb; exact E | apply SFleb_refl; exact Hb ].
  - split; [ apply SFleb_refl; exact Ha | apply SFltb_false_SFleb; assumption ].
Qed.

Lemma std_max_ge a b :
  is_nan a = false -> is_nan b = false ->
  SFleb a (std_max a b) = true /\ SFleb b (std_max a b) = true.
Proof.
  intros Ha Hb. unfold std_max. destruct (SFltb a b) eqn:E.
  - split; [ apply SFltb_SFleb; exact E | apply SFleb_refl; exact Hb ].
  - split; [ apply SFleb_refl; exact Ha | apply SFltb_false_SFleb; assumption ].
Qed.

Lemma fold_min_cases l : forall init,
  fold_min init l = init \/ In (fold_min init l) l.
Proof.
  induction l as [|v l IH]; intros init; simpl; [ left; reflexivity | ].
  destruct (IH (std_min v init)) as [E|I]; [ | right; right; exact I ].
  unfold fold_min in *. rewrite E.
  destruct (std_min_cases v init) as [E'|E']; rewrite E'; auto.
Qed.

Lemma fold_max_cases l : forall init,
  fold_max init l = init \/ In (fold_max init l) l.
Proof.
  induction l as [|v l IH]; intros init; simpl; [ left; reflexivity | ].
  destruct (IH (std_max v init)) as [E|I]; [ | right; right; exact I ].
  unfold fold_max in *. rewrite E.
  destruct (std_max_cases v init) as [E'|E']; rewrite E'; auto.
Qed.

(** The running minimum is below the value it started from and below
    every sample. *)
Lemma fold_min_le l : forall init,
  numbers l -> is_nan init = false ->
  SFleb (fold_min init l) init = true /\
  forall v, In v l -> SFleb (fold_min init l) v = true.
Proof.
  induction l as [|x l IH]; intros init Hl Hi.
  - split; [ apply SFleb_refl; exact Hi | intros v [] ].
  - inversion Hl as [|? ? Hx Hl']; subst.
    destruct (std_min_le x init Hx Hi) as [L1 L2].
    assert (Hn : is_nan (std_min x init) = false)
      by (destruct (std_min_cases x init) as [E|E]; rewrite E; assumption).
    destruct (IH (std_min x init) Hl' Hn) as [I1 I2].
    change (fold_min init (x :: l)) with (fold_min (std_min x init) l).
    split.
    + eapply SFleb_trans; eassumption.
    + intros v [E|I]; [ subst v; eapply SFleb_trans; eassumption | apply I2; exact I ].
Qed.

Lemma fold_max_ge l : forall init,
  numbers l -> is_nan init = false ->
  SFleb init (fold_max init l) = true /\
  forall v, In v l -> SFleb v (fold_max init l) = true.
Proof.
  induction l as [|x l IH]; intros init Hl Hi.
  - split; [ apply SFleb_refl; exact Hi | intros v [] ].
  - inversion Hl as [|? ? Hx Hl']; subst.
    destruct (std_max_ge x init Hx Hi) as [L1 L2].
    assert (Hn : is_nan (std_max x init) = false)
      by (destruct (std_max_cases x init) as [E|E]; rewrite E; assumption).
    destruct (IH (std_max x init) Hl' Hn) as [I1 I2].
    change (fold_max init (x :: l)) with (fold_max (std_max x init) l).
    split.
    + eapply SFleb_trans; eassumption.
    + intros v [E|I]; [ subst v; eapply SFleb_trans; eassumption | apply I2; exact I ].
Qed.

(** Started from a value no sample exceeds, the running minimum of a list
    that is not empty is one of the samples. *)
Lemma fold_min_In l init :
  l <> [] -> (forall v, In v l -> SFleb v init = true) -> In (fold_min init l) l.
Proof.
  destruct l as [|x l]; [ congruence | ]. intros _ Hb.
  change (fold_min init (x :: l)) with (fold_min (std_min x init) l).
  assert (E : std_min x init = x).
  { unfold std_min. rewrite SFleb_not_SFltb; [ reflexivity | apply Hb; left; reflexivity ]. }
  rewrite E. destruct (fold_min_cases l x) as [E'|I]; [ rewrite E'; left; reflexivity | right; exact I ].
Qed.

Lemma fold_max_In l init :
  l <> [] -> (forall v, In v l -> SFleb init v = true) -> In (fold_max init l) l.
Proof.
  destruct l as [|x l]; [ congruence | ]. intros _ Hb.
  change (fold_max init (x :: l)) with (fold_max (std_max x init) l).
  assert (E : std_max x init = x).
  { unfold std_max. rewrite SFleb_not_SFltb; [ reflexivity | apply Hb; left; reflexivity ]. }
  rewrite E. destruct (fold_max_cases l x) as [E'|I]; [ rewrite E'; left; reflexivity | right; exact I ].
Qed.

Lemma fold_min_app init l1 l2 : fold_min init (l1 ++ l2) = fold_min (fold_min init l1) l2.
Proof. apply fold_left_app. Qed.

Lemma fold_max_app init l1 l2 : fold_max init (l1 ++ l2) = fold_max (fold_max init l1) l2.
Proof. apply fold_left_app. Qed.

(** ** The loop, block by block *)

Lemma inBuffers_at_run id i s :
  inBuffers_at id i s =
  match peek (buffer_of id (inBuffers s)) i with
  | Some v => Some (v, {| ioData3DHeader := ioData3DHeader s;
                           inBuffers := inBuffers s;
                           reads := reads s ++ [(id, i)] |})
  | None => None
  end.
Proof. reflexivity. Qed.

Lemma logged_nil s : logged s [] = s.
Proof. unfold logged. rewrite app_nil_r. destruct s; reflexivity. Qed.

Lemma absorb_nil l : absorb [] [] [] [] l = l.
Proof. destruct l; reflexivity. Qed.

Lemma absorb_absorb a1 b1 c1 d1 a2 b2 c2 d2 l :
  absorb a2 b2 c2 d2 (absorb a1 b1 c1 d1 l) = absorb (a1 ++ a2) (b1 ++ b2) (c1 ++ c2) (d1 ++ d2) l.
Proof. unfold absorb. simpl. rewrite !fold_min_app, !fold_max_app. reflexivity. Qed.

Lemma reads_within_app ids lo hi t1 t2 :
  reads_within ids lo hi t1 -> reads_within ids lo hi t2 -> reads_within ids lo hi (t1 ++ t2).
Proof. unfold reads_within. intros H1 H2. apply Forall_app. split; assumption. Qed.

Lemma reads_within_weaken ids ids' lo hi lo' hi' tr :
  incl ids ids' -> lo' <= lo -> hi <= hi' ->
  reads_within ids lo hi tr -> reads_within ids' lo' hi' tr.
Proof.
  unfold reads_within. intros Hi Hlo Hhi H.
  eapply Forall_impl; [ | exact H ].
  intros [id i] [H1 H2]. simpl in *. split; [ apply Hi; exact H1 | lia ].
Qed.

Ltac run_reads :=
  unfold bind, ret;
  repeat match goal with
         | _ => rewrite inBuffers_at_run
         | _ => progress cbn [inBuffers buffer_of]
         | H : peek ?p ?i = _ |- context [peek ?p ?i] => rewrite H
         | |- context [peek ?p ?i] => destruct (peek p i) eqn:?
         end.

Ltac block_reads :=
  unfold reads_within; repeat constructor; cbn [fst snd active In]; auto 10; lia.

Ltac finish_block l :=
  run_reads; try reflexivity;
  unfold block_result, logged; cbn [reads ioData3DHeader inBuffers];
  rewrite <- ?app_assoc; destruct l; cbn [app]; reflexivity.

Lemma scan_cartesian_run c i l s :
  exists tr, reads_within (active c [CartesianX; CartesianY; CartesianZ]) i (i + 1) tr /\
             scan_cartesian c i l s =
             block_result s tr (row (inBuffers s) i (active c [CartesianX; CartesianY; CartesianZ]))
                          (fun vs => absorb vs [] [] [] l).
Proof.
  destruct c; cbn [scan_cartesian active row buffer_of].
  - exists [(CartesianX, i); (CartesianY, i); (CartesianZ, i);
            (CartesianX, i); (CartesianY, i); (CartesianZ, i)].
    split; [ block_reads | finish_block l ].
  - exists []. split; [ constructor | ].
    unfold block_result, ret. rewrite logged_nil, absorb_nil. reflexivity.
Qed.

Lemma scan_sphericalRange_run c i l s :
  exists tr, reads_within (active c [SphericalRange]) i (i + 1) tr /\
             scan_sphericalRange c i l s =
             block_result s tr (row (inBuffers s) i (active c [SphericalRange]))
                          (fun vs => absorb vs [] [] [] l).
Proof.
  destruct c; cbn [scan_sphericalRange active row buffer_of].
  - exists [(SphericalRange, i); (SphericalRange, i)].
    split; [ block_reads | finish_block l ].
  - exists []. split; [ constructor | ].
    unfold block_result, ret. rewrite logged_nil, absorb_nil. reflexivity.
Qed.

Lemma scan_angle_run c i l s :
  exists tr, reads_within (active c angle_buffers) i (i + 1) tr /\
             scan_angle c i l s =
             block_result s tr (row (inBuffers s) i (active c angle_buffers))
                          (fun vs => absorb [] vs [] [] l).
Proof.
  destruct c; cbn [scan_angle active row buffer_of angle_buffers].
  - exists [(SphericalAzimuth, i); (SphericalElevation, i);
            (SphericalAzimuth, i); (SphericalElevation, i)].
    split; [ block_reads | finish_block l ].
  - exists []. split; [ constructor | ].
    unfold block_result, ret. rewrite logged_nil, absorb_nil. reflexivity.
Qed.

Lemma scan_intensity_run c i l s :
  exists tr, reads_within (active c [Intensity]) i (i + 1) tr /\
             scan_intensity c i l s =
             block_result s tr (row (inBuffers s) i (active c [Intensity]))
                          (fun vs => absorb [] [] vs [] l).
Proof.
  destruct c; cbn [scan_intensity active row buffer_of].
  - exists [(Intensity, i); (Intensity, i)].
    split; [ block_reads | finish_block l ].
  - exists []. split; [ constructor | ].
    unfold block_result, ret. rewrite logged_nil, absorb_nil. reflexivity.
Qed.

Lemma scan_timeStamp_run c i l s :
  exists tr, reads_within (active c [TimeStamp]) i (i + 1) tr /\
             scan_timeStamp c i l s =
             block_result s tr (row (inBuffers s) i (active c [TimeStamp]))
                          (fun vs => absorb [] [] [] vs l).
Proof.
  destruct c; cbn [scan_timeStamp active row buffer_of].
  - exists [(TimeStamp, i); (TimeStamp, i)].
    split; [ block_reads | finish_block l ].
  - exists []. split; [ constructor | ].
    unfold block_result, ret. rewrite logged_nil, absorb_nil. reflexivity.
Qed.

Lemma row_app b i l1 l2 :
  row b i (l1 ++ l2) =
  match row b i l1, row b i l2 with
  | Some r1, Some r2 => Some (r1 ++ r2)
  | _, _ => None
  end.
Proof.
  induction l1 as [|id l1 IH]; simpl.
  - destruct (row b i l2); reflexivity.
  - rewrite IH. destruct (peek (buffer_of id b) i), (row b i l1), (row b i l2); reflexivity.
Qed.

Lemma row_pointRange b i w pf :
  row b i (active w (pointRange_buffers pf)) =
  match row b i (active (w && e57.cartesianXField pf) [CartesianX; CartesianY; CartesianZ]),
        row b i (active (w && e57.sphericalRangeField pf) [SphericalRange]) with
  | Some r1, Some r2 => Some (r1 ++ r2)
  | _, _ => None
  end.
Proof.
  unfold pointRange_buffers.
  destruct w; cbn [active andb]; [ | reflexivity ].
  rewrite row_app.
  destruct (e57.cartesianXField pf), (e57.sphericalRangeField pf); reflexivity.
Qed.

(** The buffers of each block are among the buffers of the loop. *)
Lemma incl_cartesian pf wPR wA wI wT :
  incl (active (wPR && e57.cartesianXField pf) [CartesianX; CartesianY; CartesianZ])
       (scanned_ids pf wPR wA wI wT).
Proof.
  unfold scanned_ids, pointRange_buffers.
  destruct wPR, (e57.cartesianXField pf); cbn [andb active]; intros x Hx;
    [ apply in_or_app; left; apply in_or_app; left; exact Hx | destruct Hx .. ].
Qed.

Lemma incl_sphericalRange pf wPR wA wI wT :
  incl (active (wPR && e57.sphericalRangeField pf) [SphericalRange])
       (scanned_ids pf wPR wA wI wT).
Proof.
  unfold scanned_ids, pointRange_buffers.
  destruct wPR, (e57.sphericalRangeField pf); cbn [andb active]; intros x Hx;
    [ apply in_or_app; left; apply in_or_app; right; exact Hx | destruct Hx .. ].
Qed.

Lemma incl_angle pf wPR wA wI wT :
  incl (active wA angle_buffers) (scanned_ids pf wPR wA wI wT).
Proof.
  unfold scanned_ids. intros x Hx. apply in_or_app; right. apply in_or_app; left. exact Hx.
Qed.

Lemma incl_intensity pf wPR wA wI wT :
  incl (active wI [Intensity]) (scanned_ids pf wPR wA wI wT).
Proof.
  unfold scanned_ids. intros x Hx.
  apply in_or_app; right. apply in_or_app; right. apply in_or_app; left. exact Hx.
Qed.

Lemma incl_timeStamp pf wPR wA wI wT :
  incl (active wT [TimeStamp]) (scanned_ids pf wPR wA wI wT).
Proof.
  unfold scanned_ids. intros x Hx.
  apply in_or_app; right. apply in_or_app; right. apply in_or_app; right. exact Hx.
Qed.

Lemma loop_body_run pf wPR wA wI wT i l s :
  exists tr, reads_within (scanned_ids pf wPR wA wI wT) i (i + 1) tr /\
             loop_body pf wPR wA wI wT i l s =
             loop_result s tr (rows (inBuffers s) pf wPR wA wI wT i) l.
Proof.
  unfold loop_body, rows. rewrite row_pointRange. unfold bind.
  destruct (scan_cartesian_run (wPR && e57.cartesianXField pf) i l s) as [t1 [W1 E1]].
  apply (reads_within_weaken _ _ _ _ i (i + 1) _ (incl_cartesian pf wPR wA wI wT)) in W1; try lia.
  rewrite E1. clear E1.
  destruct (row (inBuffers s) i (active (wPR && e57.cartesianXField pf) _)) as [r1|];
    [ | exists []; split; [ constructor | reflexivity ] ].
  cbn [block_result].
  destruct (scan_sphericalRange_run (wPR && e57.sphericalRangeField pf) i
              (absorb r1 [] [] [] l) (logged s t1)) as [t2 [W2 E2]].
  apply (reads_within_weaken _ _ _ _ i (i + 1) _ (incl_sphericalRange pf wPR wA wI wT)) in W2; try lia.
  rewrite E2. clear E2. cbn [logged inBuffers].
  destruct (row (inBuffers s) i (active (wPR && e57.sphericalRangeField pf) _)) as [r2|];
    [ | exists []; split; [ constructor | reflexivity ] ].
  cbn [block_result].
  match goal with |- context [scan_angle wA i ?l' ?s'] =>
    destruct (scan_angle_run wA i l' s') as [t3 [W3 E3]]; rewrite E3; clear E3 end.
  apply (reads_within_weaken _ _ _ _ i (i + 1) _ (incl_angle pf wPR wA wI wT)) in W3; try lia.
  cbn [logged inBuffers].
  destruct (row (inBuffers s) i (active wA _)) as [r3|];
    [ | exists []; split; [ constructor | reflexivity ] ].
  cbn [block_result].
  match goal with |- context [scan_intensity wI i ?l' ?s'] =>
    destruct (scan_intensity_run wI i l' s') as [t4 [W4 E4]]; rewrite E4; clear E4 end.
  apply (reads_within_weaken _ _ _ _ i (i + 1) _ (incl_intensity pf wPR wA wI wT)) in W4; try lia.
  cbn [logged inBuffers].
  destruct (row (inBuffers s) i (active wI _)) as [r4|];
    [ | exists []; split; [ constructor | reflexivity ] ].
  cbn [block_result].
  match goal with |- context [scan_timeStamp wT i ?l' ?s'] =>
    destruct (scan_timeStamp_run wT i l' s') as [t5 [W5 E5]]; rewrite E5; clear E5 end.
  apply (reads_within_weaken _ _ _ _ i (i + 1) _ (incl_timeStamp pf wPR wA wI wT)) in W5; try lia.
  cbn [logged inBuffers].
  destruct (row (inBuffers s) i (active wT _)) as [r5|];
    [ | exists []; split; [ constructor | reflexivity ] ].
  exists ((((t1 ++ t2) ++ t3) ++ t4) ++ t5).
  split; [ repeat apply reads_within_app; assumption | ].
  cbn [block_result opt4 loop_result].
  rewrite !absorb_absorb. cbn [app]. rewrite !app_nil_r.
  unfold logged. cbn [reads ioData3DHeader inBuffers]. rewrite <- !app_assoc. reflexivity.
Qed.

(** The loop: it is defined when every element it reads exists, and then
    leaves the local bounds the samples give. *)
Lemma for_loop_run pf wPR wA wI wT n : forall i l s,
  exists tr, reads_within (scanned_ids pf wPR wA wI wT) i (i + Z.of_nat n) tr /\
             for_loop n i (loop_body pf wPR wA wI wT) l s =
             loop_result s tr (scanned (inBuffers s) pf wPR wA wI wT i n) l.
Proof.
  induction n as [|n IH]; intros i l s.
  - exists []. split; [ constructor | ].
    unfold scanned. cbn. rewrite absorb_nil, logged_nil. reflexivity.
  - cbn [for_loop]. unfold bind.
    destruct (loop_body_run pf wPR wA wI wT i l s) as [t1 [W1 E1]]. rewrite E1. clear E1.
    apply (reads_within_weaken _ _ _ _ i (i + Z.of_nat (S n)) _ (incl_refl _)) in W1; try lia.
    unfold rows, scanned. cbn [samples].
    destruct (row (inBuffers s) i (active wPR _)) as [r1|];
      [ | exists []; split; [ constructor | reflexivity ] ].
    destruct (row (inBuffers s) i (active wA _)) as [r2|];
      [ | exists []; split; [ constructor | cbn; destruct (samples _ _ _ _); reflexivity ] ].
    destruct (row (inBuffers s) i (active wI _)) as [r3|];
      [ | exists []; split;
          [ constructor | cbn; repeat (destruct (samples _ _ _ _)); reflexivity ] ].
    destruct (row (inBuffers s) i (active wT _)) as [r4|];
      [ | exists []; split;
          [ constructor | cbn; repeat (destruct (samples _ _ _ _)); reflexivity ] ].
    cbn [opt4 loop_result].
    destruct (IH (i + 1) (absorb r1 r2 r3 r4 l) (logged s t1)) as [t2 [W2 E2]].
    apply (reads_within_weaken _ _ _ _ i (i + Z.of_nat (S n)) _ (incl_refl _)) in W2; try lia.
    rewrite E2. clear E2. unfold scanned. cbn [logged inBuffers].
    exists (t1 ++ t2). split; [ apply reads_within_app; assumption | ].
    destruct (samples _ (active wPR _) _ _), (samples _ (active wA _) _ _),
             (samples _ (active wI _) _ _), (samples _ (active wT _) _ _);
      try reflexivity.
    cbn [opt4 loop_result]. rewrite absorb_absorb.
    unfold logged. cbn [reads ioData3DHeader inBuffers]. rewrite <- !app_assoc. reflexivity.
Qed.

Lemma reads_within_empty ids lo hi tr :
  hi <= lo -> reads_within ids lo hi tr -> tr = [].
Proof.
  intros Hle H. destruct tr as [|r tr]; [ reflexivity | ].
  inversion H as [|? ? [_ Hr] _]. lia.
Qed.

(** ** The whole of [_fillMinMaxData] *)

(** The call is defined when every element the loop reads exists; it then
    leaves the header [filled] from the samples, the buffers as they
    were, and a log of reads of the scanned buffers only. *)
Lemma fillMinMaxData_run D T s :
  let h := ioData3DHeader s in
  let pf := e57.pointFields h in
  exists tr,
    reads_within (scanned_buffers D T h) 0 (e57.pointCount h) tr /\
    _fillMinMaxData D T s =
    match scanned (inBuffers s) pf (writePointRange T pf) (writeAngle T pf)
                  (writeIntensity D h) (writeTimeStamp T pf) 0 (Z.to_nat (e57.pointCount h)) with
    | Some (pr, an, it, ts) =>
        Some (tt, {| ioData3DHeader := filled D T h (absorb pr an it ts (initial_locals T));
                     inBuffers := inBuffers s;
                     reads := reads s ++ tr |})
    | None => None
    end.
Proof.
  intros h pf.
  destruct (for_loop_run pf (writePointRange T pf) (writeAngle T pf)
              (writeIntensity D h) (writeTimeStamp T pf)
              (Z.to_nat (e57.pointCount h)) 0 (initial_locals T) s) as [tr [W E]].
  assert (W' : reads_within (scanned_buffers D T h) 0 (e57.pointCount h) tr).
  { destruct (Z.le_gt_cases 0 (e57.pointCount h)) as [Hp|Hp].
    - rewrite Z.add_0_l, Z2Nat.id in W by exact Hp. exact W.
    - replace (Z.to_nat (e57.pointCount h)) with O in W by lia.
      rewrite (reads_within_empty _ _ _ _ (Z.le_refl 0) W). constructor. }
  exists tr. split; [ exact W' | ].
  unfold _fillMinMaxData, bind, get_header. fold h. fold pf.
  rewrite E. clear E.
  destruct (scanned _ _ _ _ _ _ _ _) as [[[[pr an] it] ts]|]; [ | reflexivity ].
  cbn [loop_result]. unfold filled. fold pf.
  generalize (absorb pr an it ts (initial_locals T)). intros l.
  unfold logged. cbn [ioData3DHeader inBuffers reads]. fold h. fold pf.
  generalize (writePointRange T pf) (writeAngle T pf) (writeIntensity D h) (writeTimeStamp T pf).
  intros wPR wA wI wT.
  unfold when, bind, ret, assign_pointRangeMinimum, assign_pointRangeMaximum,
    assign_angleMinimum, assign_angleMaximum, assign_intensityMinimum,
    assign_intensityMaximum, assign_timeMinimum, assign_timeMaximum, modify_header.
  subst pf. destruct h as [pc pf il]. destruct pf, il.
  destruct wPR, wA, wI, wT; reflexivity.
Qed.

(** The header a call leaves, as a function of the header and the buffers
    it was given. *)
Lemma header_after_scanned D T h b :
  let pf := e57.pointFields h in
  header_after D T h b =
  match scanned b pf (writePointRange T pf) (writeAngle T pf)
                (writeIntensity D h) (writeTimeStamp T pf) 0 (Z.to_nat (e57.pointCount h)) with
  | Some (pr, an, it, ts) => Some (filled D T h (absorb pr an it ts (initial_locals T)))
  | None => None
  end.
Proof.
  intros pf. unfold header_after.
  destruct (fillMinMaxData_run D T {| ioData3DHeader := h; inBuffers := b; reads := [] |})
    as [tr [_ E]].
  rewrite E. cbn [ioData3DHeader inBuffers]. fold pf.
  destruct (scanned _ _ _ _ _ _ _ _) as [[[[pr an] it] ts]|]; reflexivity.
Qed.

(** ** Samples and buffer elements *)

Lemma row_In b i ids : forall r,
  row b i ids = Some r ->
  forall v, In v r <-> exists id, In id ids /\ peek (buffer_of id b) i = Some v.
Proof.
  induction ids as [|id ids IH]; intros r Hr v; simpl in Hr.
  - inversion Hr; subst. split; [ intros [] | intros [id [[] _]] ].
  - destruct (peek (buffer_of id b) i) as [x|] eqn:Ex; [ | discriminate ].
    destruct (row b i ids) as [xs|]; [ | discriminate ].
    inversion Hr; subst. specialize (IH xs eq_refl v). simpl. split.
    + intros [E|I].
      * subst. exists id. split; [ left; reflexivity | exact Ex ].
      * apply IH in I. destruct I as [id' [I1 I2]]. exists id'. split; [ right; exact I1 | exact I2 ].
    + intros [id' [[E|I1] I2]].
      * subst. left. congruence.
      * right. apply IH. exists id'. split; assumption.
Qed.

Lemma samples_In b ids n : forall i l,
  samples b ids i n = Some l ->
  forall v, In v l <->
            exists id j, In id ids /\ i <= j < i + Z.of_nat n /\ peek (buffer_of id b) j = Some v.
Proof.
  induction n as [|n IH]; intros i l Hl v.
  - simpl in Hl. inversion Hl; subst. split; [ intros [] | intros [id [j [_ [Hj _]]]]; lia ].
  - cbn [samples] in Hl.
    destruct (row b i ids) as [r|] eqn:Er; [ | discriminate ].
    destruct (samples b ids (i + 1) n) as [rs|] eqn:Es; [ | discriminate ].
    inversion Hl; subst. rewrite in_app_iff, (row_In _ _ _ _ Er), (IH _ _ Es). split.
    + intros [[id [I P]]|[id [j [I [Hj P]]]]].
      * exists id, i. repeat split; try assumption; lia.
      * exists id, j. repeat split; try assumption; lia.
    + intros [id [j [I [Hj P]]]].
      destruct (Z.eq_dec j i) as [E|NE].
      * subst j. left. exists id. split; assumption.
      * right. exists id, j. repeat split; try assumption; lia.
Qed.

Lemma row_defined b i ids :
  (forall id, In id ids -> exists v, peek (buffer_of id b) i = Some v) ->
  exists r, row b i ids = Some r.
Proof.
  induction ids as [|id ids IH]; intros H; simpl.
  - exists []. reflexivity.
  - destruct (H id (or_introl eq_refl)) as [v Ev]. rewrite Ev.
    destruct IH as [r Er]; [ intros id' I; apply H; right; exact I | ].
    rewrite Er. eexists. reflexivity.
Qed.

Lemma samples_defined b ids n : forall i,
  (forall id j, In id ids -> i <= j < i + Z.of_nat n ->
                exists v, peek (buffer_of id b) j = Some v) ->
  exists l, samples b ids i n = Some l.
Proof.
  induction n as [|n IH]; intros i H.
  - exists []. reflexivity.
  - cbn [samples].
    destruct (row_defined b i ids) as [r Er]; [ intros id I; apply (H id i I); lia | ].
    destruct (IH (i + 1)) as [rs Ers]; [ intros id j I Hj; apply (H id j I); lia | ].
    rewrite Er, Ers. eexists. reflexivity.
Qed.

Lemma samples_nil b n : forall i, samples b [] i n = Some [].
Proof.
  induction n as [|n IH]; intros i; [ reflexivity | ].
  cbn [samples row]. rewrite IH. reflexivity.
Qed.

Lemma samples_not_empty b ids n i l :
  ids <> [] -> n <> O -> samples b ids i n = Some l -> l <> [].
Proof.
  intros Hids Hn Hl.
  destruct ids as [|id ids]; [ congruence | ]. destruct n as [|n]; [ congruence | ].
  cbn [samples row] in Hl.
  destruct (peek (buffer_of id b) i); [ | discriminate ].
  destruct (row b i ids); [ | discriminate ].
  destruct (samples b (id :: ids) (i + 1) n); [ | discriminate ].
  inversion Hl. discriminate.
Qed.

(** ** The bounds of one family *)

Lemma limits_are_numbers T :
  is_nan (numeric_limits_max T) = false /\ is_nan (numeric_limits_lowest T) = false.
Proof. destruct T; split; reflexivity. Qed.

Lemma finite_is_number v : is_finite v = true -> is_nan v = false.
Proof. destruct v; simpl; congruence. Qed.

(** Over samples that are finite values of the type [T], and at least one
    of them, the running bounds started from the limits of [T] are the
    least and the greatest sample. *)
Lemma running_bounds_exact T l :
  l <> [] ->
  (forall v, In v l -> is_value T v = true /\ is_finite v = true) ->
  let lo := fold_min (numeric_limits_max T) l in
  let hi := fold_max (numeric_limits_lowest T) l in
  In lo l /\ In hi l /\ forall v, In v l -> SFleb lo v = true /\ SFleb v hi = true.
Proof.
  intros Hne Hfin lo hi.
  assert (Hnum : numbers l).
  { unfold numbers. apply Forall_forall. intros v I. apply finite_is_number. apply Hfin. exact I. }
  destruct (limits_are_numbers T) as [Nmax Nlow].
  destruct (fold_min_le l _ Hnum Nmax) as [_ Hmin].
  destruct (fold_max_ge l _ Hnum Nlow) as [_ Hmax].
  repeat split.
  - apply fold_min_In; [ exact Hne | ].
    intros v I. destruct (Hfin v I). apply value_le_max; assumption.
  - apply fold_max_In; [ exact Hne | ].
    intros v I. destruct (Hfin v I). apply lowest_le_value; assumption.
  - apply Hmin. assumption.
  - apply Hmax. assumption.
Qed.

Lemma family_element_type T pf f id :
  In id (family_buffers pf f) -> element_type T id = family_type T f.
Proof.
  destruct f; unfold family_buffers, pointRange_buffers, angle_buffers;
    destruct (e57.cartesianXField pf), (e57.sphericalRangeField pf); simpl;
    intuition (subst; reflexivity).
Qed.

(** The bounds computed from the samples of a family are the least and the
    greatest sample, when the samples are finite and the family has a
    buffer and the loop an iteration. *)
Lemma computed_bounds_exact T pf f b n l :
  samples b (family_buffers pf f) 0 (Z.to_nat n) = Some l ->
  family_buffers pf f <> [] -> 1 <= n ->
  (forall id i v, In id (family_buffers pf f) -> 0 <= i < n ->
                  peek (buffer_of id b) i = Some v ->
                  is_value (element_type T id) v = true /\ is_finite v = true) ->
  exact_bounds T b (family_buffers pf f) n (computed_minimum T f l) (computed_maximum T f l).
Proof.
  intros Hl Hids Hn Hfin.
  pose proof (samples_In _ _ _ _ _ Hl) as HIn.
  rewrite Z.add_0_l, Z2Nat.id in HIn by lia.
  assert (Hval : forall v, In v l -> is_value (family_type T f) v = true /\ is_finite v = true).
  { intros v I. apply HIn in I. destruct I as [id [j [I [Hj P]]]].
    rewrite <- (family_element_type T pf f id I). eapply Hfin; eassumption. }
  assert (Hne : l <> []).
  { eapply samples_not_empty; [ exact Hids | | exact Hl ]. lia. }
  destruct (running_bounds_exact (family_type T f) l Hne Hval) as [Ilo [Ihi Hb]].
  assert (Hs : forall v, In v l -> is_sample T b (family_buffers pf f) n (to_double (family_type T f) v)).
  { intros v I. apply HIn in I. destruct I as [id [j [I [Hj P]]]].
    exists id, j, v. repeat split; try assumption; try lia.
    unfold as_bound. rewrite (family_element_type T pf f id I). reflexivity. }
  unfold exact_bounds, computed_minimum, computed_maximum. repeat split.
  - apply Hs. exact Ilo.
  - apply Hs. exact Ihi.
  - destruct H as [id [j [v [I [Hj [P E]]]]]]. subst x.
    unfold as_bound. rewrite (family_element_type T pf f id I).
    assert (Iv : In v l) by (apply HIn; exists id, j; auto).
    rewrite to_double_SFleb; [ apply Hb; exact Iv | apply Hval; exact Ilo | apply Hval; exact Iv ].
  - destruct H as [id [j [v [I [Hj [P E]]]]]]. subst x.
    unfold as_bound. rewrite (family_element_type T pf f id I).
    assert (Iv : In v l) by (apply HIn; exists id, j; auto).
    rewrite to_double_SFleb; [ apply Hb; exact Iv | apply Hval; exact Iv | apply Hval; exact Ihi ].
Qed.

(** ** One call, family by family *)

Lemma filled_outside D T h l : same_outside_bounds h (filled D T h l).
Proof. unfold same_outside_bounds. repeat split. Qed.

(** What a defined call leaves: the buffers as they were, a log of reads
    of the scanned buffers, the fields that are not bounds as they were,
    and for each family either the bounds computed from its samples or
    the bounds it had. *)
Lemma run_characterised D T s s' u :
  _fillMinMaxData D T s = Some (u, s') ->
  let h := ioData3DHeader s in
  let h' := ioData3DHeader s' in
  inBuffers s' = inBuffers s /\
  (exists tr, reads s' = reads s ++ tr /\
              reads_within (scanned_buffers D T h) 0 (e57.pointCount h) tr) /\
  same_outside_bounds h h' /\
  forall f,
    if write_condition D T h f
    then exists l,
           samples (inBuffers s) (family_buffers (e57.pointFields h) f) 0
                   (Z.to_nat (e57.pointCount h)) = Some l
           /\ family_minimum h' f = computed_minimum T f l
           /\ family_maximum h' f = computed_maximum T f l
    else family_minimum h' f = family_minimum h f
         /\ family_maximum h' f = family_maximum h f.
Proof.
  intros Hrun h h'. subst h'.
  destruct (fillMinMaxData_run D T s) as [tr [W E]]. fold h in W, E.
  rewrite E in Hrun. clear E. unfold scanned, opt4 in Hrun.
  destruct (samples _ (active (writePointRange T _) _) _ _) as [pr|] eqn:Epr; [ | discriminate ].
  destruct (samples _ (active (writeAngle T _) _) _ _) as [an|] eqn:Ean; [ | discriminate ].
  destruct (samples _ (active (writeIntensity D _) _) _ _) as [it|] eqn:Eit; [ | discriminate ].
  destruct (samples _ (active (writeTimeStamp T _) _) _ _) as [ts|] eqn:Ets; [ | discriminate ].
  inversion Hrun; subst s'; clear Hrun. cbn [ioData3DHeader inBuffers reads].
  split; [ reflexivity | ].
  split; [ exists tr; split; [ reflexivity | exact W ] | ].
  split; [ apply filled_outside | ].
  intros f. destruct f; unfold write_condition, family_buffers.
  - destruct (writePointRange T (e57.pointFields h)) eqn:F.
    + exists pr. split; [ exact Epr | ].
      unfold filled, family_minimum, family_maximum. cbn. rewrite F. split; reflexivity.
    + unfold filled, family_minimum, family_maximum. cbn. rewrite F. split; reflexivity.
  - destruct (writeAngle T (e57.pointFields h)) eqn:F.
    + exists an. split; [ exact Ean | ].
      unfold filled, family_minimum, family_maximum. cbn. rewrite F. split; reflexivity.
    + unfold filled, family_minimum, family_maximum. cbn. rewrite F. split; reflexivity.
  - destruct (writeIntensity D h) eqn:F.
    + exists it. split; [ exact Eit | ].
      unfold filled, family_minimum, family_maximum. cbn. rewrite F. split; reflexivity.
    + unfold filled, family_minimum, family_maximum. cbn. rewrite F. split; reflexivity.
  - destruct (writeTimeStamp T (e57.pointFields h)) eqn:F.
    + exists ts. split; [ exact Ets | ].
      unfold filled, family_minimum, family_maximum. cbn. rewrite F. split; reflexivity.
    + unfold filled, family_minimum, family_maximum. cbn. rewrite F. split; reflexivity.
Qed.

(** A call is defined when the samples of every family it computes
    exist. *)
Lemma run_defined D T s :
  (forall f, write_condition D T (ioData3DHeader s) f = true ->
             exists l, samples (inBuffers s) (family_buffers (e57.pointFields (ioData3DHeader s)) f) 0
                               (Z.to_nat (e57.pointCount (ioData3DHeader s))) = Some l) ->
  exists s', _fillMinMaxData D T s = Some (tt, s').
Proof.
  intros H.
  destruct (fillMinMaxData_run D T s) as [tr [_ E]]. rewrite E. clear E.
  unfold scanned.
  assert (Hf : forall f,
             exists l, samples (inBuffers s)
                               (active (write_condition D T (ioData3DHeader s) f)
                                       (family_buffers (e57.pointFields (ioData3DHeader s)) f)) 0
                               (Z.to_nat (e57.pointCount (ioData3DHeader s))) = Some l).
  { intros f. destruct (write_condition D T (ioData3DHeader s) f) eqn:F.
    - apply H. exact F.
    - exists []. apply samples_nil. }
  destruct (Hf PointRange) as [pr Epr]. destruct (Hf Angle) as [an Ean].
  destruct (Hf IntensityBounds) as [it Eit]. destruct (Hf Time) as [ts Ets].
  cbn [write_condition family_buffers] in Epr, Ean, Eit, Ets.
  rewrite Epr, Ean, Eit, Ets. cbn [opt4]. eexists. reflexivity.
Qed.

Lemma family_in_scanned D T h f id :
  write_condition D T h f = true -> In id (family_buffers (e57.pointFields h) f) ->
  In id (scanned_buffers D T h).
Proof.
  unfold scanned_buffers, scanned_ids. intros F I.
  destruct f; cbn [write_condition family_buffers] in F, I; rewrite F; cbn [active];
    repeat rewrite in_app_iff; auto.
Qed.

Lemma finite_input_samples D T s f :
  finite_input D T s ->
  write_condition D T (ioData3DHeader s) f = true ->
  exists l, samples (inBuffers s) (family_buffers (e57.pointFields (ioData3DHeader s)) f) 0
                    (Z.to_nat (e57.pointCount (ioData3DHeader s))) = Some l.
Proof.
  intros Hfin F. apply samples_defined. intros id j I Hj.
  destruct (Hfin id j) as [v [P _]].
  - eapply family_in_scanned; eassumption.
  - lia.
  - exists v. exact P.
Qed.

(** On finite input with at least one point, the call is defined and the
    bounds of every family it computes from at least one buffer are the
    least and the greatest sample of the family. *)
Lemma finite_input_run D T s :
  finite_input D T s ->
  1 <= e57.pointCount (ioData3DHeader s) ->
  exists s',
    _fillMinMaxData D T s = Some (tt, s') /\
    forall f,
      write_condition D T (ioData3DHeader s) f = true ->
      family_buffers (e57.pointFields (ioData3DHeader s)) f <> [] ->
      exact_bounds T (inBuffers s) (family_buffers (e57.pointFields (ioData3DHeader s)) f)
                   (e57.pointCount (ioData3DHeader s))
                   (family_minimum (ioData3DHeader s') f) (family_maximum (ioData3DHeader s') f).
Proof.
  intros Hfin Hn.
  destruct (run_defined D T s) as [s' Hrun].
  { intros f F. apply (finite_input_samples D T); assumption. }
  exists s'. split; [ exact Hrun | ].
  intros f F Hids.
  destruct (run_characterised D T s s' tt Hrun) as [_ [_ [_ Hfam]]].
  specialize (Hfam f). rewrite F in Hfam. destruct Hfam as [l [El [Emin Emax]]].
  rewrite Emin, Emax.
  apply computed_bounds_exact; try assumption.
  intros id i v I Hi P.
  destruct (Hfin id i) as [v' [P' [V Fi]]].
  - eapply family_in_scanned; eassumption.
  - exact Hi.
  - rewrite P in P'. inversion P'; subst v'. split; assumption.
Qed.

(** ** Headers that differ in bounds only *)

Lemma header_ext h h' :
  same_outside_bounds h h' ->
  (forall f, family_minimum h' f = family_minimum h f /\ family_maximum h' f = family_maximum h f) ->
  h' = h.
Proof.
  intros Hout Hfam.
  destruct (Hfam PointRange) as [P1 P2]. destruct (Hfam Angle) as [A1 A2].
  destruct (Hfam IntensityBounds) as [I1 I2]. destruct (Hfam Time) as [T1 T2].
  destruct h as [pc pf il], h' as [pc' pf' il']. destruct pf, pf', il, il'.
  unfold same_outside_bounds in Hout. cbn in *.
  destruct Hout as [? [? [? [? [? [? [? [? [? [? [? ?]]]]]]]]]]].
  subst. reflexivity.
Qed.

(** A condition that is false stays false when the bounds of its family
    stay as they are. *)
Lemma write_condition_stable D T h h' f :
  same_outside_bounds h h' ->
  family_minimum h' f = family_minimum h f ->
  family_maximum h' f = family_maximum h f ->
  write_condition D T h' f = write_condition D T h f.
Proof.
  intros Hout Hmin Hmax.
  destruct h as [pc pf il], h' as [pc' pf' il']. destruct pf, pf', il, il'.
  unfold same_outside_bounds in Hout. cbn in *.
  destruct Hout as [? [? [? [? [? [? [? [? [? [? [? ?]]]]]]]]]]].
  destruct f; cbn in *; subst; reflexivity.
Qed.

Lemma filled_unwritten D T h l :
  (forall f, write_condition D T h f = false) -> filled D T h l = h.
Proof.
  intros H.
  pose proof (H PointRange) as F1. pose proof (H Angle) as F2.
  pose proof (H IntensityBounds) as F3. pose proof (H Time) as F4.
  cbn [write_condition] in F1, F2, F3, F4.
  unfold filled. rewrite F1, F2, F3, F4.
  destruct h as [pc pf il]. destruct pf. reflexivity.
Qed.

Lemma header_after_run D T s s' u :
  _fillMinMaxData D T s = Some (u, s') ->
  header_after D T (ioData3DHeader s) (inBuffers s) = Some (ioData3DHeader s').
Proof.
  intros H. rewrite header_after_scanned.
  destruct (fillMinMaxData_run D T s) as [tr [_ E]]. rewrite E in H. clear E.
  destruct (scanned _ _ _ _ _ _ _ _) as [[[[pr an] it] ts]|]; [ | discriminate ].
  inversion H. reflexivity.
Qed.

Lemma header_after_state D T h b h1 :
  header_after D T h b = Some h1 ->
  exists s1, _fillMinMaxData D T {| ioData3DHeader := h; inBuffers := b; reads := [] |} = Some (tt, s1)
             /\ ioData3DHeader s1 = h1 /\ inBuffers s1 = b.
Proof.
  unfold header_after. intros H.
  destruct (_fillMinMaxData D T _) as [[[] s1]|] eqn:E; [ | discriminate ].
  inversion H; subst. exists s1. split; [ reflexivity | split; [ reflexivity | ] ].
  destruct (run_characterised D T _ _ _ E) as [Hb _]. exact Hb.
Qed.

Lemma NumericalNodeType_eqb_eq a b : e57.NumericalNodeType_eqb a b = true <-> a = b.
Proof. destruct a, b; simpl; split; congruence. Qed.

(** ** When a call is defined *)

Lemma row_Some_peek b i ids : forall r,
  row b i ids = Some r ->
  forall id, In id ids -> exists v, peek (buffer_of id b) i = Some v.
Proof.
  induction ids as [|id0 ids IH]; intros r Hr id I; [ destruct I | ].
  simpl in Hr.
  destruct (peek (buffer_of id0 b) i) as [x|] eqn:Ex; [ | discriminate ].
  destruct (row b i ids) as [xs|]; [ | discriminate ].
  destruct I as [E|I]; [ subst; exists x; exact Ex | apply (IH xs eq_refl id I) ].
Qed.

Lemma samples_Some_peek b ids n : forall i l,
  samples b ids i n = Some l ->
  forall id j, In id ids -> i <= j < i + Z.of_nat n ->
               exists v, peek (buffer_of id b) j = Some v.
Proof.
  induction n as [|n IH]; intros i l Hl id j I Hj; [ lia | ].
  cbn [samples] in Hl.
  destruct (row b i ids) as [r|] eqn:Er; [ | discriminate ].
  destruct (samples b ids (i + 1) n) as [rs|] eqn:Es; [ | discriminate ].
  destruct (Z.eq_dec j i) as [E|NE].
  - subst j. apply (row_Some_peek _ _ _ _ Er id I).
  - apply (IH _ _ Es id j I). lia.
Qed.

(** An element exists when the pointer is not null and the index is
    inside the array. *)
Lemma peek_Some_iff p i :
  (exists v, peek p i = Some v) <->
  (exists l, p = Some l /\ 0 <= i < Z.of_nat (length l)).
Proof.
  unfold peek. split.
  - intros [v H]. destruct p as [l|]; [ | discriminate ].
    exists l. split; [ reflexivity | ].
    destruct (Z.ltb_spec i 0) as [Hi|Hi]; [ discriminate | ].
    assert (Hn : nth_error l (Z.to_nat i) <> None) by congruence.
    apply nth_error_Some in Hn. lia.
  - intros [l [E [H0 H1]]]. subst p.
    destruct (Z.ltb_spec i 0) as [Hi|Hi]; [ lia | ].
    destruct (nth_error l (Z.to_nat i)) as [v|] eqn:En; [ exists v; reflexivity | ].
    apply nth_error_None in En. lia.
Qed.

Lemma scanned_buffers_family D T h id :
  In id (scanned_buffers D T h) ->
  exists f, write_condition D T h f = true /\ In id (family_buffers (e57.pointFields h) f).
Proof.
  unfold scanned_buffers, scanned_ids. rewrite !in_app_iff.
  intros [I|[I|[I|I]]];
    [ exists PointRange | exists Angle | exists IntensityBounds | exists Time ];
    cbn [write_condition family_buffers];
    match goal with H : In _ (active ?c _) |- _ => destruct c; [ split; [ reflexivity | exact H ] | destruct H ] end.
Qed.

(** A call is defined exactly when every element it scans exists. *)
Lemma run_defined_iff D T s :
  (exists s', _fillMinMaxData D T s = Some (tt, s')) <->
  (forall id i,
     In id (scanned_buffers D T (ioData3DHeader s)) ->
     0 <= i < e57.pointCount (ioData3DHeader s) ->
     exists v, peek (buffer_of id (inBuffers s)) i = Some v).
Proof.
  split.
  - intros [s' Hrun] id i I Hi.
    destruct (scanned_buffers_family D T _ id I) as [f [F If]].
    destruct (run_characterised D T s s' tt Hrun) as [_ [_ [_ Hfam]]].
    specialize (Hfam f). rewrite F in Hfam. destruct Hfam as [l [El _]].
    apply (samples_Some_peek _ _ _ _ _ El id i If). lia.
  - intros H. apply run_defined. intros f F.
    apply samples_defined. intros id j I Hj.
    apply H; [ eapply family_in_scanned; eassumption | lia ].
Qed.

(** ** Input whose elements are numbers *)

Lemma limits_are_values T :
  is_value T (numeric_limits_max T) = true /\ is_value T (numeric_limits_lowest T) = true.
Proof. destruct T; split; reflexivity. Qed.

Lemma number_input_samples D T s f l :
  number_input D T s ->
  write_condition D T (ioData3DHeader s) f = true ->
  samples (inBuffers s) (family_buffers (e57.pointFields (ioData3DHeader s)) f) 0
          (Z.to_nat (e57.pointCount (ioData3DHeader s))) = Some l ->
  forall v, In v l -> is_value (family_type T f) v = true /\ is_nan v = false.
Proof.
  intros Hnum F El v I.
  apply (samples_In _ _ _ _ _ El) in I. destruct I as [id [j [I [Hj P]]]].
  destruct (Hnum id j) as [v' [P' [V N]]].
  - eapply family_in_scanned; eassumption.
  - lia.
  - rewrite P in P'. inversion P'; subst v'.
    rewrite <- (family_element_type T _ f id I). split; assumption.
Qed.

(** On input whose scanned elements exist and are numbers, the call is
    defined and the bounds of every family it computes enclose the
    samples of the family and stay within the limits they started from. *)
Lemma number_input_run D T s :
  number_input D T s ->
  exists s',
    _fillMinMaxData D T s = Some (tt, s') /\
    forall f,
      write_condition D T (ioData3DHeader s) f = true ->
      SFleb (family_minimum (ioData3DHeader s') f)
            (to_double (family_type T f) (numeric_limits_max (family_type T f))) = true
      /\ SFleb (to_double (family_type T f) (numeric_limits_lowest (family_type T f)))
               (family_maximum (ioData3DHeader s') f) = true
      /\ forall x,
           is_sample T (inBuffers s) (family_buffers (e57.pointFields (ioData3DHeader s)) f)
                     (e57.pointCount (ioData3DHeader s)) x ->
           SFleb (family_minimum (ioData3DHeader s') f) x = true
           /\ SFleb x (family_maximum (ioData3DHeader s') f) = true.
Proof.
  intros Hnum.
  destruct (proj2 (run_defined_iff D T s)) as [s' Hrun].
  { intros id i I Hi. destruct (Hnum id i I Hi) as [v [P _]]. exists v. exact P. }
  exists s'. split; [ exact Hrun | ].
  intros f F.
  destruct (run_characterised D T s s' tt Hrun) as [_ [_ [_ Hfam]]].
  specialize (Hfam f). rewrite F in Hfam. destruct Hfam as [l [El [Emin Emax]]].
  pose proof (number_input_samples D T s f l Hnum F El) as Hl.
  assert (Hnumbers : numbers l).
  { unfold numbers. apply Forall_forall. intros v I. apply (Hl v I). }
  destruct (limits_are_numbers (family_type T f)) as [Nmax Nlow].
  destruct (limits_are_values (family_type T f)) as [Vmax Vlow].
  destruct (fold_min_le l _ Hnumbers Nmax) as [Hmin0 Hmin].
  destruct (fold_max_ge l _ Hnumbers Nlow) as [Hmax0 Hmax].
  assert (Vmin : is_value (family_type T f) (fold_min (numeric_limits_max (family_type T f)) l) = true).
  { destruct (fold_min_cases l (numeric_limits_max (family_type T f))) as [E|I];
      [ rewrite E; exact Vmax | apply (Hl _ I) ]. }
  assert (Vhi : is_value (family_type T f) (fold_max (numeric_limits_lowest (family_type T f)) l) = true).
  { destruct (fold_max_cases l (numeric_limits_lowest (family_type T f))) as [E|I];
      [ rewrite E; exact Vlow | apply (Hl _ I) ]. }
  rewrite Emin, Emax. unfold computed_minimum, computed_maximum.
  split; [ rewrite to_double_SFleb by assumption; exact Hmin0 | ].
  split; [ rewrite to_double_SFleb by assumption; exact Hmax0 | ].
  intros x [id [i [v [I [Hi [P E]]]]]]. subst x.
  unfold as_bound. rewrite (family_element_type T _ f id I).
  assert (Iv : In v l).
  { apply (samples_In _ _ _ _ _ El). exists id, i. repeat split; try assumption; lia. }
  destruct (Hl v Iv) as [Vv _].
  rewrite !to_double_SFleb by assumption.
  split; [ apply Hmin; exact Iv | apply Hmax; exact Iv ].
Qed.

(** * The properties of the specification *)

(** Every element the call reads on a piece of sample data exists and is
    finite: by evaluation, buffer by buffer and index by index. *)
Ltac finite_sample :=
  let id := fresh "id" in let i := fresh "i" in
  let Hid := fresh "Hid" in let Hi := fresh "Hi" in
  intros id i Hid Hi; vm_compute in Hid; cbn in Hi;
  repeat (destruct Hid as [<-|Hid]); try contradiction;
  first [ assert (i = 0) as -> by lia
        | (assert (i = 0 \/ i = 1) as [-> | ->] by lia) ];
  (eexists; split; [ reflexivity | split; reflexivity ]).

(** Every element the call reads on a piece of sample data exists and is
    a number: by evaluation, buffer by buffer and index by index. *)
Ltac number_sample :=
  let id := fresh "id" in let i := fresh "i" in
  let Hid := fresh "Hid" in let Hi := fresh "Hi" in
  intros id i Hid Hi; vm_compute in Hid; cbn in Hi;
  repeat (destruct Hid as [<-|Hid]); try contradiction;
  first [ assert (i = 0) as -> by lia
        | (assert (i = 0 \/ i = 1) as [-> | ->] by lia)
        | (assert (i = 0 \/ i = 1 \/ i = 2) as [-> | [-> | ->]] by lia) ];
  (eexists; split; [ reflexivity | split; reflexivity ]).

Lemma no_geometry_finite : finite_input zero_limits double no_geometry.
Proof. intros id i Hid Hi. vm_compute in Hid. contradiction. Qed.

(** C1 (as amended).  On input whose scanned elements all exist and are
    finite, with a point count of at least one, [_fillMinMaxData] is
    defined, and for each family whose write condition held and that has
    at least one contributing buffer, the written minimum is below and
    the written maximum above every contributing sample, and both are
    contributing samples: the least and the greatest one. *)
Theorem written_bounds_are_sample_extrema D T s :
  finite_input D T s ->
  1 <= e57.pointCount (ioData3DHeader s) ->
  exists s',
    _fillMinMaxData D T s = Some (tt, s') /\
    forall f,
      write_condition D T (ioData3DHeader s) f = true ->
      family_buffers (e57.pointFields (ioData3DHeader s)) f <> [] ->
      exact_bounds T (inBuffers s) (family_buffers (e57.pointFields (ioData3DHeader s)) f)
                   (e57.pointCount (ioData3DHeader s))
                   (family_minimum (ioData3DHeader s') f) (family_maximum (ioData3DHeader s') f).
Proof. intros Hfin Hn. apply finite_input_run; assumption. Qed.

Lemma written_bounds_are_sample_extrema_witness :
  exists s',
    _fillMinMaxData zero_limits float two_points = Some (tt, s') /\
    forall f,
      write_condition zero_limits float (ioData3DHeader two_points) f = true ->
      family_buffers (e57.pointFields (ioData3DHeader two_points)) f <> [] ->
      exact_bounds float (inBuffers two_points)
                   (family_buffers (e57.pointFields (ioData3DHeader two_points)) f)
                   (e57.pointCount (ioData3DHeader two_points))
                   (family_minimum (ioData3DHeader s') f) (family_maximum (ioData3DHeader s') f).
Proof.
  apply (written_bounds_are_sample_extrema zero_limits float two_points).
  - finite_sample.
  - simpl. lia.
Defined.

(** C1 as stated fails for a family that is written with no contributing
    buffer: with the point range a scaled integer at the limits and
    neither Cartesian nor range field, every scanned element (there is
    none) is finite and the point count is one, the point range is
    written, and what is written, the greatest and the lowest [double],
    are not samples. *)
Lemma written_bounds_without_samples :
  finite_input zero_limits double no_geometry /\
  1 <= e57.pointCount (ioData3DHeader no_geometry) /\
  write_condition zero_limits double (ioData3DHeader no_geometry) PointRange = true /\
  exists s',
    _fillMinMaxData zero_limits double no_geometry = Some (tt, s') /\
    family_minimum (ioData3DHeader s') PointRange = numeric_limits_max double /\
    family_maximum (ioData3DHeader s') PointRange = numeric_limits_lowest double /\
    ~ exact_bounds double (inBuffers no_geometry)
        (family_buffers (e57.pointFields (ioData3DHeader no_geometry)) PointRange)
        (e57.pointCount (ioData3DHeader no_geometry))
        (family_minimum (ioData3DHeader s') PointRange)
        (family_maximum (ioData3DHeader s') PointRange).
Proof.
  split; [ exact no_geometry_finite | ].
  split; [ simpl; lia | ].
  split; [ reflexivity | ].
  eexists. split; [ vm_compute; reflexivity | ].
  split; [ reflexivity | ]. split; [ reflexivity | ].
  intros [[id [i [v [Hin _]]]] _]. exact Hin.
Qed.

(** C2.  A defined call of [_fillMinMaxData] leaves the point buffers as
    they were, leaves every header field that is not a bound as it was,
    and leaves the bounds of every family whose write condition is false
    as they were; when no write condition holds, the call is defined
    whatever the buffers are and changes nothing at all; and the write
    condition of a family is false as soon as its bounds are not the ones
    of a header nobody set. *)
Theorem fill_leaves_the_rest D T s :
  (forall f, at_sentinel D T (ioData3DHeader s) f = false ->
             write_condition D T (ioData3DHeader s) f = false) /\
  (forall s',
     _fillMinMaxData D T s = Some (tt, s') ->
     inBuffers s' = inBuffers s /\
     same_outside_bounds (ioData3DHeader s) (ioData3DHeader s') /\
     forall f,
       write_condition D T (ioData3DHeader s) f = false ->
       family_minimum (ioData3DHeader s') f = family_minimum (ioData3DHeader s) f /\
       family_maximum (ioData3DHeader s') f = family_maximum (ioData3DHeader s) f) /\
  ((forall f, write_condition D T (ioData3DHeader s) f = false) ->
   _fillMinMaxData D T s = Some (tt, s)).
Proof.
  split; [ | split ].
  - intros f. destruct f; cbn [at_sentinel write_condition family_minimum family_maximum];
      unfold writePointRange, writeAngle, writeIntensity, writeTimeStamp;
      intros E; rewrite <- ?andb_assoc, E, ?andb_false_r; reflexivity.
  - intros s' Hrun.
    destruct (run_characterised D T s s' tt Hrun) as [Hb [_ [Hout Hfam]]].
    split; [ exact Hb | ]. split; [ exact Hout | ].
    intros f F. specialize (Hfam f). rewrite F in Hfam. exact Hfam.
  - intros Hno.
    destruct (fillMinMaxData_run D T s) as [tr [W E]]. rewrite E. clear E.
    pose proof (Hno PointRange) as F1. pose proof (Hno Angle) as F2.
    pose proof (Hno IntensityBounds) as F3. pose proof (Hno Time) as F4.
    cbn [write_condition] in F1, F2, F3, F4.
    assert (Etr : tr = []).
    { unfold scanned_buffers, scanned_ids in W. rewrite F1, F2, F3, F4 in W.
      destruct tr as [|r tr]; [ reflexivity | ].
      inversion W as [|? ? [[] _] _]. }
    unfold scanned. rewrite F1, F2, F3, F4. cbn [active]. rewrite !samples_nil. cbn [opt4].
    rewrite filled_unwritten by exact Hno. subst tr. rewrite app_nil_r.
    destruct s; reflexivity.
Qed.

Lemma fill_leaves_the_rest_witness :
  (forall f, at_sentinel zero_limits float (ioData3DHeader two_points) f = false ->
             write_condition zero_limits float (ioData3DHeader two_points) f = false) /\
  (forall s',
     _fillMinMaxData zero_limits float two_points = Some (tt, s') ->
     inBuffers s' = inBuffers two_points /\
     same_outside_bounds (ioData3DHeader two_points) (ioData3DHeader s') /\
     forall f,
       write_condition zero_limits float (ioData3DHeader two_points) f = false ->
       family_minimum (ioData3DHeader s') f = family_minimum (ioData3DHeader two_points) f /\
       family_maximum (ioData3DHeader s') f = family_maximum (ioData3DHeader two_points) f) /\
  _fillMinMaxData zero_limits float (cartesian_only None) = Some (tt, cartesian_only None).
Proof.
  split; [ | split ].
  - exact (proj1 (fill_leaves_the_rest zero_limits float two_points)).
  - exact (proj1 (proj2 (fill_leaves_the_rest zero_limits float two_points))).
  - apply (proj2 (proj2 (fill_leaves_the_rest zero_limits float (cartesian_only None)))).
    intros f. destruct f; reflexivity.
Defined.

(** C3.  When the point range condition holds and the record has both
    the Cartesian fields and the spherical range field, a defined call
    runs the x, y, z and range elements of every point, in this order,
    through one pair of running bounds, and writes that pair as the point
    range bounds of the header. *)
Theorem pointRange_pair_is_shared D T s s' :
  writePointRange T (e57.pointFields (ioData3DHeader s)) = true ->
  e57.cartesianXField (e57.pointFields (ioData3DHeader s)) = true ->
  e57.sphericalRangeField (e57.pointFields (ioData3DHeader s)) = true ->
  _fillMinMaxData D T s = Some (tt, s') ->
  exists l,
    samples (inBuffers s) [CartesianX; CartesianY; CartesianZ; SphericalRange] 0
            (Z.to_nat (e57.pointCount (ioData3DHeader s))) = Some l
    /\ (forall id i v,
          In id [CartesianX; CartesianY; CartesianZ; SphericalRange] ->
          0 <= i < e57.pointCount (ioData3DHeader s) ->
          peek (buffer_of id (inBuffers s)) i = Some v -> In v l)
    /\ e57.pointRangeMinimum (e57.pointFields (ioData3DHeader s'))
       = to_double T (fold_min (numeric_limits_max T) l)
    /\ e57.pointRangeMaximum (e57.pointFields (ioData3DHeader s'))
       = to_double T (fold_max (numeric_limits_lowest T) l).
Proof.
  intros W X R Hrun.
  destruct (run_characterised D T s s' tt Hrun) as [_ [_ [_ Hfam]]].
  specialize (Hfam PointRange). cbn [write_condition family_buffers] in Hfam.
  rewrite W in Hfam. unfold pointRange_buffers in Hfam. rewrite X, R in Hfam. cbn [app] in Hfam.
  destruct Hfam as [l [El [Emin Emax]]].
  exists l. split; [ exact El | ]. split; [ | split; [ exact Emin | exact Emax ] ].
  intros id i v I Hi P. apply (samples_In _ _ _ _ _ El). exists id, i.
  repeat split; try assumption; lia.
Qed.

Lemma pointRange_pair_is_shared_witness :
  exists l,
    samples (inBuffers two_points) [CartesianX; CartesianY; CartesianZ; SphericalRange] 0
            (Z.to_nat (e57.pointCount (ioData3DHeader two_points))) = Some l
    /\ (forall id i v,
          In id [CartesianX; CartesianY; CartesianZ; SphericalRange] ->
          0 <= i < e57.pointCount (ioData3DHeader two_points) ->
          peek (buffer_of id (inBuffers two_points)) i = Some v -> In v l)
    /\ to_double float (float_of_Z (-2))
       = to_double float (fold_min (numeric_limits_max float) l)
    /\ to_double float (float_of_Z 8)
       = to_double float (fold_max (numeric_limits_lowest float) l).
Proof.
  apply (pointRange_pair_is_shared zero_limits float two_points two_points_after);
    vm_compute; reflexivity.
Defined.

(** No read of the time stamps without the time condition. *)
Lemma timeStamp_read_needs_condition D T h :
  In TimeStamp (scanned_buffers D T h) -> writeTimeStamp T (e57.pointFields h) = true.
Proof.
  unfold scanned_buffers, scanned_ids, pointRange_buffers, angle_buffers, active.
  destruct (writeTimeStamp T (e57.pointFields h)); [ reflexivity | ].
  destruct (writePointRange T (e57.pointFields h)), (writeAngle T (e57.pointFields h)),
    (writeIntensity D h), (e57.cartesianXField (e57.pointFields h)),
    (e57.sphericalRangeField (e57.pointFields h));
    simpl; intuition discriminate.
Qed.

(** C4.  For both buffer types [T]: a defined call computes the time
    bounds from the time stamps and writes them if the record has a time
    stamp field, stores the time as a scaled integer and has its time
    bounds at the lowest and the greatest value of [T]; otherwise it
    reads no time stamp and leaves the time bounds as they were. *)
Theorem time_bounds_written_iff D T s s' :
  _fillMinMaxData D T s = Some (tt, s') ->
  let pointFields := e57.pointFields (ioData3DHeader s) in
  let condition :=
    e57.timeStampField pointFields = true
    /\ e57.timeNodeType pointFields = e57.ScaledInteger
    /\ SFeqb (e57.timeMinimum pointFields) (to_double T (numeric_limits_lowest T)) = true
    /\ SFeqb (e57.timeMaximum pointFields) (to_double T (numeric_limits_max T)) = true in
  (condition ->
   exists l,
     samples (inBuffers s) [TimeStamp] 0 (Z.to_nat (e57.pointCount (ioData3DHeader s))) = Some l
     /\ e57.timeMinimum (e57.pointFields (ioData3DHeader s')) = fold_min (numeric_limits_max double) l
     /\ e57.timeMaximum (e57.pointFields (ioData3DHeader s')) = fold_max (numeric_limits_lowest double) l)
  /\
  (~ condition ->
   e57.timeMinimum (e57.pointFields (ioData3DHeader s')) = e57.timeMinimum pointFields
   /\ e57.timeMaximum (e57.pointFields (ioData3DHeader s')) = e57.timeMaximum pointFields
   /\ forall tr i, reads s' = reads s ++ tr -> ~ In (TimeStamp, i) tr).
Proof.
  intros Hrun pointFields condition.
  assert (Hc : condition <-> writeTimeStamp T pointFields = true).
  { subst condition. unfold writeTimeStamp. rewrite !andb_true_iff, NumericalNodeType_eqb_eq. tauto. }
  destruct (run_characterised D T s s' tt Hrun) as [_ [[tr [Etr W]] [_ Hfam]]].
  specialize (Hfam Time). cbn [write_condition family_buffers] in Hfam. fold pointFields in Hfam.
  split.
  - intros C. apply Hc in C. rewrite C in Hfam. exact Hfam.
  - intros NC.
    assert (F : writeTimeStamp T pointFields = false).
    { destruct (writeTimeStamp T pointFields); [ exfalso; apply NC, Hc; reflexivity | reflexivity ]. }
    rewrite F in Hfam. destruct Hfam as [E1 E2].
    split; [ exact E1 | ]. split; [ exact E2 | ].
    intros tr' i E I. rewrite Etr in E. apply app_inv_head in E. subst tr'.
    unfold reads_within in W. rewrite Forall_forall in W.
    destruct (W _ I) as [Hin _]. cbn [fst] in Hin.
    apply timeStamp_read_needs_condition in Hin. fold pointFields in Hin. congruence.
Qed.

Lemma time_bounds_written_iff_witness :
  exists l,
    samples (inBuffers two_points) [TimeStamp] 0
            (Z.to_nat (e57.pointCount (ioData3DHeader two_points))) = Some l
    /\ e57.timeMinimum (e57.pointFields (ioData3DHeader two_points_after))
       = fold_min (numeric_limits_max double) l
    /\ e57.timeMaximum (e57.pointFields (ioData3DHeader two_points_after))
       = fold_max (numeric_limits_lowest double) l.
Proof.
  apply (time_bounds_written_iff zero_limits float two_points two_points_after).
  - vm_compute. reflexivity.
  - repeat split; vm_compute; reflexivity.
Defined.

(** The limits the time bounds are compared with follow the type of the
    buffers: a header whose time bounds are at the limits of [double]
    meets the time condition with [double] buffers and not with [float]
    buffers; one whose time bounds are at the limits of [float] meets it
    with [float] buffers. *)
Example time_limits_follow_the_buffer_type :
  writeTimeStamp double
    (fields_at_limits double true false false false true e57.Float e57.Float e57.ScaledInteger) = true
  /\ writeTimeStamp float
       (fields_at_limits double true false false false true e57.Float e57.Float e57.ScaledInteger) = false
  /\ writeTimeStamp float
       (fields_at_limits float true false false false true e57.Float e57.Float e57.ScaledInteger) = true.
Proof. repeat split; vm_compute; reflexivity. Qed.

(** C5 (the code departs from it).  The angle block is guarded by the
    angle condition alone: on a Cartesian record that has neither
    azimuth nor elevation field, with the angles stored as scaled
    integers and their bounds at the limits, the call reads the azimuth
    and elevation buffers all the same.  With those buffers null the
    call is undefined; with values left in them it reads them and writes
    angle bounds from them. *)
Theorem angle_scan_ignores_the_field_flags :
  e57.sphericalAzimuthField (e57.pointFields cartesian_only_header) = false
  /\ e57.sphericalElevationField (e57.pointFields cartesian_only_header) = false
  /\ writeAngle double (e57.pointFields cartesian_only_header) = true
  /\ _fillMinMaxData zero_limits double (cartesian_only None) = None
  /\ exists s',
       _fillMinMaxData zero_limits double (cartesian_only (Some [double_of_Z 7])) = Some (tt, s')
       /\ reads s' = [(SphericalAzimuth, 0); (SphericalElevation, 0);
                      (SphericalAzimuth, 0); (SphericalElevation, 0)]
       /\ e57.angleMinimum (e57.pointFields (ioData3DHeader s')) = double_of_Z 7
       /\ e57.angleMaximum (e57.pointFields (ioData3DHeader s')) = double_of_Z 7.
Proof.
  split; [ reflexivity | ]. split; [ reflexivity | ]. split; [ reflexivity | ].
  split; [ vm_compute; reflexivity | ].
  eexists. split; [ vm_compute; reflexivity | ].
  repeat split; vm_compute; reflexivity.
Qed.

(** C8.  Calling [_fillMinMaxData] again on the header a defined call
    left, with the same buffers, is defined and leaves that header as it
    is. *)
Theorem fill_is_idempotent D T h b h1 :
  header_after D T h b = Some h1 -> header_after D T h1 b = Some h1.
Proof.
  intros H1.
  destruct (header_after_state D T h b h1 H1) as [s1 [Hrun [Eh Eb]]].
  destruct (run_characterised D T _ _ _ Hrun) as [_ [_ [Hout Hfam]]].
  cbn [ioData3DHeader inBuffers] in Hout, Hfam. rewrite Eh in Hout, Hfam.
  assert (Hcount : e57.pointCount h1 = e57.pointCount h) by apply Hout.
  assert (Hbuf : forall f, family_buffers (e57.pointFields h1) f = family_buffers (e57.pointFields h) f).
  { intros f. destruct f; try reflexivity. unfold family_buffers, pointRange_buffers.
    destruct Hout as [_ [X [_ [_ [R _]]]]]. rewrite X, R. reflexivity. }
  assert (Hmono : forall f, write_condition D T h1 f = true -> write_condition D T h f = true).
  { intros f F1. specialize (Hfam f).
    destruct (write_condition D T h f) eqn:F; [ reflexivity | ].
    destruct Hfam as [E1 E2].
    rewrite (write_condition_stable D T h h1 f Hout E1 E2) in F1. congruence. }
  destruct (run_defined D T {| ioData3DHeader := h1; inBuffers := b; reads := [] |}) as [s2 Hrun2].
  { cbn [ioData3DHeader inBuffers]. intros f F1.
    specialize (Hfam f). rewrite (Hmono f F1) in Hfam. destruct Hfam as [l [El _]].
    exists l. rewrite Hbuf, Hcount. exact El. }
  pose proof (header_after_run D T _ _ _ Hrun2) as H2. cbn [ioData3DHeader inBuffers] in H2.
  rewrite H2. f_equal.
  destruct (run_characterised D T _ _ _ Hrun2) as [_ [_ [Hout2 Hfam2]]].
  cbn [ioData3DHeader inBuffers] in Hout2, Hfam2.
  apply header_ext; [ exact Hout2 | ].
  intros f. specialize (Hfam2 f). destruct (write_condition D T h1 f) eqn:F1; [ | exact Hfam2 ].
  destruct Hfam2 as [l2 [El2 [E1 E2]]]. rewrite Hbuf, Hcount in El2.
  specialize (Hfam f). rewrite (Hmono f F1) in Hfam. destruct Hfam as [l [El [E1' E2']]].
  rewrite El in El2. inversion El2; subst l2. rewrite E1, E2, E1', E2'. split; reflexivity.
Qed.

Lemma fill_is_idempotent_witness :
  header_after zero_limits float (ioData3DHeader two_points_after) two_points_buffers
  = Some (ioData3DHeader two_points_after).
Proof.
  apply (fill_is_idempotent zero_limits float two_points_header two_points_buffers).
  vm_compute. reflexivity.
Defined.

(** C9 (as amended).  On input whose scanned elements all exist and are
    not NaN, infinite values included, with a point count of at least
    one, every family that is written and has at least one contributing
    buffer ends with its minimum below or equal to its maximum. *)
Theorem written_bounds_are_ordered D T s :
  number_input D T s ->
  1 <= e57.pointCount (ioData3DHeader s) ->
  exists s',
    _fillMinMaxData D T s = Some (tt, s') /\
    forall f,
      write_condition D T (ioData3DHeader s) f = true ->
      family_buffers (e57.pointFields (ioData3DHeader s)) f <> [] ->
      SFleb (family_minimum (ioData3DHeader s') f) (family_maximum (ioData3DHeader s') f) = true.
Proof.
  intros Hnum Hn.
  destruct (number_input_run D T s Hnum) as [s' [Hrun Hencl]].
  exists s'. split; [ exact Hrun | ].
  intros f F Hids. destruct (Hencl f F) as [_ [_ Hx]].
  destruct (family_buffers (e57.pointFields (ioData3DHeader s)) f) as [|id ids] eqn:Eids;
    [ congruence | ].
  assert (I : In id (family_buffers (e57.pointFields (ioData3DHeader s)) f))
    by (rewrite Eids; left; reflexivity).
  destruct (Hnum id 0 (family_in_scanned D T _ f id F I) ltac:(lia)) as [v [P _]].
  destruct (Hx (as_bound T id v)) as [Hlo Hhi].
  { exists id, 0, v. repeat split; try assumption; try lia. left. reflexivity. }
  eapply SFleb_trans; eassumption.
Qed.

Lemma written_bounds_are_ordered_witness :
  exists s',
    _fillMinMaxData zero_limits double point_at_infinity = Some (tt, s') /\
    forall f,
      write_condition zero_limits double (ioData3DHeader point_at_infinity) f = true ->
      family_buffers (e57.pointFields (ioData3DHeader point_at_infinity)) f <> [] ->
      SFleb (family_minimum (ioData3DHeader s') f) (family_maximum (ioData3DHeader s') f) = true.
Proof.
  apply (written_bounds_are_ordered zero_limits double point_at_infinity).
  - number_sample.
  - simpl. lia.
Defined.

(** C9 as stated fails when a written family received no sample, and when
    a sample is not a number.  With a point count of zero and the point
    range a scaled integer at the limits, the call is defined and writes
    the greatest [double] as the minimum and the lowest as the maximum.
    With one point whose z coordinate is NaN, the call writes NaN as both
    bounds, and NaN is not below or equal to NaN. *)
Lemma written_bounds_out_of_order :
  (write_condition zero_limits double (ioData3DHeader no_points) PointRange = true /\
   exists s',
     _fillMinMaxData zero_limits double no_points = Some (tt, s') /\
     family_minimum (ioData3DHeader s') PointRange = numeric_limits_max double /\
     family_maximum (ioData3DHeader s') PointRange = numeric_limits_lowest double /\
     SFleb (family_minimum (ioData3DHeader s') PointRange)
           (family_maximum (ioData3DHeader s') PointRange) = false)
  /\
  (write_condition zero_limits double (ioData3DHeader nan_point) PointRange = true /\
   exists s',
     _fillMinMaxData zero_limits double nan_point = Some (tt, s') /\
     family_minimum (ioData3DHeader s') PointRange = S754_nan /\
     family_maximum (ioData3DHeader s') PointRange = S754_nan /\
     SFleb (family_minimum (ioData3DHeader s') PointRange)
           (family_maximum (ioData3DHeader s') PointRange) = false).
Proof.
  split; (split; [ reflexivity | ]);
    (eexists; split; [ vm_compute; reflexivity | ]);
    repeat split; vm_compute; reflexivity.
Qed.

(** ** The facade *)

Lemma static_cast_int64_t_small x : 0 <= x < 2 ^ 63 -> static_cast_int64_t x = x.
Proof.
  intros H. unfold static_cast_int64_t.
  change (2 ^ 63) with 9223372036854775808 in *. change (2 ^ 64) with 18446744073709551616.
  rewrite Z.mod_small; lia.
Qed.

Lemma static_cast_size_t_negative x :
  int64_t x -> x < 0 ->
  static_cast_size_t x = x + 2 ^ 64 /\ 2 ^ 63 <= static_cast_size_t x < 2 ^ 64.
Proof.
  unfold int64_t, static_cast_size_t. intros H Hneg.
  change (2 ^ 63) with 9223372036854775808 in *. change (2 ^ 64) with 18446744073709551616.
  assert (E : x mod 18446744073709551616 = x + 18446744073709551616).
  { symmetry. apply (Z.mod_unique_pos x 18446744073709551616 (-1)); lia. }
  rewrite E. lia.
Qed.

Lemma static_cast_size_t_range x : size_t (static_cast_size_t x).
Proof.
  unfold size_t, static_cast_size_t. apply Z.mod_pos_bound. reflexivity.
Qed.

Section FacadeProperties.

Variables Image2D Image2DType Image2DProjection CompressedVectorWriter S : Type.
Variable handle : Handler Image2D Image2DType Image2DProjection CompressedVectorWriter S.

(** When [_fillMinMaxData] is undefined on the header and the buffers, so
    is the whole call, before any call on the implementation. *)
Lemma WriteData3DData_undefined D T h b st :
  header_after D T h b = None ->
  run handle (WriteData3DData D T h b) st = (UndefinedBehaviour, st, []).
Proof.
  unfold header_after, WriteData3DData. intros H.
  destruct (_fillMinMaxData D T _) as [[u s1]|]; [ discriminate | reflexivity ].
Qed.

(** C6.  [WriteData3DData] first runs [_fillMinMaxData] on the header and
    the buffers; with [h1] the header that leaves, it then makes, in this
    order, the calls [NewData3D] on [h1], [SetUpData3DPointsData] for the
    index that call returned, with the point count of the header
    converted to [size_t] and the buffers as given, one [write] of that
    count on the writer it got, and one [close] of that writer; it
    returns the index [NewData3D] returned.  The point count is the one
    declared, [_fillMinMaxData] leaving it as it is, unless [NewData3D]
    changes it; converted to [size_t] it is the count itself unless it
    is negative.  A call that throws ends the sequence there: whatever
    the implementation does, the calls made are a prefix of these
    four. *)
Theorem WriteData3DData_sequence D T h b h1 st :
  header_after D T h b = Some h1 ->
  e57.pointCount h1 = e57.pointCount h
  /\ (forall scanIndex h2 st1 dataWriter st2 st3 st4,
        handle _ (impl_NewData3D h1) st = (Some (scanIndex, h2), st1) ->
        handle _ (impl_SetUpData3DPointsData scanIndex (static_cast_size_t (e57.pointCount h2)) T b) st1
        = (Some dataWriter, st2) ->
        handle _ (dataWriter_write dataWriter (static_cast_size_t (e57.pointCount h2))) st2 = (Some tt, st3) ->
        handle _ (dataWriter_close dataWriter) st3 = (Some tt, st4) ->
        run handle (WriteData3DData D T h b) st
        = (Returned (scanIndex, h2), st4,
           [any (impl_NewData3D h1);
            any (impl_SetUpData3DPointsData scanIndex (static_cast_size_t (e57.pointCount h2)) T b);
            any (dataWriter_write dataWriter (static_cast_size_t (e57.pointCount h2)));
            any (dataWriter_close dataWriter)]))
  /\ (let calls := snd (run handle (WriteData3DData D T h b) st) in
      calls = [any (impl_NewData3D h1)]
      \/ (exists scanIndex n,
            calls = [any (impl_NewData3D h1);
                     any (impl_SetUpData3DPointsData scanIndex n T b)])
      \/ (exists scanIndex n dataWriter,
            calls = [any (impl_NewData3D h1);
                     any (impl_SetUpData3DPointsData scanIndex n T b);
                     any (dataWriter_write dataWriter n)])
      \/ (exists scanIndex n dataWriter,
            calls = [any (impl_NewData3D h1);
                     any (impl_SetUpData3DPointsData scanIndex n T b);
                     any (dataWriter_write dataWriter n);
                     any (dataWriter_close dataWriter)]))
  /\ (forall h2, 0 <= e57.pointCount h2 < 2 ^ 64 ->
                 static_cast_size_t (e57.pointCount h2) = e57.pointCount h2).
Proof.
  intros H1.
  destruct (header_after_state D T h b h1 H1) as [s1 [Hrun [Eh Eb]]].
  destruct (run_characterised D T _ _ _ Hrun) as [_ [_ [Hout _]]].
  cbn [ioData3DHeader] in Hout. rewrite Eh in Hout.
  split; [ apply Hout | ].
  unfold WriteData3DData. rewrite Hrun, Eh, Eb.
  split; [ | split;
             [ | intros h2 Hc; unfold static_cast_size_t; apply Z.mod_small; exact Hc ] ].
  - intros scanIndex h2 st1 dataWriter st2 st3 st4 E1 E2 E3 E4.
    cbn [run]. rewrite E1. cbn [run]. rewrite E2. cbn [run]. rewrite E3. cbn [run].
    rewrite E4. reflexivity.
  - cbn [run].
    destruct (handle _ (impl_NewData3D h1) st) as [[[scanIndex h2]|] st1];
      [ | left; reflexivity ].
    cbn [run].
    destruct (handle _ (impl_SetUpData3DPointsData scanIndex (static_cast_size_t (e57.pointCount h2)) T b) st1)
      as [[dataWriter|] st2];
      [ | right; left; exists scanIndex, (static_cast_size_t (e57.pointCount h2)); reflexivity ].
    cbn [run].
    destruct (handle _ (dataWriter_write dataWriter (static_cast_size_t (e57.pointCount h2))) st2) as [[[]|] st3];
      [ | right; right; left; exists scanIndex, (static_cast_size_t (e57.pointCount h2)), dataWriter; reflexivity ].
    cbn [run].
    destruct (handle _ (dataWriter_close dataWriter) st3) as [[[]|] st4];
      right; right; right; exists scanIndex, (static_cast_size_t (e57.pointCount h2)), dataWriter; reflexivity.
Qed.

(** C7.  The one-call form of [WriteImage2DData] first calls [NewImage2D]
    on the header as it was given, then [WriteImage2DData] of the
    implementation for the index that call returned, and makes no other
    call; it returns what the write call returned, converted to
    [int64_t], which is that very number when it is below [2^63]. *)
Theorem WriteImage2DData_declares_then_writes
    image2DHeader imageType imageProjection startPos pBuffer byteCount st
    imageIndex image2DHeader' st1 written st2 :
  handle _ (impl_NewImage2D image2DHeader) st = (Some (imageIndex, image2DHeader'), st1) ->
  handle _ (impl_WriteImage2DData imageIndex imageType imageProjection pBuffer startPos
              (static_cast_size_t byteCount)) st1 = (Some written, st2) ->
  run handle (WriteImage2DData_header image2DHeader imageType imageProjection
                startPos pBuffer byteCount) st
  = (Returned (static_cast_int64_t written, image2DHeader'), st2,
     [any (impl_NewImage2D image2DHeader);
      any (impl_WriteImage2DData imageIndex imageType imageProjection pBuffer startPos
             (static_cast_size_t byteCount))])
  /\ (0 <= written < 2 ^ 63 -> static_cast_int64_t written = written).
Proof.
  intros E1 E2. split; [ | apply static_cast_int64_t_small ].
  unfold WriteImage2DData_header. cbn [run]. rewrite E1. cbn [run]. rewrite E2. reflexivity.
Qed.

(** C10.  In both overloads of [WriteImage2DData] the byte count the
    implementation is given is the [int64_t] argument converted to
    [size_t], that is the argument modulo [2^64]; a negative argument is
    forwarded as a count of at least [2^63], the call being made all the
    same. *)
Theorem byteCount_is_forwarded_unsigned :
  (forall imageIndex imageType imageProjection pBuffer start count st,
     image_write_sizes
       (snd (run handle (WriteImage2DData_index imageIndex imageType imageProjection
                           pBuffer start count) st))
     = [count mod 2 ^ 64])
  /\ (forall image2DHeader imageType imageProjection startPos pBuffer byteCount st
             imageIndex image2DHeader' st1,
        handle _ (impl_NewImage2D image2DHeader) st = (Some (imageIndex, image2DHeader'), st1) ->
        image_write_sizes
          (snd (run handle (WriteImage2DData_header image2DHeader imageType imageProjection
                              startPos pBuffer byteCount) st))
        = [byteCount mod 2 ^ 64])
  /\ (forall byteCount,
        int64_t byteCount -> byteCount < 0 ->
        byteCount mod 2 ^ 64 = byteCount + 2 ^ 64 /\ 2 ^ 63 <= byteCount mod 2 ^ 64 < 2 ^ 64).
Proof.
  split; [ | split ].
  - intros. unfold WriteImage2DData_index. cbn [run].
    destruct (handle _ _ st) as [[written|] st']; reflexivity.
  - intros until st1. intros E1. unfold WriteImage2DData_header. cbn [run]. rewrite E1. cbn [run].
    destruct (handle _ _ st1) as [[written|] st']; reflexivity.
  - intros byteCount H Hneg. apply static_cast_size_t_negative; assumption.
Qed.

End FacadeProperties.

Lemma WriteData3DData_sequence_witness :
  run counting_impl
      (WriteData3DData zero_limits float two_points_header two_points_buffers) 5
  = (Returned (5, ioData3DHeader two_points_after), 6,
     [any (impl_NewData3D (ioData3DHeader two_points_after));
      any (impl_SetUpData3DPointsData 5 2 float two_points_buffers);
      any (dataWriter_write 5 2);
      any (dataWriter_close 5)]).
Proof.
  refine (proj1 (proj2 (WriteData3DData_sequence unit unit unit Z Z counting_impl
                          zero_limits float two_points_header two_points_buffers
                          (ioData3DHeader two_points_after) 5 _))
                5 (ioData3DHeader two_points_after) 6 5 6 6 6 _ _ _ _);
    vm_compute; reflexivity.
Defined.

(** A point count below zero reaches the implementation as a [size_t]:
    with a count of [-1] both [SetUpData3DPointsData] and [write] are
    given [2^64 - 1]. *)
Example WriteData3DData_of_a_negative_count :
  snd (run counting_impl
         (WriteData3DData zero_limits double (ioData3DHeader (three_points (-1)))
            (inBuffers (three_points (-1)))) 5)
  = [any (impl_NewData3D (ioData3DHeader (state_after zero_limits double (three_points (-1)))));
     any (impl_SetUpData3DPointsData 5 18446744073709551615 double
            (inBuffers (three_points (-1))));
     any (dataWriter_write 5 18446744073709551615);
     any (dataWriter_close 5)].
Proof. vm_compute. reflexivity. Qed.

Lemma WriteImage2DData_declares_then_writes_witness :
  run counting_impl (WriteImage2DData_header tt tt tt 0 4096 100) 5
  = (Returned (100, tt), 6,
     [any (impl_NewImage2D tt); any (impl_WriteImage2DData 5 tt tt 4096 0 100)]).
Proof.
  refine (proj1 (WriteImage2DData_declares_then_writes unit unit unit Z Z counting_impl
                   tt tt tt 0 4096 100 5 5 tt 6 100 6 _ _));
    reflexivity.
Defined.

Lemma byteCount_is_forwarded_unsigned_witness :
  image_write_sizes (snd (run counting_impl (WriteImage2DData_header tt tt tt 0 4096 (-1)) 5))
  = [18446744073709551615]
  /\ (-1) mod 2 ^ 64 = 18446744073709551615.
Proof.
  split.
  - exact (proj1 (proj2 (byteCount_is_forwarded_unsigned unit unit unit Z Z counting_impl))
             tt tt tt 0 4096 (-1) 5 5 tt 6 eq_refl).
  - apply (proj2 (proj2 (byteCount_is_forwarded_unsigned unit unit unit Z Z counting_impl)) (-1)).
    + unfold int64_t. split; [ vm_compute; discriminate | reflexivity ].
    + reflexivity.
Defined.

(** * Further properties of the code

    When [_fillMinMaxData] is defined and what it reads, its behaviour on
    records without points and on samples that are not finite, what its
    result depends on, and how the methods of the facade compose. *)

(** ** The buffers a call needs *)

(** X1.  A call of [_fillMinMaxData] is defined exactly when, the point
    count being at least one, every buffer it scans is a pointer that is
    not null to an array of at least [pointCount] elements; with a point
    count below one it is always defined. *)
Theorem fill_is_defined_iff_the_buffers_cover_the_points D T s :
  (exists s', _fillMinMaxData D T s = Some (tt, s')) <->
  (1 <= e57.pointCount (ioData3DHeader s) ->
   forall id, In id (scanned_buffers D T (ioData3DHeader s)) ->
     exists l, buffer_of id (inBuffers s) = Some l
               /\ e57.pointCount (ioData3DHeader s) <= Z.of_nat (length l)).
Proof.
  rewrite run_defined_iff. split.
  - intros H Hn id I.
    destruct (proj1 (peek_Some_iff _ _) (H id (e57.pointCount (ioData3DHeader s) - 1) I ltac:(lia)))
      as [l [E Hl]].
    exists l. split; [ exact E | lia ].
  - intros H id i I Hi. apply peek_Some_iff.
    destruct (H ltac:(lia) id I) as [l [E Hl]].
    exists l. split; [ exact E | lia ].
Qed.

(** ** What a call reads *)

Lemma for_loop_reads_length {A} (body : Z -> A -> M A) (k : nat)
    (Hbody : forall i a s a' s', body i a s = Some (a', s') ->
                                 length (reads s') = (length (reads s) + k)%nat) :
  forall n i a s a' s',
    for_loop n i body a s = Some (a', s') ->
    length (reads s') = (length (reads s) + n * k)%nat.
Proof.
  induction n as [|n IH]; intros i a s a' s' H.
  - cbn in H. inversion H; subst. lia.
  - cbn [for_loop] in H. unfold bind in H.
    destruct (body i a s) as [[a1 s1]|] eqn:E; [ | discriminate ].
    apply Hbody in E. apply IH in H. lia.
Qed.

Ltac count_reads H :=
  unfold bind, ret in H;
  repeat (rewrite inBuffers_at_run in H; cbn [inBuffers buffer_of] in H;
          match type of H with
          | context [peek ?p ?i] => destruct (peek p i); [ | discriminate H ]
          end);
  inversion H; subst; cbn [reads]; rewrite ?length_app; cbn [length]; lia.

Lemma scan_cartesian_reads c i l s l' s' :
  scan_cartesian c i l s = Some (l', s') ->
  length (reads s') = (length (reads s) + 2 * length (active c [CartesianX; CartesianY; CartesianZ]))%nat.
Proof.
  intros H. destruct c; cbn [scan_cartesian active length] in *; count_reads H.
Qed.

Lemma scan_sphericalRange_reads c i l s l' s' :
  scan_sphericalRange c i l s = Some (l', s') ->
  length (reads s') = (length (reads s) + 2 * length (active c [SphericalRange]))%nat.
Proof.
  intros H. destruct c; cbn [scan_sphericalRange active length] in *; count_reads H.
Qed.

Lemma scan_angle_reads c i l s l' s' :
  scan_angle c i l s = Some (l', s') ->
  length (reads s') = (length (reads s) + 2 * length (active c angle_buffers))%nat.
Proof.
  intros H. destruct c; cbn [scan_angle active length angle_buffers] in *; count_reads H.
Qed.

Lemma scan_intensity_reads c i l s l' s' :
  scan_intensity c i l s = Some (l', s') ->
  length (reads s') = (length (reads s) + 2 * length (active c [Intensity]))%nat.
Proof.
  intros H. destruct c; cbn [scan_intensity active length] in *; count_reads H.
Qed.

Lemma scan_timeStamp_reads c i l s l' s' :
  scan_timeStamp c i l s = Some (l', s') ->
  length (reads s') = (length (reads s) + 2 * length (active c [TimeStamp]))%nat.
Proof.
  intros H. destruct c; cbn [scan_timeStamp active length] in *; count_reads H.
Qed.

Lemma scanned_ids_length pf wPR wA wI wT :
  length (scanned_ids pf wPR wA wI wT) =
  (length (active (wPR && e57.cartesianXField pf) [CartesianX; CartesianY; CartesianZ])
   + length (active (wPR && e57.sphericalRangeField pf) [SphericalRange])
   + length (active wA angle_buffers)
   + length (active wI [Intensity])
   + length (active wT [TimeStamp]))%nat.
Proof.
  unfold scanned_ids, pointRange_buffers.
  destruct wPR, (e57.cartesianXField pf), (e57.sphericalRangeField pf), wA, wI, wT; reflexivity.
Qed.

Lemma loop_body_reads pf wPR wA wI wT i l s l' s' :
  loop_body pf wPR wA wI wT i l s = Some (l', s') ->
  length (reads s') = (length (reads s) + 2 * length (scanned_ids pf wPR wA wI wT))%nat.
Proof.
  unfold loop_body, bind. intros H.
  destruct (scan_cartesian _ i l s) as [[l1 s1]|] eqn:E1; [ | discriminate ].
  destruct (scan_sphericalRange _ i l1 s1) as [[l2 s2]|] eqn:E2; [ | discriminate ].
  destruct (scan_angle _ i l2 s2) as [[l3 s3]|] eqn:E3; [ | discriminate ].
  destruct (scan_intensity _ i l3 s3) as [[l4 s4]|] eqn:E4; [ | discriminate ].
  apply scan_cartesian_reads in E1. apply scan_sphericalRange_reads in E2.
  apply scan_angle_reads in E3. apply scan_intensity_reads in E4.
  apply scan_timeStamp_reads in H.
  rewrite scanned_ids_length. lia.
Qed.

(** The assignments after the loop read nothing. *)
Lemma fillMinMaxData_reads_length D T s s' u :
  _fillMinMaxData D T s = Some (u, s') ->
  length (reads s') =
  (length (reads s)
   + Z.to_nat (e57.pointCount (ioData3DHeader s))
     * (2 * length (scanned_buffers D T (ioData3DHeader s))))%nat.
Proof.
  unfold _fillMinMaxData, bind, get_header. intros H.
  destruct (for_loop _ _ _ _ s) as [[l s1]|] eqn:E; [ | discriminate ].
  apply (for_loop_reads_length _ _ (loop_body_reads _ _ _ _ _)) in E.
  fold (scanned_buffers D T (ioData3DHeader s)) in E.
  rewrite <- E. clear E.
  revert H.
  generalize (writePointRange T (e57.pointFields (ioData3DHeader s)))
             (writeAngle T (e57.pointFields (ioData3DHeader s)))
             (writeIntensity D (ioData3DHeader s))
             (writeTimeStamp T (e57.pointFields (ioData3DHeader s))).
  intros wPR wA wI wT.
  unfold when, bind, ret, assign_pointRangeMinimum, assign_pointRangeMaximum,
    assign_angleMinimum, assign_angleMaximum, assign_intensityMinimum,
    assign_intensityMaximum, assign_timeMinimum, assign_timeMaximum, modify_header.
  destruct wPR, wA, wI, wT; cbn [reads]; intros H; inversion H; reflexivity.
Qed.

(** The reads themselves, block by block. *)
Ltac trace_reads H :=
  unfold bind, ret in H;
  repeat (rewrite inBuffers_at_run in H; cbn [inBuffers buffer_of] in H;
          match type of H with
          | context [peek ?p ?i] => destruct (peek p i); [ | discriminate H ]
          end);
  inversion H; subst; cbn [reads block_reads active map];
  rewrite <- ?app_assoc, ?app_nil_r; reflexivity.

Lemma scan_cartesian_trace c i l s l' s' :
  scan_cartesian c i l s = Some (l', s') ->
  reads s' = reads s ++ block_reads c
               [CartesianX; CartesianY; CartesianZ; CartesianX; CartesianY; CartesianZ] i.
Proof. intros H. destruct c; cbn [scan_cartesian] in H; trace_reads H. Qed.

Lemma scan_sphericalRange_trace c i l s l' s' :
  scan_sphericalRange c i l s = Some (l', s') ->
  reads s' = reads s ++ block_reads c [SphericalRange; SphericalRange] i.
Proof. intros H. destruct c; cbn [scan_sphericalRange] in H; trace_reads H. Qed.

Lemma scan_angle_trace c i l s l' s' :
  scan_angle c i l s = Some (l', s') ->
  reads s' = reads s ++ block_reads c
               [SphericalAzimuth; SphericalElevation; SphericalAzimuth; SphericalElevation] i.
Proof. intros H. destruct c; cbn [scan_angle] in H; trace_reads H. Qed.

Lemma scan_intensity_trace c i l s l' s' :
  scan_intensity c i l s = Some (l', s') ->
  reads s' = reads s ++ block_reads c [Intensity; Intensity] i.
Proof. intros H. destruct c; cbn [scan_intensity] in H; trace_reads H. Qed.

Lemma scan_timeStamp_trace c i l s l' s' :
  scan_timeStamp c i l s = Some (l', s') ->
  reads s' = reads s ++ block_reads c [TimeStamp; TimeStamp] i.
Proof. intros H. destruct c; cbn [scan_timeStamp] in H; trace_reads H. Qed.

Lemma loop_body_trace pf wPR wA wI wT i l s l' s' :
  loop_body pf wPR wA wI wT i l s = Some (l', s') ->
  reads s' = reads s ++ iteration_reads pf wPR wA wI wT i.
Proof.
  unfold loop_body, bind. intros H.
  destruct (scan_cartesian _ i l s) as [[l1 s1]|] eqn:E1; [ | discriminate ].
  destruct (scan_sphericalRange _ i l1 s1) as [[l2 s2]|] eqn:E2; [ | discriminate ].
  destruct (scan_angle _ i l2 s2) as [[l3 s3]|] eqn:E3; [ | discriminate ].
  destruct (scan_intensity _ i l3 s3) as [[l4 s4]|] eqn:E4; [ | discriminate ].
  apply scan_cartesian_trace in E1. apply scan_sphericalRange_trace in E2.
  apply scan_angle_trace in E3. apply scan_intensity_trace in E4.
  apply scan_timeStamp_trace in H.
  rewrite H, E4, E3, E2, E1. unfold iteration_reads. rewrite <- !app_assoc. reflexivity.
Qed.

Lemma for_loop_trace pf wPR wA wI wT n : forall i l s l' s',
  for_loop n i (loop_body pf wPR wA wI wT) l s = Some (l', s') ->
  reads s' = reads s ++ loop_reads pf wPR wA wI wT n i.
Proof.
  induction n as [|n IH]; intros i l s l' s' H.
  - cbn in H. inversion H; subst. cbn [loop_reads]. rewrite app_nil_r. reflexivity.
  - cbn [for_loop] in H. unfold bind in H.
    destruct (loop_body pf wPR wA wI wT i l s) as [[l1 s1]|] eqn:E; [ | discriminate ].
    apply loop_body_trace in E. apply IH in H.
    rewrite H, E. cbn [loop_reads]. rewrite <- app_assoc. reflexivity.
Qed.

(** The reads of a call are those of the loop. *)
Lemma fillMinMaxData_trace D T s s' u :
  _fillMinMaxData D T s = Some (u, s') ->
  reads s' = reads s ++ loop_reads (e57.pointFields (ioData3DHeader s))
                          (writePointRange T (e57.pointFields (ioData3DHeader s)))
                          (writeAngle T (e57.pointFields (ioData3DHeader s)))
                          (writeIntensity D (ioData3DHeader s))
                          (writeTimeStamp T (e57.pointFields (ioData3DHeader s)))
                          (Z.to_nat (e57.pointCount (ioData3DHeader s))) 0.
Proof.
  unfold _fillMinMaxData, bind, get_header. intros H.
  destruct (for_loop _ _ _ _ s) as [[l s1]|] eqn:E; [ | discriminate ].
  apply for_loop_trace in E. rewrite <- E. clear E.
  revert H.
  generalize (writePointRange T (e57.pointFields (ioData3DHeader s)))
             (writeAngle T (e57.pointFields (ioData3DHeader s)))
             (writeIntensity D (ioData3DHeader s))
             (writeTimeStamp T (e57.pointFields (ioData3DHeader s))).
  intros wPR wA wI wT.
  unfold when, bind, ret, assign_pointRangeMinimum, assign_pointRangeMaximum,
    assign_angleMinimum, assign_angleMaximum, assign_intensityMinimum,
    assign_intensityMaximum, assign_timeMinimum, assign_timeMaximum, modify_header.
  destruct wPR, wA, wI, wT; cbn [reads]; intros H; inversion H; reflexivity.
Qed.

Lemma times_read_app id i t1 t2 :
  times_read id i (t1 ++ t2) = (times_read id i t1 + times_read id i t2)%nat.
Proof. unfold times_read. rewrite filter_app, length_app. reflexivity. Qed.

Lemma BufferId_eqb_eq a b : BufferId_eqb a b = true <-> a = b.
Proof. destruct a, b; simpl; split; congruence. Qed.

Lemma scanned_In id l : existsb (BufferId_eqb id) l = true <-> In id l.
Proof.
  rewrite existsb_exists. split.
  - intros [x [I E]]. apply BufferId_eqb_eq in E. subst. exact I.
  - intros I. exists id. split; [ exact I | apply BufferId_eqb_eq; reflexivity ].
Qed.

(** One iteration reads each scanned buffer twice, at its own index. *)
Lemma times_read_iteration pf wPR wA wI wT id i j :
  times_read id i (iteration_reads pf wPR wA wI wT j) =
  if (j =? i) && existsb (BufferId_eqb id) (scanned_ids pf wPR wA wI wT) then 2%nat else 0%nat.
Proof.
  unfold iteration_reads, scanned_ids, pointRange_buffers, times_read, block_reads.
  destruct wPR, (e57.cartesianXField pf), (e57.sphericalRangeField pf), wA, wI, wT, id;
    cbn; destruct (j =? i); reflexivity.
Qed.

Lemma times_read_loop pf wPR wA wI wT id i n : forall j,
  times_read id i (loop_reads pf wPR wA wI wT n j) =
  if (j <=? i) && (i <? j + Z.of_nat n) && existsb (BufferId_eqb id) (scanned_ids pf wPR wA wI wT)
  then 2%nat else 0%nat.
Proof.
  induction n as [|n IH]; intros j.
  - cbn [loop_reads]. destruct (Z.leb_spec j i), (Z.ltb_spec i (j + Z.of_nat 0));
      try reflexivity; lia.
  - cbn [loop_reads]. rewrite times_read_app, times_read_iteration, IH.
    destruct (existsb (BufferId_eqb id) (scanned_ids pf wPR wA wI wT));
      rewrite ?andb_false_r, ?andb_true_r; [ | reflexivity ].
    destruct (Z.eqb_spec j i), (Z.leb_spec j i), (Z.ltb_spec i (j + Z.of_nat (S n))),
      (Z.leb_spec (j + 1) i), (Z.ltb_spec i (j + 1 + Z.of_nat n));
      try reflexivity; lia.
Qed.

(** X2.  A defined call of [_fillMinMaxData] reads elements of the
    scanned buffers only, at indices from [0] to [pointCount - 1] only,
    and reads each of these elements, of every scanned buffer and at
    every such index, exactly twice; the number of reads is therefore
    twice the number of scanned buffers times the point count. *)
Theorem fill_reads_each_scanned_element_twice D T s s' :
  _fillMinMaxData D T s = Some (tt, s') ->
  exists tr,
    reads s' = reads s ++ tr
    /\ (forall id i, In (id, i) tr ->
          In id (scanned_buffers D T (ioData3DHeader s))
          /\ 0 <= i < e57.pointCount (ioData3DHeader s))
    /\ (forall id i,
          In id (scanned_buffers D T (ioData3DHeader s)) ->
          0 <= i < e57.pointCount (ioData3DHeader s) ->
          times_read id i tr = 2%nat)
    /\ Z.of_nat (length tr)
       = 2 * Z.of_nat (length (scanned_buffers D T (ioData3DHeader s)))
         * Z.max 0 (e57.pointCount (ioData3DHeader s)).
Proof.
  intros Hrun.
  destruct (run_characterised D T s s' tt Hrun) as [_ [[tr [Etr W]] _]].
  exists tr. split; [ exact Etr | ]. split; [ | split ].
  - intros id i I. unfold reads_within in W. rewrite Forall_forall in W.
    apply (W _ I).
  - intros id i I Hi.
    pose proof (fillMinMaxData_trace D T s s' tt Hrun) as Htr.
    rewrite Etr in Htr. apply app_inv_head in Htr. rewrite Htr, times_read_loop.
    fold (scanned_buffers D T (ioData3DHeader s)).
    rewrite (proj2 (scanned_In id _) I).
    destruct (Z.leb_spec 0 i), (Z.ltb_spec i (0 + Z.of_nat (Z.to_nat (e57.pointCount (ioData3DHeader s)))));
      try reflexivity; lia.
  - pose proof (fillMinMaxData_reads_length D T s s' tt Hrun) as L.
    rewrite Etr, length_app in L.
    assert (E : length tr = (Z.to_nat (e57.pointCount (ioData3DHeader s))
                             * (2 * length (scanned_buffers D T (ioData3DHeader s))))%nat) by lia.
    rewrite E, !Nat2Z.inj_mul, ZifyInst.of_nat_to_nat_eq.
    change (Z.of_nat 2) with 2. lia.
Qed.

Lemma fill_reads_each_scanned_element_twice_witness :
  exists tr,
    reads two_points_after = reads two_points ++ tr
    /\ (forall id i, In (id, i) tr ->
          In id (scanned_buffers zero_limits float (ioData3DHeader two_points))
          /\ 0 <= i < e57.pointCount (ioData3DHeader two_points))
    /\ (forall id i,
          In id (scanned_buffers zero_limits float (ioData3DHeader two_points)) ->
          0 <= i < e57.pointCount (ioData3DHeader two_points) ->
          times_read id i tr = 2%nat)
    /\ Z.of_nat (length tr)
       = 2 * Z.of_nat (length (scanned_buffers zero_limits float (ioData3DHeader two_points)))
         * Z.max 0 (e57.pointCount (ioData3DHeader two_points)).
Proof.
  apply (fill_reads_each_scanned_element_twice zero_limits float two_points two_points_after).
  vm_compute. reflexivity.
Defined.

(** ** A record without points *)




(** ** Samples that are not numbers *)

Lemma std_min_nan_sample acc : std_min S754_nan acc = S754_nan.
Proof. unfold std_min. destruct acc; reflexivity. Qed.

Lemma std_max_nan_sample acc : std_max S754_nan acc = S754_nan.
Proof. unfold std_max. destruct acc; reflexivity. Qed.

Lemma std_min_nan_bound v : std_min v S754_nan = v.
Proof. unfold std_min. destruct v; reflexivity. Qed.

Lemma std_max_nan_bound v : std_max v S754_nan = v.
Proof. unfold std_max. destruct v; reflexivity. Qed.

Lemma fold_min_after_nan init l1 l2 :
  fold_min init (l1 ++ S754_nan :: l2) =
  match l2 with [] => S754_nan | v :: l => fold_min v l end.
Proof.
  rewrite fold_min_app.
  change (fold_min (fold_min init l1) (S754_nan :: l2))
    with (fold_min (std_min S754_nan (fold_min init l1)) l2).
  rewrite std_min_nan_sample. destruct l2 as [|v l]; [ reflexivity | ].
  change (fold_min S754_nan (v :: l)) with (fold_min (std_min v S754_nan) l).
  rewrite std_min_nan_bound. reflexivity.
Qed.

Lemma fold_max_after_nan init l1 l2 :
  fold_max init (l1 ++ S754_nan :: l2) =
  match l2 with [] => S754_nan | v :: l => fold_max v l end.
Proof.
  rewrite fold_max_app.
  change (fold_max (fold_max init l1) (S754_nan :: l2))
    with (fold_max (std_max S754_nan (fold_max init l1)) l2).
  rewrite std_max_nan_sample. destruct l2 as [|v l]; [ reflexivity | ].
  change (fold_max S754_nan (v :: l)) with (fold_max (std_max v S754_nan) l).
  rewrite std_max_nan_bound. reflexivity.
Qed.

Lemma to_double_nan T : to_double T S754_nan = S754_nan.
Proof. destruct T; reflexivity. Qed.

(** X4.  A sample that is not a number makes the running bounds forget
    every sample before it: [std::min( v, bound )] and [std::max( v,
    bound )] return [v] when either argument is NaN.  When the samples
    of a written family, in the order of the scan, hold a NaN, the
    bounds written are NaN if it is the last sample, and otherwise the
    running bounds over the samples after it, started from the first of
    them; the samples before it and the limits the bounds started from
    play no part. *)
Theorem nan_sample_hides_the_samples_before_it D T s s' f l1 l2 :
  _fillMinMaxData D T s = Some (tt, s') ->
  write_condition D T (ioData3DHeader s) f = true ->
  samples (inBuffers s) (family_buffers (e57.pointFields (ioData3DHeader s)) f) 0
          (Z.to_nat (e57.pointCount (ioData3DHeader s))) = Some (l1 ++ S754_nan :: l2) ->
  match l2 with
  | [] =>
      family_minimum (ioData3DHeader s') f = S754_nan
      /\ family_maximum (ioData3DHeader s') f = S754_nan
  | v :: l =>
      family_minimum (ioData3DHeader s') f = to_double (family_type T f) (fold_min v l)
      /\ family_maximum (ioData3DHeader s') f = to_double (family_type T f) (fold_max v l)
  end.
Proof.
  intros Hrun F El.
  destruct (run_characterised D T s s' tt Hrun) as [_ [_ [_ Hfam]]].
  specialize (Hfam f). rewrite F in Hfam. destruct Hfam as [l [El' [Emin Emax]]].
  rewrite El in El'. inversion El'; subst l; clear El'.
  unfold computed_minimum, computed_maximum in Emin, Emax.
  rewrite fold_min_after_nan in Emin. rewrite fold_max_after_nan in Emax.
  destruct l2 as [|v l]; [ rewrite to_double_nan in Emin, Emax | ]; split; assumption.
Qed.

Lemma nan_sample_hides_the_samples_before_it_witness :
  family_minimum (ioData3DHeader (state_after zero_limits double nan_between)) PointRange
  = double_of_Z 5
  /\ family_maximum (ioData3DHeader (state_after zero_limits double nan_between)) PointRange
     = double_of_Z 6.
Proof.
  refine (nan_sample_hides_the_samples_before_it zero_limits double nan_between
            (state_after zero_limits double nan_between) PointRange
            [double_of_Z (-9); double_of_Z 2; double_of_Z 3]
            [double_of_Z 5; double_of_Z 6] _ _ _);
    vm_compute; reflexivity.
Defined.

(** ** Samples that are numbers, infinities included *)

(** X5.  When every element the call reads exists and is not NaN,
    infinities being allowed and the point count being any, the call is
    defined and the bounds it writes for a family enclose every sample
    of the family; the minimum written is never above the greatest
    finite value of the accumulator's type and the maximum never below
    the lowest, also when every sample is infinite. *)
Theorem written_bounds_enclose_the_numbers D T s :
  number_input D T s ->
  exists s',
    _fillMinMaxData D T s = Some (tt, s') /\
    forall f,
      write_condition D T (ioData3DHeader s) f = true ->
      SFleb (family_minimum (ioData3DHeader s') f)
            (to_double (family_type T f) (numeric_limits_max (family_type T f))) = true
      /\ SFleb (to_double (family_type T f) (numeric_limits_lowest (family_type T f)))
               (family_maximum (ioData3DHeader s') f) = true
      /\ forall x,
           is_sample T (inBuffers s) (family_buffers (e57.pointFields (ioData3DHeader s)) f)
                     (e57.pointCount (ioData3DHeader s)) x ->
           SFleb (family_minimum (ioData3DHeader s') f) x = true
           /\ SFleb x (family_maximum (ioData3DHeader s') f) = true.
Proof. intros Hnum. apply number_input_run. exact Hnum. Qed.

Lemma written_bounds_enclose_the_numbers_witness :
  exists s',
    _fillMinMaxData zero_limits double point_at_infinity = Some (tt, s') /\
    forall f,
      write_condition zero_limits double (ioData3DHeader point_at_infinity) f = true ->
      SFleb (family_minimum (ioData3DHeader s') f)
            (to_double (family_type double f) (numeric_limits_max (family_type double f))) = true
      /\ SFleb (to_double (family_type double f) (numeric_limits_lowest (family_type double f)))
               (family_maximum (ioData3DHeader s') f) = true
      /\ forall x,
           is_sample double (inBuffers point_at_infinity)
                     (family_buffers (e57.pointFields (ioData3DHeader point_at_infinity)) f)
                     (e57.pointCount (ioData3DHeader point_at_infinity)) x ->
           SFleb (family_minimum (ioData3DHeader s') f) x = true
           /\ SFleb x (family_maximum (ioData3DHeader s') f) = true.
Proof.
  apply (written_bounds_enclose_the_numbers zero_limits double point_at_infinity).
  number_sample.
Defined.

(** The minimum written need not be a sample: with every coordinate at
    plus infinity it is the greatest finite [double]. *)
Example minimum_of_points_at_infinity :
  family_minimum (ioData3DHeader (state_after zero_limits double point_at_infinity)) PointRange
  = numeric_limits_max double
  /\ family_maximum (ioData3DHeader (state_after zero_limits double point_at_infinity)) PointRange
     = S754_infinity false.
Proof. split; vm_compute; reflexivity. Qed.

(** ** The two instantiations *)

Lemma SFeqb_finite_eq x s m e :
  SFeqb x (S754_finite s m e) = true -> x = S754_finite s m e.
Proof.
  unfold SFeqb.
  destruct x as [s'|s'| |s' m' e'];
    [ destruct s', s; simpl; discriminate | destruct s', s; simpl; discriminate
    | simpl; discriminate | ].
  rewrite SFcompare_finite.
  destruct s', s; try discriminate;
    destruct (Z.compare_spec e' e) as [Ee|Ee|Ee]; try discriminate;
    destruct (Z.compare_spec (Zpos m') (Zpos m)) as [Em|Em|Em]; try discriminate;
    intros _; inversion Em; subst; reflexivity.
Qed.

Lemma limits_of_the_types_differ x :
  SFeqb x (to_double float (numeric_limits_max float)) = true ->
  SFeqb x (to_double double (numeric_limits_max double)) = false.
Proof.
  rewrite float_max_as_double. intros H. apply SFeqb_finite_eq in H. subst x. reflexivity.
Qed.

(** X6.  The limits a header bound is compared with are those of the
    buffer type.  The point range, angle or time bounds of a header
    cannot be at the limits of [float] and at the limits of [double] at
    once: a family that the instantiation for [float] buffers computes is
    left as it is by the instantiation for [double] buffers, and the
    other way round. *)
Theorem the_buffer_type_selects_the_limits D h f :
  f <> IntensityBounds ->
  write_condition D float h f && write_condition D double h f = false.
Proof.
  intros Hf.
  destruct f; try congruence; cbn [write_condition];
    unfold writePointRange, writeAngle, writeTimeStamp;
    match goal with
    | |- context [SFeqb ?x (to_double float (numeric_limits_max float))] =>
        destruct (SFeqb x (to_double float (numeric_limits_max float))) eqn:E;
          [ rewrite (limits_of_the_types_differ x E) | ]
    end;
    rewrite ?andb_false_r; reflexivity.
Qed.

Lemma the_buffer_type_selects_the_limits_witness :
  write_condition zero_limits float two_points_header PointRange = true
  /\ write_condition zero_limits double two_points_header PointRange = false.
Proof.
  assert (H := the_buffer_type_selects_the_limits zero_limits two_points_header PointRange
                 ltac:(discriminate)).
  split; [ reflexivity | ].
  destruct (write_condition zero_limits double two_points_header PointRange);
    [ discriminate H | reflexivity ].
Defined.

(** ** What the bounds of a family depend on *)

Lemma row_ext b1 b2 i ids :
  (forall id, In id ids -> peek (buffer_of id b1) i = peek (buffer_of id b2) i) ->
  row b1 i ids = row b2 i ids.
Proof.
  induction ids as [|id ids IH]; intros H; [ reflexivity | ].
  simpl. rewrite (H id (or_introl eq_refl)), IH; [ reflexivity | ].
  intros id' I. apply H. right. exact I.
Qed.

Lemma samples_ext b1 b2 ids n : forall i,
  (forall id j, In id ids -> i <= j < i + Z.of_nat n ->
                peek (buffer_of id b1) j = peek (buffer_of id b2) j) ->
  samples b1 ids i n = samples b2 ids i n.
Proof.
  induction n as [|n IH]; intros i H; [ reflexivity | ].
  cbn [samples]. rewrite (row_ext b1 b2 i ids), (IH (i + 1)); [ reflexivity | | ].
  - intros id j I Hj. apply H; [ exact I | lia ].
  - intros id I. apply H; [ exact I | lia ].
Qed.

(** The bounds of a family after a defined call, from the header and the
    buffers the call was given. *)
Lemma header_after_family D T h b h1 f :
  header_after D T h b = Some h1 ->
  if write_condition D T h f
  then exists l,
         samples b (family_buffers (e57.pointFields h) f) 0 (Z.to_nat (e57.pointCount h)) = Some l
         /\ family_minimum h1 f = computed_minimum T f l
         /\ family_maximum h1 f = computed_maximum T f l
  else family_minimum h1 f = family_minimum h f
       /\ family_maximum h1 f = family_maximum h f.
Proof.
  intros H.
  destruct (header_after_state D T h b h1 H) as [s1 [Hrun [Eh _]]].
  destruct (run_characterised D T _ _ _ Hrun) as [_ [_ [_ Hfam]]].
  cbn [ioData3DHeader inBuffers] in Hfam. rewrite Eh in Hfam. apply Hfam.
Qed.

(** X7.  The bounds a call leaves for a family depend on the header and
    on the elements [0] to [pointCount - 1] of the buffers of that family
    only: two defined calls on the same header, with buffers that agree
    on these elements, leave the same bounds for the family, whatever the
    other buffers and the elements from [pointCount] on hold. *)
Theorem family_bounds_depend_on_its_scanned_elements D T h b1 b2 h1 h2 f :
  header_after D T h b1 = Some h1 ->
  header_after D T h b2 = Some h2 ->
  (forall id i,
     In id (family_buffers (e57.pointFields h) f) ->
     0 <= i < e57.pointCount h ->
     peek (buffer_of id b1) i = peek (buffer_of id b2) i) ->
  family_minimum h1 f = family_minimum h2 f
  /\ family_maximum h1 f = family_maximum h2 f.
Proof.
  intros H1 H2 Hagree.
  pose proof (header_after_family D T h b1 h1 f H1) as F1.
  pose proof (header_after_family D T h b2 h2 f H2) as F2.
  destruct (write_condition D T h f).
  - destruct F1 as [l1 [El1 [Emin1 Emax1]]]. destruct F2 as [l2 [El2 [Emin2 Emax2]]].
    rewrite (samples_ext b1 b2) in El1.
    + rewrite El1 in El2. inversion El2; subst l2.
      rewrite Emin1, Emin2, Emax1, Emax2. split; reflexivity.
    + intros id j I Hj. apply Hagree; [ exact I | lia ].
  - destruct F1 as [Emin1 Emax1]. destruct F2 as [Emin2 Emax2].
    rewrite Emin1, Emin2, Emax1, Emax2. split; reflexivity.
Qed.

Lemma family_bounds_depend_on_its_scanned_elements_witness :
  family_minimum (ioData3DHeader (state_after zero_limits double (three_points 2))) PointRange
  = family_minimum
      (ioData3DHeader
         (state_after zero_limits double
            (cartesian_points 2 [double_of_Z 1; double_of_Z 4] [double_of_Z 2; double_of_Z 5]
                                [double_of_Z 3; double_of_Z 6]))) PointRange
  /\ family_maximum (ioData3DHeader (state_after zero_limits double (three_points 2))) PointRange
     = family_maximum
         (ioData3DHeader
            (state_after zero_limits double
               (cartesian_points 2 [double_of_Z 1; double_of_Z 4] [double_of_Z 2; double_of_Z 5]
                                   [double_of_Z 3; double_of_Z 6]))) PointRange.
Proof.
  apply (family_bounds_depend_on_its_scanned_elements zero_limits double
           (ioData3DHeader (three_points 2)) (inBuffers (three_points 2))
           (inBuffers (cartesian_points 2 [double_of_Z 1; double_of_Z 4]
                         [double_of_Z 2; double_of_Z 5] [double_of_Z 3; double_of_Z 6]))).
  - vm_compute. reflexivity.
  - vm_compute. reflexivity.
  - intros id i Hid Hi. vm_compute in Hid. cbn in Hi.
    repeat (destruct Hid as [<-|Hid]); try contradiction;
      (assert (i = 0 \/ i = 1) as [-> | ->] by lia); reflexivity.
Defined.

(** X8.  The intensity bounds are computed in [double] by both
    instantiations, under a condition that does not name the buffer type:
    a defined call for [float] buffers and a defined call for [double]
    buffers, on the same header and with the same intensities at the
    indices [0] to [pointCount - 1], leave the same intensity limits. *)
Theorem intensity_limits_do_not_depend_on_the_buffer_type D h b b' h1 h2 :
  header_after D float h b = Some h1 ->
  header_after D double h b' = Some h2 ->
  (forall i, 0 <= i < e57.pointCount h -> peek (e57.intensity b) i = peek (e57.intensity b') i) ->
  e57.intensityLimits h1 = e57.intensityLimits h2.
Proof.
  intros H1 H2 Hagree.
  pose proof (header_after_family D float h b h1 IntensityBounds H1) as F1.
  pose proof (header_after_family D double h b' h2 IntensityBounds H2) as F2.
  cbn [write_condition family_buffers family_minimum family_maximum] in F1, F2.
  assert (E : e57.intensityMinimum (e57.intensityLimits h1) = e57.intensityMinimum (e57.intensityLimits h2)
              /\ e57.intensityMaximum (e57.intensityLimits h1) = e57.intensityMaximum (e57.intensityLimits h2)).
  { destruct (writeIntensity D h).
    - destruct F1 as [l1 [El1 [Emin1 Emax1]]]. destruct F2 as [l2 [El2 [Emin2 Emax2]]].
      rewrite (samples_ext b b') in El1.
      + rewrite El1 in El2. inversion El2; subst l2.
        rewrite Emin1, Emin2, Emax1, Emax2. split; reflexivity.
      + intros id j [<-|[]] Hj. apply Hagree. lia.
    - destruct F1 as [Emin1 Emax1]. destruct F2 as [Emin2 Emax2].
      rewrite Emin1, Emin2, Emax1, Emax2. split; reflexivity. }
  destruct E as [Emin Emax].
  destruct (e57.intensityLimits h1), (e57.intensityLimits h2). cbn in Emin, Emax.
  subst. reflexivity.
Qed.

Lemma intensity_limits_do_not_depend_on_the_buffer_type_witness :
  e57.intensityLimits (ioData3DHeader (state_after zero_limits float two_points))
  = e57.intensityLimits (ioData3DHeader (state_after zero_limits double two_points)).
Proof.
  apply (intensity_limits_do_not_depend_on_the_buffer_type zero_limits
           two_points_header two_points_buffers two_points_buffers).
  - vm_compute. reflexivity.
  - vm_compute. reflexivity.
  - reflexivity.
Defined.

(** ** More points *)

Lemma samples_app b ids n m : forall i,
  samples b ids i (n + m) =
  match samples b ids i n, samples b ids (i + Z.of_nat n) m with
  | Some l1, Some l2 => Some (l1 ++ l2)
  | _, _ => None
  end.
Proof.
  induction n as [|n IH]; intros i.
  - cbn [samples Nat.add Z.of_nat]. rewrite Z.add_0_r. destruct (samples b ids i m); reflexivity.
  - cbn [samples Nat.add]. rewrite IH.
    replace (i + 1 + Z.of_nat n) with (i + Z.of_nat (S n)) by lia.
    destruct (row b i ids), (samples b ids (i + 1) n), (samples b ids (i + Z.of_nat (S n)) m);
      try reflexivity.
    rewrite app_assoc. reflexivity.
Qed.

Lemma number_input_fewer D T s n :
  number_input D T s ->
  n <= e57.pointCount (ioData3DHeader s) ->
  number_input D T {| ioData3DHeader := with_pointCount n (ioData3DHeader s);
                      inBuffers := inBuffers s; reads := [] |}.
Proof.
  intros H Hn id i I Hi. cbn [ioData3DHeader inBuffers with_pointCount e57.pointCount] in *.
  apply H; [ exact I | lia ].
Qed.

(** X9.  The running minimum never goes up and the running maximum never
    goes down as the loop goes on: on input whose scanned elements exist
    and are not NaN, the bounds written for the first [n] points of a
    record enclose no more than the bounds written for all its points. *)
Theorem more_points_widen_the_bounds D T s n :
  number_input D T s ->
  n <= e57.pointCount (ioData3DHeader s) ->
  exists h1 h2,
    header_after D T (with_pointCount n (ioData3DHeader s)) (inBuffers s) = Some h1
    /\ header_after D T (ioData3DHeader s) (inBuffers s) = Some h2
    /\ forall f,
         write_condition D T (ioData3DHeader s) f = true ->
         SFleb (family_minimum h2 f) (family_minimum h1 f) = true
         /\ SFleb (family_maximum h1 f) (family_maximum h2 f) = true.
Proof.
  intros Hnum Hn.
  pose proof (number_input_fewer D T s n Hnum Hn) as Hnum1.
  set (s1 := {| ioData3DHeader := with_pointCount n (ioData3DHeader s);
                inBuffers := inBuffers s; reads := [] |}) in *.
  destruct (proj2 (run_defined_iff D T s1)) as [s1' Hrun1].
  { intros id i I Hi. destruct (Hnum1 id i I Hi) as [v [P _]]. exists v. exact P. }
  destruct (proj2 (run_defined_iff D T s)) as [s' Hrun].
  { intros id i I Hi. destruct (Hnum id i I Hi) as [v [P _]]. exists v. exact P. }
  exists (ioData3DHeader s1'), (ioData3DHeader s').
  split; [ exact (header_after_run D T s1 s1' tt Hrun1) | ].
  split; [ exact (header_after_run D T s s' tt Hrun) | ].
  intros f F.
  destruct (run_characterised D T s1 s1' tt Hrun1) as [_ [_ [_ Hfam1]]].
  destruct (run_characterised D T s s' tt Hrun) as [_ [_ [_ Hfam]]].
  specialize (Hfam1 f). specialize (Hfam f).
  assert (F1 : write_condition D T (ioData3DHeader s1) f = true) by (destruct f; exact F).
  rewrite F1 in Hfam1. rewrite F in Hfam.
  destruct Hfam1 as [l1 [El1 [Emin1 Emax1]]]. destruct Hfam as [l [El [Emin Emax]]].
  pose proof (number_input_samples D T s1 f l1 Hnum1 F1 El1) as Hl1.
  pose proof (number_input_samples D T s f l Hnum F El) as Hl.
  cbn [s1 ioData3DHeader inBuffers with_pointCount e57.pointCount e57.pointFields] in El1.
  replace (Z.to_nat (e57.pointCount (ioData3DHeader s)))
    with (Z.to_nat n + (Z.to_nat (e57.pointCount (ioData3DHeader s)) - Z.to_nat n))%nat
    in El by lia.
  rewrite samples_app, El1 in El.
  destruct (samples _ _ (0 + Z.of_nat (Z.to_nat n)) _) as [l2|]; [ | discriminate ].
  inversion El; subst l; clear El.
  assert (Hl2 : numbers l2).
  { unfold numbers. apply Forall_forall. intros v I. apply (Hl v). apply in_or_app. right. exact I. }
  destruct (limits_are_numbers (family_type T f)) as [Nmax Nlow].
  destruct (limits_are_values (family_type T f)) as [Vmax Vlow].
  set (lo1 := fold_min (numeric_limits_max (family_type T f)) l1).
  set (hi1 := fold_max (numeric_limits_lowest (family_type T f)) l1).
  assert (Vlo1 : is_value (family_type T f) lo1 = true /\ is_nan lo1 = false).
  { subst lo1. destruct (fold_min_cases l1 (numeric_limits_max (family_type T f))) as [E|I];
      [ rewrite E; split; assumption | apply (Hl1 _ I) ]. }
  assert (Vhi1 : is_value (family_type T f) hi1 = true /\ is_nan hi1 = false).
  { subst hi1. destruct (fold_max_cases l1 (numeric_limits_lowest (family_type T f))) as [E|I];
      [ rewrite E; split; assumption | apply (Hl1 _ I) ]. }
  assert (Vlo : is_value (family_type T f) (fold_min lo1 l2) = true).
  { destruct (fold_min_cases l2 lo1) as [E|I];
      [ rewrite E; apply Vlo1 | apply (Hl _ (in_or_app _ _ _ (or_intror I))) ]. }
  assert (Vhi : is_value (family_type T f) (fold_max hi1 l2) = true).
  { destruct (fold_max_cases l2 hi1) as [E|I];
      [ rewrite E; apply Vhi1 | apply (Hl _ (in_or_app _ _ _ (or_intror I))) ]. }
  rewrite Emin, Emax, Emin1, Emax1. unfold computed_minimum, computed_maximum.
  rewrite fold_min_app, fold_max_app. fold lo1. fold hi1.
  rewrite !to_double_SFleb by (try assumption; apply Vlo1 || apply Vhi1).
  split.
  - exact (proj1 (fold_min_le l2 lo1 Hl2 (proj2 Vlo1))).
  - exact (proj1 (fold_max_ge l2 hi1 Hl2 (proj2 Vhi1))).
Qed.

Lemma more_points_widen_the_bounds_witness :
  exists h1 h2,
    header_after zero_limits double (with_pointCount 2 (ioData3DHeader (three_points 3)))
                 (inBuffers (three_points 3)) = Some h1
    /\ header_after zero_limits double (ioData3DHeader (three_points 3))
                    (inBuffers (three_points 3)) = Some h2
    /\ forall f,
         write_condition zero_limits double (ioData3DHeader (three_points 3)) f = true ->
         SFleb (family_minimum h2 f) (family_minimum h1 f) = true
         /\ SFleb (family_maximum h1 f) (family_maximum h2 f) = true.
Proof.
  apply (more_points_widen_the_bounds zero_limits double (three_points 3) 2).
  - number_sample.
  - simpl. lia.
Defined.

(** ** The flags the code does not read *)

(** X13.  [_fillMinMaxData] never consults the flags of the y, z, azimuth
    and elevation fields: whatever they are set to, the call is defined
    on the same buffers, scans the same buffers and leaves the same
    header, these flags apart.  The x, y and z buffers are scanned or not
    as the flag of the x field says, and the azimuth and elevation
    buffers whether the record has such fields or not. *)
Theorem fill_does_not_read_four_of_the_flags D T h b y z azimuth elevation :
  scanned_buffers D T (with_flags y z azimuth elevation h) = scanned_buffers D T h
  /\ header_after D T (with_flags y z azimuth elevation h) b
     = option_map (with_flags y z azimuth elevation) (header_after D T h b).
Proof.
  split; [ reflexivity | ].
  rewrite !header_after_scanned.
  change (scanned b (e57.pointFields (with_flags y z azimuth elevation h))
            (writePointRange T (e57.pointFields (with_flags y z azimuth elevation h)))
            (writeAngle T (e57.pointFields (with_flags y z azimuth elevation h)))
            (writeIntensity D (with_flags y z azimuth elevation h))
            (writeTimeStamp T (e57.pointFields (with_flags y z azimuth elevation h))) 0
            (Z.to_nat (e57.pointCount (with_flags y z azimuth elevation h))))
    with (scanned b (e57.pointFields h)
            (writePointRange T (e57.pointFields h)) (writeAngle T (e57.pointFields h))
            (writeIntensity D h) (writeTimeStamp T (e57.pointFields h)) 0
            (Z.to_nat (e57.pointCount h))).
  destruct (scanned _ _ _ _ _ _ _ _) as [[[[pr an] it] ts]|]; reflexivity.
Qed.

(** ** The facade, step by step *)

Lemma static_cast_int64_t_large x :
  2 ^ 63 <= x < 2 ^ 64 -> static_cast_int64_t x = x - 2 ^ 64.
Proof.
  intros H. unfold static_cast_int64_t.
  change (2 ^ 63) with 9223372036854775808 in *.
  change (2 ^ 64) with 18446744073709551616 in *.
  assert (E : (x + 9223372036854775808) mod 18446744073709551616 = x - 9223372036854775808).
  { symmetry. apply (Z.mod_unique_pos _ 18446744073709551616 1); lia. }
  rewrite E. lia.
Qed.

Lemma static_cast_size_t_small x : 0 <= x < 2 ^ 64 -> static_cast_size_t x = x.
Proof. intros H. unfold static_cast_size_t. apply Z.mod_small. exact H. Qed.

(** The conversion of a [size_t] to [int64_t] loses nothing: the result
    is an [int64_t], converting it back gives the [size_t], and it is
    negative exactly from [2^63] on. *)
Lemma static_cast_int64_t_of_size_t w :
  size_t w ->
  int64_t (static_cast_int64_t w)
  /\ static_cast_size_t (static_cast_int64_t w) = w
  /\ (static_cast_int64_t w < 0 <-> 2 ^ 63 <= w).
Proof.
  unfold size_t, int64_t. intros H.
  destruct (Z.lt_ge_cases w (2 ^ 63)) as [Hs|Hl].
  - rewrite static_cast_int64_t_small by lia.
    rewrite static_cast_size_t_small by lia.
    change (2 ^ 63) with 9223372036854775808 in *. lia.
  - rewrite static_cast_int64_t_large by lia.
    destruct (static_cast_size_t_negative (w - 2 ^ 64)) as [E _].
    + unfold int64_t. change (2 ^ 63) with 9223372036854775808 in *.
      change (2 ^ 64) with 18446744073709551616 in *. lia.
    + lia.
    + rewrite E.
      change (2 ^ 63) with 9223372036854775808 in *.
      change (2 ^ 64) with 18446744073709551616 in *. lia.
Qed.

Lemma static_cast_round_trip x : int64_t x -> static_cast_int64_t (static_cast_size_t x) = x.
Proof.
  intros H. destruct (Z.lt_ge_cases x 0) as [Hneg|Hpos].
  - destruct (static_cast_size_t_negative x H Hneg) as [E R].
    rewrite static_cast_int64_t_large by exact R. rewrite E. lia.
  - unfold int64_t in H.
    rewrite static_cast_size_t_small.
    + apply static_cast_int64_t_small. lia.
    + change (2 ^ 63) with 9223372036854775808 in *.
      change (2 ^ 64) with 18446744073709551616 in *. lia.
Qed.

Section FacadeSteps.

Variables Image2D Image2DType Image2DProjection CompressedVectorWriter S : Type.
Variable handle : Handler Image2D Image2DType Image2DProjection CompressedVectorWriter S.

(** X10.  [WriteImage2DData] for an index returns the count the
    implementation reports, read as a signed number: the result
    converted back to [size_t] is the count reported, and it is negative
    exactly when that count is [2^63] or more.  When the implementation
    reports the very count it was given, the result is the method's own
    [count] argument, a negative one included. *)
Theorem WriteImage2DData_returns_the_count_reported
    imageIndex imageType imageProjection pBuffer start count st written st' :
  handle _ (impl_WriteImage2DData imageIndex imageType imageProjection pBuffer start
              (static_cast_size_t count)) st = (Some written, st') ->
  size_t written ->
  exists r,
    run handle (WriteImage2DData_index imageIndex imageType imageProjection pBuffer start count) st
    = (Returned r, st',
       [any (impl_WriteImage2DData imageIndex imageType imageProjection pBuffer start
               (static_cast_size_t count))])
    /\ int64_t r
    /\ static_cast_size_t r = written
    /\ (r < 0 <-> 2 ^ 63 <= written)
    /\ (int64_t count -> written = static_cast_size_t count -> r = count).
Proof.
  intros E Hw. exists (static_cast_int64_t written).
  destruct (static_cast_int64_t_of_size_t written Hw) as [H1 [H2 H3]].
  split.
  { unfold WriteImage2DData_index. cbn [run]. rewrite E. reflexivity. }
  split; [ exact H1 | ]. split; [ exact H2 | ]. split; [ exact H3 | ].
  intros Hc ->. apply static_cast_round_trip. exact Hc.
Qed.

(** X11.  The form of [WriteImage2DData] that takes a header does what
    [NewImage2D] followed by the form that takes an index does, for the
    index [NewImage2D] returned: the same calls on the implementation,
    the same result and the same state, whatever the implementation
    answers; when [NewImage2D] throws, nothing is written. *)
Theorem WriteImage2DData_is_NewImage2D_then_WriteImage2DData
    image2DHeader imageType imageProjection startPos pBuffer byteCount st :
  run handle (WriteImage2DData_header image2DHeader imageType imageProjection
                startPos pBuffer byteCount) st
  = run handle (NewImage2D_then_WriteImage2DData image2DHeader imageType imageProjection
                  startPos pBuffer byteCount) st
  /\ (forall st1,
        handle _ (impl_NewImage2D image2DHeader) st = (None, st1) ->
        run handle (WriteImage2DData_header image2DHeader imageType imageProjection
                      startPos pBuffer byteCount) st
        = (Thrown, st1, [any (impl_NewImage2D image2DHeader)])).
Proof.
  split.
  - unfold WriteImage2DData_header, NewImage2D_then_WriteImage2DData, NewImage2D,
      WriteImage2DData_index.
    cbn [run and_then].
    destruct (handle _ (impl_NewImage2D image2DHeader) st) as [[[imageIndex h']|] st1];
      reflexivity.
  - intros st1 E. unfold WriteImage2DData_header. cbn [run]. rewrite E. reflexivity.
Qed.

Lemma fill_without_conditions D T s :
  (forall f, write_condition D T (ioData3DHeader s) f = false) ->
  _fillMinMaxData D T s = Some (tt, s).
Proof.
  intros Hno.
  destruct (fillMinMaxData_run D T s) as [tr [W E]]. rewrite E. clear E.
  pose proof (Hno PointRange) as F1. pose proof (Hno Angle) as F2.
  pose proof (Hno IntensityBounds) as F3. pose proof (Hno Time) as F4.
  cbn [write_condition] in F1, F2, F3, F4.
  assert (Etr : tr = []).
  { unfold scanned_buffers, scanned_ids in W. rewrite F1, F2, F3, F4 in W.
    destruct tr as [|r tr]; [ reflexivity | ].
    inversion W as [|? ? [[] _] _]. }
  unfold scanned. rewrite F1, F2, F3, F4. cbn [active]. rewrite !samples_nil. cbn [opt4].
  rewrite filled_unwritten by exact Hno. subst tr. rewrite app_nil_r.
  destruct s; reflexivity.
Qed.

(** X12.  [WriteData3DData] does what [NewData3D], then
    [SetUpData3DPointsData] for the index it returned and the point count
    of the header as a [size_t], then one [write] of that count and one
    [close] do,
    on the header [_fillMinMaxData] leaves: the same calls, result and
    state whatever the implementation answers.  When no write condition
    holds for the header, as with bounds the caller has set, that header
    is the caller's own and the buffers are not read. *)
Theorem WriteData3DData_is_fill_then_the_steps D T h b st :
  run handle (WriteData3DData D T h b) st
  = match header_after D T h b with
    | Some h1 => run handle (NewData3D_then_write T h1 b) st
    | None => (UndefinedBehaviour, st, [])
    end
  /\ ((forall f, write_condition D T h f = false) ->
      run handle (WriteData3DData D T h b) st = run handle (NewData3D_then_write T h b) st).
Proof.
  assert (Hrun : forall u s1,
            _fillMinMaxData D T {| ioData3DHeader := h; inBuffers := b; reads := [] |} = Some (u, s1) ->
            run handle (WriteData3DData D T h b) st
            = run handle (NewData3D_then_write T (ioData3DHeader s1) b) st).
  { intros u s1 E.
    destruct (run_characterised D T _ _ _ E) as [Hb _]. cbn [inBuffers] in Hb.
    unfold WriteData3DData, NewData3D_then_write, NewData3D, SetUpData3DPointsData.
    rewrite E, Hb. cbn [run and_then].
    destruct (handle _ (impl_NewData3D (ioData3DHeader s1)) st) as [[[scanIndex h2]|] st1];
      [ | reflexivity ].
    cbn [run and_then].
    destruct (handle _ (impl_SetUpData3DPointsData scanIndex
                          (static_cast_size_t (e57.pointCount h2)) T b) st1)
      as [[dataWriter|] st2]; reflexivity. }
  split.
  - unfold header_after.
    destruct (_fillMinMaxData D T _) as [[u s1]|] eqn:E.
    + apply (Hrun u s1 eq_refl).
    + unfold WriteData3DData. rewrite E. reflexivity.
  - intros Hno.
    apply (Hrun tt {| ioData3DHeader := h; inBuffers := b; reads := [] |}).
    apply fill_without_conditions. exact Hno.
Qed.


End FacadeSteps.

Lemma WriteImage2DData_returns_the_count_reported_witness :
  exists r,
    run counting_impl (WriteImage2DData_index 7 tt tt 4096 0 (-1)) 5
    = (Returned r, 5, [any (impl_WriteImage2DData 7 tt tt 4096 0 (static_cast_size_t (-1)))])
    /\ int64_t r
    /\ static_cast_size_t r = 18446744073709551615
    /\ (r < 0 <-> 2 ^ 63 <= 18446744073709551615)
    /\ (int64_t (-1) -> 18446744073709551615 = static_cast_size_t (-1) -> r = -1).
Proof.
  apply (WriteImage2DData_returns_the_count_reported unit unit unit Z Z counting_impl
           7 tt tt 4096 0 (-1) 5 18446744073709551615 5).
  - reflexivity.
  - unfold size_t. split; [ discriminate | reflexivity ].
Defined.

Lemma WriteImage2DData_is_NewImage2D_then_WriteImage2DData_witness :
  run counting_impl (WriteImage2DData_header tt tt tt 0 4096 100) 5
  = run counting_impl (NewImage2D_then_WriteImage2DData tt tt tt 0 4096 100) 5.
Proof.
  exact (proj1 (WriteImage2DData_is_NewImage2D_then_WriteImage2DData unit unit unit Z Z
                  counting_impl tt tt tt 0 4096 100 5)).
Defined.

Lemma WriteData3DData_is_fill_then_the_steps_witness :
  run counting_impl (WriteData3DData zero_limits float two_points_header two_points_buffers) 5
  = run counting_impl (NewData3D_then_write float (ioData3DHeader two_points_after)
                         two_points_buffers) 5
  /\ run counting_impl
       (WriteData3DData zero_limits float cartesian_only_header (cartesian_only_buffers None)) 5
     = run counting_impl
         (NewData3D_then_write float cartesian_only_header (cartesian_only_buffers None)) 5.
Proof.
  split.
  - exact (proj1 (WriteData3DData_is_fill_then_the_steps unit unit unit Z Z counting_impl
                    zero_limits float two_points_header two_points_buffers 5)).
  - apply (proj2 (WriteData3DData_is_fill_then_the_steps unit unit unit Z Z counting_impl
                    zero_limits float cartesian_only_header (cartesian_only_buffers None) 5)).
    intros f. destruct f; reflexivity.
Defined.
